(** * UnrealDevHelper: build orchestration, artifact cleanup and log pipeline

    A shallow embedding of [UnrealDevHelper.py]:

    - [Ansi]: the ANSI colour parser [parse_ansi];
    - [LogChannel]: the log queue and the drain loop [poll_log_queue_colored];
    - [Disk]: the directory tree the helper reads and cleans;
    - [Helper]: [run_command_stream], the engine lookup, the cleanup
      functions and [run_build_process], written in a small monad that threads
      the disk and collects the side effects in order. *)

From Stdlib Require Import String Ascii List ZArith Lia Bool Arith.
From Stdlib Require Import DecimalString.
Import ListNotations.

Local Open Scope string_scope.
Local Open Scope list_scope.

(** String concatenation, as [+] on [str] and in f-strings. *)
Infix "+++" := String.append (right associativity, at level 60).

(** ** Python helpers shared by all parts *)

(** [l[i:j]] for [0 <= i], [0 <= j]. *)
Definition slice {A : Type} (l : list A) (i j : nat) : list A :=
  firstn (j - i) (skipn i l).

(** ** The ANSI parser *)

Module Ansi.

(** ["\x1b"]. *)
Definition ESC : ascii := ascii_of_nat 27.

(** The dict [ANSI_COLORS]. *)
Definition ANSI_COLORS : list (string * string) :=
  [ ("30", "ansi_black");
    ("31", "ansi_red");
    ("32", "ansi_green");
    ("33", "ansi_yellow");
    ("34", "ansi_blue");
    ("35", "ansi_magenta");
    ("36", "ansi_cyan");
    ("37", "ansi_white") ].

(** [d.get(k)] on a dict written as its list of items. *)
Fixpoint dict_get (d : list (string * string)) (k : string) : option string :=
  match d with
  | [] => None
  | (k', v) :: d' => if (k' =? k)%string then Some v else dict_get d' k
  end.

(** The character class [[0-9;]] of the pattern. *)
Definition is_param (c : ascii) : bool :=
  ((("0" <=? c) && (c <=? "9")) || (c =? ";"))%char.

(** Length of the longest prefix matched by [[0-9;]*]. *)
Fixpoint params_len (l : list ascii) : nat :=
  match l with
  | c :: tl => if is_param c then S (params_len tl) else 0
  | [] => 0
  end.

(** The pattern [\x1b\[[0-9;]*m] tried at the head of [l]: the length of the
    match.  The star is greedy, and since ["m"] is not in the class, giving
    characters back never helps: there is a match exactly when the character
    after the longest run of parameters is ["m"]. *)
Definition match_here (l : list ascii) : option nat :=
  match l with
  | e :: b :: tl =>
      if ((e =? ESC) && (b =? "["))%char then
        let k := params_len tl in
        match nth_error tl k with
        | Some m => if (m =? "m")%char then Some (k + 3) else None
        | None => None
        end
      else None
  | _ => None
  end.

(** A match object: [match.span()] and [match.group(1)]. *)
Record re_match : Type := mk_match {
  m_start : nat;
  m_end : nat;
  m_group : list ascii
}.

(** [pattern.finditer(text)], scanning the rest [l] of the text from position
    [pos]; [skip] counts the characters of the current match still to be
    passed over (matches do not overlap). *)
Fixpoint finditer_from (pos skip : nat) (l : list ascii) : list re_match :=
  match l with
  | [] => []
  | _ :: tl =>
      match skip with
      | S k => finditer_from (S pos) k tl
      | 0 =>
          match match_here l with
          | Some n =>
              mk_match pos (pos + n) (firstn n l)
                :: finditer_from (S pos) (n - 1) tl
          | None => finditer_from (S pos) 0 tl
          end
      end
  end.

Definition finditer (text : list ascii) : list re_match :=
  finditer_from 0 0 text.

(** [code.split(';')]. *)
Fixpoint split_semi (l : list ascii) : list (list ascii) :=
  match l with
  | [] => [[]]
  | c :: tl =>
      if (c =? ";")%char then [] :: split_semi tl
      else match split_semi tl with
           | h :: t => (c :: h) :: t
           | [] => [[c]]
           end
  end.

(** One turn of [for c in codes]. *)
Definition apply_code (new_color : option string) (c : list ascii)
  : option string :=
  let c := string_of_list_ascii c in
  if (c =? "0")%string then None
  else match dict_get ANSI_COLORS c with
       | Some tag => Some tag
       | None => new_color
       end.

(** The colour after an escape sequence [esc_sequence], starting from
    [current_color]. *)
Definition process_code (current_color : option string)
    (esc_sequence : list ascii) : option string :=
  let code := slice esc_sequence 2 (length esc_sequence - 1) in
  let codes := split_semi code in
  fold_left apply_code codes current_color.

Definition segment : Type := (list ascii * option string)%type.

(** The loop variables [segments], [current_color], [last_pos]. *)
Definition loop_state : Type := (list segment * option string * nat)%type.

(** The body of [for match in pattern.finditer(text)]. *)
Definition loop_body (text : list ascii) (st : loop_state) (m : re_match)
  : loop_state :=
  let '(segments, current_color, last_pos) := st in
  let segments :=
    if (last_pos <? m_start m)%nat
    then segments ++ [(slice text last_pos (m_start m), current_color)]
    else segments in
  (segments, process_code current_color (m_group m), m_end m).

(** [parse_ansi] on the list of characters of [text]. *)
Definition parse_ansi_chars (text : list ascii) : list segment :=
  let '(segments, current_color, last_pos) :=
    fold_left (loop_body text) (finditer text) ([], None, 0) in
  if (last_pos <? length text)%nat
  then segments ++ [(skipn last_pos text, current_color)]
  else segments.

Definition parse_ansi (text : string) : list (string * option string) :=
  map (fun s : segment => (string_of_list_ascii (fst s), snd s))
      (parse_ansi_chars (list_ascii_of_string text)).

(** *** What the specification says, written independently *)

(** An escape sequence: [ESC [ <digits;digits;...> m]. *)
Definition is_escape (e : list ascii) : Prop :=
  exists ps, forallb is_param ps = true /\
             e = ESC :: "["%char :: ps ++ ["m"%char].


(** The input with its escape sequences removed, scanning from the left. *)
Fixpoint strip_from (skip : nat) (l : list ascii) : list ascii :=
  match l with
  | [] => []
  | c :: tl =>
      match skip with
      | S k => strip_from k tl
      | 0 =>
          match match_here l with
          | Some n => strip_from (n - 1) tl
          | None => c :: strip_from 0 tl
          end
      end
  end.

Definition strip_escapes (text : string) : string :=
  string_of_list_ascii (strip_from 0 (list_ascii_of_string text)).








(** A pending run of plain text becomes a segment unless it is empty. *)
Definition emit (pending : list ascii) (color : option string)
  : list segment :=
  match pending with
  | [] => []
  | _ => [(pending, color)]
  end.

(** The segments as the specification describes them: text between escape
    sequences is collected in [pending] and emitted, tagged with the colour
    in force, when an escape sequence or the end of the input is reached. *)
Fixpoint spec_segments (skip : nat) (pending : list ascii)
    (color : option string) (l : list ascii) : list segment :=
  match l with
  | [] => emit pending color
  | c :: tl =>
      match skip with
      | S k => spec_segments k pending color tl
      | 0 =>
          match match_here l with
          | Some n =>
              emit pending color
                ++ spec_segments (n - 1) [] (process_code color (firstn n l)) tl
          | None => spec_segments 0 (pending ++ [c]) color tl
          end
      end
  end.

End Ansi.

(** ** The log channel *)

Module LogChannel.

(** ["\n"]. *)
Definition NL : string := String (ascii_of_nat 10) EmptyString.

(** [log_queue = queue.Queue()]: an unbounded FIFO.  Every operation takes
    the queue's lock, so the operations of the worker threads and of the
    consumer are atomic and the queue goes through a sequence of states. *)
Definition queue : Type := list string.

(** [q.put(message)]. *)
Definition put (message : string) (q : queue) : queue := q ++ [message].

(** [q.get_nowait()]; [None] is [queue.Empty] raised. *)
Definition get_nowait (q : queue) : option (string * queue) :=
  match q with
  | [] => None
  | message :: q' => Some (message, q')
  end.

(** [log(message)]. *)
Definition log (message : string) (log_queue : queue) : queue :=
  put message log_queue.

(** The calls made on the text widget. *)
Inductive widget_call : Type :=
| Insert (segment : string) (color_tag : option string)
| See.

(** [if color_tag:] on an optional string. *)
Definition truthy (s : option string) : bool :=
  match s with
  | Some t => negb (t =? "")%string
  | None => false
  end.

(** The body of the [while True] loop for one message. *)
Definition render (message : string) : list widget_call :=
  map (fun '(segment, color_tag) =>
         if truthy color_tag then Insert segment color_tag
         else Insert segment None)
      (Ansi.parse_ansi (message +++ NL))
  ++ [See].

(** One run of the [try: while True: ... except queue.Empty: pass] block of
    [poll_log_queue_colored] with no producer running meanwhile: the queue
    left, the widget calls made and the messages taken.  Each turn is one
    [get_nowait]; the empty queue is [queue.Empty], which ends the loop. *)
Fixpoint poll_log_queue_colored (log_queue : queue)
  : queue * list widget_call * list string :=
  match log_queue with
  | [] => ([], [], [])
  | message :: q' =>
      let '(q'', calls, taken) := poll_log_queue_colored q' in
      (q'', render message ++ calls, message :: taken)
  end.

(** The interleaving of producers and consumer.  [Produce m] is a call of
    [log(m)] by some worker thread; [Consume] is one [get_nowait] of the
    consumer, whether inside a run of the loop or at the start of the next
    poll. *)
Inductive action : Type :=
| Produce (message : string)
| Consume.

Record state : Type := mk_state {
  chan : queue;
  widget : list widget_call;
  taken : list string
}.

Definition init : state := mk_state [] [] [].

Definition step (st : state) (a : action) : state :=
  match a with
  | Produce m => mk_state (log m (chan st)) (widget st) (taken st)
  | Consume =>
      match get_nowait (chan st) with
      | Some (m, q') => mk_state q' (widget st ++ render m) (taken st ++ [m])
      | None => st
      end
  end.

Definition run (schedule : list action) (st : state) : state :=
  fold_left step schedule st.

(** The messages enqueued by a schedule, in the order of the calls. *)
Fixpoint produced (schedule : list action) : list string :=
  match schedule with
  | [] => []
  | Produce m :: rest => m :: produced rest
  | Consume :: rest => produced rest
  end.

(** The consumer running one whole poll from [st] while no producer runs. *)
Definition drain (st : state) : state :=
  let '(q, calls, msgs) := poll_log_queue_colored (chan st) in
  mk_state q (widget st ++ calls) (taken st ++ msgs).

End LogChannel.

(** ** The disk *)

Set Warnings "-register-all".

Module Disk.

(** A path is the list of its components; the empty list is the empty
    string.  [os.path.join] adds components. *)
Definition path : Type := list string.

Definition os_path_join (a : path) (b : string) : path := a ++ [b].

(** The path as it is printed in a message. *)
Definition show_path (p : path) : string := String.concat "\" p.

(** A file with its text, or a directory with its entries in listing
    order. *)
Inductive node : Type :=
| File (content : string)
| Dir (entries : list (string * node)).

Fixpoint assoc (name : string) (entries : list (string * node))
  : option node :=
  match entries with
  | [] => None
  | (n, c) :: rest => if (n =? name)%string then Some c else assoc name rest
  end.

Fixpoint lookup (p : path) (n : node) : option node :=
  match p with
  | [] => Some n
  | x :: p' =>
      match n with
      | Dir entries =>
          match assoc x entries with
          | Some c => lookup p' c
          | None => None
          end
      | File _ => None
      end
  end.

(** The disk without the entry at [p] and all below it. *)
Fixpoint delete (p : path) (n : node) : node :=
  match p with
  | [] => n
  | x :: p' =>
      match n with
      | File _ => n
      | Dir entries =>
          match p' with
          | [] => Dir (filter (fun e => negb (fst e =? x)%string) entries)
          | _ =>
              Dir (map (fun e => if (fst e =? x)%string
                                 then (fst e, delete p' (snd e)) else e)
                       entries)
          end
      end
  end.

(** [os.path.exists], [os.path.isdir], [os.path.isfile]; all three are
    [False] on the empty string. *)
Definition os_path_exists (p : path) (d : node) : bool :=
  match p, lookup p d with
  | _ :: _, Some _ => true
  | _, _ => false
  end.

Definition os_path_isdir (p : path) (d : node) : bool :=
  match p, lookup p d with
  | _ :: _, Some (Dir _) => true
  | _, _ => false
  end.

Definition os_path_isfile (p : path) (d : node) : bool :=
  match p, lookup p d with
  | _ :: _, Some (File _) => true
  | _, _ => false
  end.

(** The names in a directory, in listing order; none if [p] is not a
    directory. *)
Definition names_at (p : path) (d : node) : list string :=
  match lookup p d with
  | Some (Dir entries) => map fst entries
  | _ => []
  end.

(** Number of directory levels at and below a node. *)
Fixpoint height (n : node) : nat :=
  match n with
  | File _ => 0
  | Dir entries =>
      S ((fix over (es : list (string * node)) : nat :=
            match es with
            | [] => 0
            | (_, c) :: es' => Nat.max (height c) (over es')
            end) entries)
  end.

Definition height_at (p : path) (d : node) : nat :=
  match lookup p d with
  | Some n => height n
  | None => 0
  end.

(** [p] is [q] or lies below [q]. *)
Fixpoint below (q p : path) : bool :=
  match q, p with
  | [], _ => true
  | x :: q', y :: p' => (x =? y)%string && below q' p'
  | _ :: _, [] => false
  end.

End Disk.

(** ** The disk as Windows finds names *)

(** [UnrealDevHelper.py] runs on Windows only: it imports [winreg] and calls
    [os.startfile].  There the file system finds an entry whatever the case
    of the letters in the name that is asked for, and lists it under the name
    it was made with; a folder holds no two names that differ in case only.
    The letters are those of ASCII.  The look-ups of [Disk] compare names as
    they are written; they are those of the scaffolding script, which runs
    anywhere. *)
Module NT.

Import Disk.

Definition lower (c : ascii) : ascii :=
  let n := nat_of_ascii c in
  if ((65 <=? n) && (n <=? 90))%nat then ascii_of_nat (n + 32) else c.

(** [os.path.normcase] on a name. *)
Definition normcase (name : string) : string :=
  string_of_list_ascii (map lower (list_ascii_of_string name)).

(** Two names of one entry. *)
Definition same_name (a b : string) : bool :=
  (normcase a =? normcase b)%string.

Fixpoint assoc (name : string) (entries : list (string * node))
  : option node :=
  match entries with
  | [] => None
  | (n, c) :: rest => if same_name n name then Some c else assoc name rest
  end.

Fixpoint lookup (p : path) (n : node) : option node :=
  match p with
  | [] => Some n
  | x :: p' =>
      match n with
      | Dir entries =>
          match assoc x entries with
          | Some c => lookup p' c
          | None => None
          end
      | File _ => None
      end
  end.

(** The disk without the entry at [p] and all below it. *)
Fixpoint delete (p : path) (n : node) : node :=
  match p with
  | [] => n
  | x :: p' =>
      match n with
      | File _ => n
      | Dir entries =>
          match p' with
          | [] => Dir (filter (fun e => negb (same_name (fst e) x)) entries)
          | _ =>
              Dir (map (fun e => if same_name (fst e) x
                                 then (fst e, delete p' (snd e)) else e)
                       entries)
          end
      end
  end.

(** [os.path.exists], [os.path.isdir], [os.path.isfile]; all three are
    [False] on the empty string. *)
Definition os_path_exists (p : path) (d : node) : bool :=
  match p, lookup p d with
  | _ :: _, Some _ => true
  | _, _ => false
  end.

Definition os_path_isdir (p : path) (d : node) : bool :=
  match p, lookup p d with
  | _ :: _, Some (Dir _) => true
  | _, _ => false
  end.

Definition os_path_isfile (p : path) (d : node) : bool :=
  match p, lookup p d with
  | _ :: _, Some (File _) => true
  | _, _ => false
  end.

(** The names in a directory as they are written, in listing order; none
    if [p] is not a directory. *)
Definition names_at (p : path) (d : node) : list string :=
  match lookup p d with
  | Some (Dir entries) => map fst entries
  | _ => []
  end.

Definition height_at (p : path) (d : node) : nat :=
  match lookup p d with
  | Some n => height n
  | None => 0
  end.

(** [p] is [q] or lies below [q]. *)
Fixpoint below (q p : path) : bool :=
  match q, p with
  | [], _ => true
  | x :: q', y :: p' => same_name x y && below q' p'
  | _ :: _, [] => false
  end.

End NT.

(** ** The helper: effects, commands, cleanup and the build pipeline *)

Module Helper.

Import Disk NT.

(** The side effects of the helper, in the order of the calls:
    [log_queue.put], [status_var.set], [subprocess.Popen], [shutil.rmtree],
    [os.remove] and [os.startfile]. *)
Inductive event : Type :=
| Log (message : string)
| StatusSet (value : string)
| Popen (command : string)
| Rmtree (p : path)
| Remove (p : path)
| StartFile (p : path).

(** How a call ends: it returns, or it raises an exception (kept as its
    text).  [OutOfFuel] belongs to the recursion bound of the directory walk
    and never shows in a run of the cleanup (lemma
    [clean_files_and_folders_walked]). *)
Inductive result (A : Type) : Type :=
| Ok (a : A)
| Raise (e : string)
| OutOfFuel.

Arguments Ok {A} a.
Arguments Raise {A} e.
Arguments OutOfFuel {A}.

(** A computation reads and changes the disk and makes calls. *)
Definition M (A : Type) : Type := node -> result A * node * list event.

Definition ret {A : Type} (a : A) : M A := fun d => (Ok a, d, []).

Definition bind {A B : Type} (m : M A) (f : A -> M B) : M B :=
  fun d =>
    match m d with
    | (Ok a, d1, ev1) => let '(r, d2, ev2) := f a d1 in (r, d2, ev1 ++ ev2)
    | (Raise e, d1, ev1) => (Raise e, d1, ev1)
    | (OutOfFuel, d1, ev1) => (OutOfFuel, d1, ev1)
    end.

Notation "x <- m ;; k" := (bind m (fun x => k))
  (at level 61, m at next level, right associativity).
Notation "m ;; k" := (bind m (fun _ => k))
  (at level 61, right associativity).

Definition raise {A : Type} (e : string) : M A := fun d => (Raise e, d, []).

(** [try: body except Exception as e: handler]. *)
Definition try_except {A : Type} (body : M A) (handler : string -> M A)
  : M A :=
  fun d =>
    match body d with
    | (Raise e, d1, ev1) =>
        let '(r, d2, ev2) := handler e d1 in (r, d2, ev1 ++ ev2)
    | other => other
    end.

Definition tell (e : event) : M unit := fun d => (Ok tt, d, [e]).

(** [for x in l: body]. *)
Fixpoint for_each {A : Type} (l : list A) (body : A -> M unit) : M unit :=
  match l with
  | [] => ret tt
  | x :: l' => body x ;; for_each l' body
  end.

Definition when (b : bool) (m : M unit) : M unit := if b then m else ret tt.

(** The result, the disk left and the calls made. *)
Definition outcome {A : Type} (x : result A * node * list event) : result A :=
  fst (fst x).
Definition disk_after {A : Type} (x : result A * node * list event) : node :=
  snd (fst x).
Definition events {A : Type} (x : result A * node * list event)
  : list event := snd x.

(** The value of [status_var] after the calls [evs], from [initial]. *)
Definition status_after (initial : string) (evs : list event) : string :=
  fold_left (fun st e => match e with StatusSet v => v | _ => st end)
            evs initial.

(** The commands handed to [subprocess.Popen], in order. *)
Fixpoint spawned (evs : list event) : list string :=
  match evs with
  | [] => []
  | Popen c :: rest => c :: spawned rest
  | _ :: rest => spawned rest
  end.

(** The messages put on the log queue, in order. *)
Fixpoint logged (evs : list event) : list string :=
  match evs with
  | [] => []
  | Log m :: rest => m :: logged rest
  | _ :: rest => logged rest
  end.

(** The entries [shutil.rmtree] and [os.remove] were called on. *)
Fixpoint deletions (evs : list event) : list path :=
  match evs with
  | [] => []
  | Rmtree p :: rest => p :: deletions rest
  | Remove p :: rest => p :: deletions rest
  | _ :: rest => deletions rest
  end.

(** *** The platform *)

(** What an external command does: the lines [process.stdout.readline]
    returns one after the other, then the exit code; or an exception raised
    by [Popen] or while reading, after some lines. *)
Inductive proc_outcome : Type :=
| Exited (stdout : list string) (returncode : Z)
| Failed (stdout : list string) (error : string).

(** [json.load(f).get("EngineAssociation")] on the text of the file. *)
Inductive json_outcome : Type :=
| JsonError (error : string)
| JsonValue (engine_association : option string).

(** Everything the helper takes from its surroundings. *)
Record platform : Type := {
  (** [os.getcwd()] *)
  getcwd : path;
  (** [os.environ.get("UNREAL_ENGINE_PATH")] *)
  environ_UNREAL_ENGINE_PATH : option path;
  (** The value [InstalledDirectory] under the key [registry_path] of
      [HKEY_LOCAL_MACHINE]; [None] is [FileNotFoundError]. *)
  winreg_InstalledDirectory : string -> option path;
  json_EngineAssociation : string -> json_outcome;
  (** The text of the exception [open] raises on a path that is not a
      file. *)
  open_error : path -> string;
  (** A command run on a disk: what the caller sees and the disk left. *)
  run_process : string -> node -> proc_outcome * node;
  (** The exception [shutil.rmtree] or [os.remove] raises on a path, if it
      does; the entry is then left in place. *)
  rm_error : path -> option string;
  (** The exception [os.listdir] raises on a directory, if it does. *)
  listdir_error : path -> option string;
  (** The exception [os.startfile] raises, if it does. *)
  startfile_error : path -> option string
}.

(** The double quote character, as a string. *)
Definition DQ : string := String (ascii_of_nat 34) EmptyString.

Definition NL : string := LogChannel.NL.

(** [f"{retcode}"]. *)
Definition show_Z (z : Z) : string := NilZero.string_of_int (Z.to_int z).

(** [line.rstrip("\n")], on the characters in reverse. *)
Fixpoint lstrip_nl (l : list ascii) : list ascii :=
  match l with
  | c :: tl => if (c =? ascii_of_nat 10)%char then lstrip_nl tl else l
  | [] => []
  end.

Definition rstrip_nl (line : string) : string :=
  string_of_list_ascii (rev (lstrip_nl (rev (list_ascii_of_string line)))).

(** [iter(process.stdout.readline, "")]: the lines up to the first empty
    one. *)
Fixpoint iter_readline (lines : list string) : list string :=
  match lines with
  | [] => []
  | line :: rest => if (line =? "")%string then [] else line :: iter_readline rest
  end.

(** [l] begins with [p]. *)
Fixpoint starts_with (p l : list ascii) : bool :=
  match p, l with
  | [], _ => true
  | a :: p', b :: l' => (a =? b)%char && starts_with p' l'
  | _ :: _, [] => false
  end.

(** [s.endswith(suffix)], read from the end. *)
Definition endswith (s suffix : string) : bool :=
  starts_with (rev (list_ascii_of_string suffix))
              (rev (list_ascii_of_string s)).

(** [fnmatch(name, "*.uproject")] as [glob] applies it on Windows: the
    name is compared in lower case, and names that begin with a dot are
    hidden from a pattern that does not. *)
Definition is_uproject (name : string) : bool :=
  endswith (normcase name) ".uproject" && negb (prefix "." name).

(** Position of the last ["."], scanning from position [i]. *)
Fixpoint rfind_dot (l : list ascii) (i : nat) (best : option nat)
  : option nat :=
  match l with
  | [] => best
  | c :: tl => rfind_dot tl (S i) (if (c =? ".")%char then Some i else best)
  end.

(** [os.path.splitext(name)[0]] on a file name: the extension starts at the
    last dot, unless only dots come before it. *)
Definition splitext_root (name : string) : string :=
  let l := list_ascii_of_string name in
  match rfind_dot l 0 None with
  | Some dot =>
      if existsb (fun c => negb (c =? ".")%char) (firstn dot l)
      then string_of_list_ascii (firstn dot l)
      else name
  | None => name
  end.

(** [os.path.basename]. *)
Definition basename (p : path) : string := last p "".

(** [if p:] on a path: the empty string is false. *)
Definition nonempty (p : path) : bool :=
  match p with [] => false | _ => true end.

Section WithPlatform.

Variable P : platform.

(** *** Primitive calls *)

Definition log (message : string) : M unit := tell (Log message).

Definition status_var_set (value : string) : M unit := tell (StatusSet value).

Definition exists_ (p : path) : M bool := fun d => (Ok (os_path_exists p d), d, []).
Definition isdir (p : path) : M bool := fun d => (Ok (os_path_isdir p d), d, []).
Definition isfile (p : path) : M bool := fun d => (Ok (os_path_isfile p d), d, []).

Definition shutil_rmtree (p : path) : M unit :=
  fun d =>
    match rm_error P p with
    | Some e => (Raise e, d, [Rmtree p])
    | None => (Ok tt, delete p d, [Rmtree p])
    end.

Definition os_remove (p : path) : M unit :=
  fun d =>
    match rm_error P p with
    | Some e => (Raise e, d, [Remove p])
    | None => (Ok tt, delete p d, [Remove p])
    end.

Definition os_listdir (p : path) : M (list string) :=
  fun d =>
    match listdir_error P p with
    | Some e => (Raise e, d, [])
    | None =>
        match lookup p d with
        | Some (Dir entries) => (Ok (map fst entries), d, [])
        | _ => (Raise "NotADirectoryError", d, [])
        end
    end.

(** [glob.glob("*.uproject")], in the current directory; a directory that
    cannot be listed gives no name. *)
Definition glob_uproject : M (list string) :=
  fun d => (Ok (filter is_uproject (names_at (getcwd P) d)), d, []).

(** [subprocess.Popen(command, ...)] and all that is read from the process
    until it ends. *)
Definition subprocess_Popen (command : string) : M proc_outcome :=
  fun d => let '(o, d') := run_process P command d in (Ok o, d', [Popen command]).

Definition os_startfile (p : path) : M unit :=
  fun d =>
    match startfile_error P p with
    | Some e => (Raise e, d, [StartFile p])
    | None => (Ok tt, d, [StartFile p])
    end.

(** [with open(uproject_path) as f: project_data = json.load(f)] followed by
    [project_data.get("EngineAssociation")]. *)
Definition load_EngineAssociation (uproject_path : path) : M (option string) :=
  fun d =>
    match lookup uproject_path d with
    | Some (File content) =>
        match json_EngineAssociation P content with
        | JsonValue v => (Ok v, d, [])
        | JsonError e => (Raise e, d, [])
        end
    | _ => (Raise (open_error P uproject_path), d, [])
    end.

(** *** Running commands *)

Definition run_command_stream (command start_message finish_message : string)
  : M unit :=
  status_var_set start_message ;;
  log start_message ;;
  try_except
    (process <- subprocess_Popen command ;;
     match process with
     | Exited stdout retcode =>
         for_each (iter_readline stdout) (fun line => log (rstrip_nl line)) ;;
         if (retcode =? 0)%Z then
           status_var_set "Done" ;;
           log finish_message
         else
           status_var_set "Error" ;;
           log ("Error: command returned exit code " +++ show_Z retcode)
     | Failed stdout e =>
         for_each (iter_readline stdout) (fun line => log (rstrip_nl line)) ;;
         raise e
     end)
    (fun e =>
       log ("Error: " +++ e) ;;
       status_var_set "Error").

(** *** Engine lookup *)

Definition find_unreal_engine_path_from_registry (version : string)
  : M (option path) :=
  let registry_path := "SOFTWARE\EpicGames\Unreal Engine\" +++ version in
  match winreg_InstalledDirectory P registry_path with
  | Some installed_directory =>
      on_disk <- exists_ installed_directory ;;
      if nonempty installed_directory && on_disk then
        ret (Some installed_directory)
      else
        log ("Unreal Engine " +++ version +++ " found, but directory '"
             +++ show_path installed_directory +++ "' does not exist.") ;;
        ret None
  | None =>
      log ("Unreal Engine " +++ version
           +++ " not found in Windows registry.") ;;
      ret None
  end.

(** [rf"C:\Program Files\Epic Games\UE_{engine_version}"]. *)
Definition default_engine_path (engine_version : string) : path :=
  ["C:"; "Program Files"; "Epic Games"; "UE_" +++ engine_version].

(** The lines of [run_build_process] and [run_UAT_build_process], the same in
    both, that set [unreal_engine_path]. *)
Definition resolve_engine_path (engine_version : string) : M path :=
  match environ_UNREAL_ENGINE_PATH P with
  | Some ((_ :: _) as unreal_engine_path) =>
      log ("Path defined by environment variable: "
           +++ show_path unreal_engine_path) ;;
      ret unreal_engine_path
  | _ =>
      found <- find_unreal_engine_path_from_registry engine_version ;;
      match found with
      | Some ((_ :: _) as unreal_engine_path) =>
          log ("Path obtained from registry: "
               +++ show_path unreal_engine_path) ;;
          ret unreal_engine_path
      | _ =>
          let unreal_engine_path := default_engine_path engine_version in
          log ("Using default path: " +++ show_path unreal_engine_path) ;;
          ret unreal_engine_path
      end
  end.

(** *** Cleanup *)

(** One folder of a cleanup loop: [if os.path.isdir(folder_path): try: ...]. *)
Definition remove_folder (folder_path : path) : M unit :=
  is_dir <- isdir folder_path ;;
  when is_dir
    (try_except
       (shutil_rmtree folder_path ;;
        log ("Removed folder: " +++ show_path folder_path))
       (fun e =>
          log ("Error removing folder " +++ show_path folder_path
               +++ ": " +++ e))).

(** One file of a cleanup loop: [if os.path.isfile(file_path): try: ...]. *)
Definition remove_file (file_path : path) : M unit :=
  is_file <- isfile file_path ;;
  when is_file
    (try_except
       (os_remove file_path ;;
        log ("Removed file: " +++ show_path file_path))
       (fun e =>
          log ("Error removing file " +++ show_path file_path
               +++ ": " +++ e))).

(** [remove_items_recursively] with a bound [fuel] on the depth of the
    calls. *)
Fixpoint remove_items_rec (fuel : nat) (directory : path)
    (folders_to_delete files_to_delete : list string) : M unit :=
  match fuel with
  | 0 => fun d => (OutOfFuel, d, [])
  | S fuel' =>
      for_each folders_to_delete
        (fun folder => remove_folder (os_path_join directory folder)) ;;
      for_each files_to_delete
        (fun file => remove_file (os_path_join directory file)) ;;
      entries <- os_listdir directory ;;
      for_each entries
        (fun entry =>
           let entry_path := os_path_join directory entry in
           is_dir <- isdir entry_path ;;
           when is_dir
             (remove_items_rec fuel' entry_path
                folders_to_delete files_to_delete))
  end.

(** [remove_items_recursively]: the calls go one level down at a time, so
    the number of levels below [directory] bounds their depth. *)
Definition remove_items_recursively (directory : path)
    (folders_to_delete files_to_delete : list string) : M unit :=
  fun d =>
    remove_items_rec (S (height_at directory d)) directory
      folders_to_delete files_to_delete d.

Definition plugin_folders_to_delete : list string :=
  [".vs"; "Binaries"; "DerivedDataCache"; "Intermediate"; "Saved"].

Definition clean_plugins_folder (script_directory : path)
    (project_name : string) : M unit :=
  let plugins_directory := os_path_join script_directory "Plugins" in
  is_dir <- isdir plugins_directory ;;
  if negb is_dir then
    log ("Plugins folder not found in " +++ show_path script_directory
         +++ ".")
  else
    log "Cleaning plugin folders and files..." ;;
    let folders_to_delete := plugin_folders_to_delete in
    let files_to_delete := [project_name +++ ".sln"; ".vsconfig"] in
    remove_items_recursively plugins_directory folders_to_delete
      files_to_delete.

Definition root_folders_to_delete : list string :=
  [".vs"; ".idea"; "Binaries"; "DerivedDataCache"; "Intermediate"; "Saved"].

Definition clean_files_and_folders (script_directory : path)
    (project_name : string) : M unit :=
  log "Cleaning project root folders..." ;;
  let folders_to_delete :=
    map (os_path_join script_directory) root_folders_to_delete in
  for_each folders_to_delete remove_folder ;;
  log "Cleaning project root files..." ;;
  uproject_list <- glob_uproject ;;
  match uproject_list with
  | project_file :: _ =>
      let project_name_local := splitext_root project_file in
      let files_to_delete :=
        [os_path_join script_directory (project_name_local +++ ".sln");
         os_path_join script_directory ".vsconfig"] in
      for_each files_to_delete remove_file
  | [] => ret tt
  end ;;
  clean_plugins_folder script_directory project_name ;;
  log "Cleanup completed successfully!".

(** *** The build pipeline *)

Definition build_tool_dll_of (unreal_engine_path : path) : path :=
  unreal_engine_path
    ++ ["Engine"; "Binaries"; "DotNET"; "UnrealBuildTool";
        "UnrealBuildTool.dll"].

Definition build_script_path_of (unreal_engine_path : path) : path :=
  unreal_engine_path ++ ["Engine"; "Build"; "BatchFiles"; "Build.bat"].

Definition compile_command_of (build_tool_dll uproject_path : path)
    (target_name : string) : string :=
  "dotnet " +++ DQ +++ show_path build_tool_dll +++ DQ +++ " "
  +++ target_name +++ " Win64 Development "
  +++ "-Project=" +++ DQ +++ show_path uproject_path +++ DQ
  +++ " -WaitMutex -FromMsBuild -Rebuild".

Definition build_command_of (build_script_path uproject_path : path)
  : string :=
  DQ +++ show_path build_script_path +++ DQ
  +++ " -projectfiles -project=" +++ DQ +++ show_path uproject_path +++ DQ
  +++ " -game -rocket".

(** [if open_sln: ...] and [if open_uproject: ...]. *)
Definition open_afterwards (open_sln open_uproject : bool)
    (script_directory uproject_path : path) (project_name : string)
  : M unit :=
  when open_sln
    (let sln_path := os_path_join script_directory (project_name +++ ".sln") in
     is_file <- isfile sln_path ;;
     if is_file then
       log "Opening SLN file..." ;;
       os_startfile sln_path
     else log "SLN file not found to open.") ;;
  when open_uproject
    (is_file <- isfile uproject_path ;;
     if is_file then
       log "Opening .uproject file..." ;;
       os_startfile uproject_path
     else log ".uproject file not found to open.").

(** The pipeline from the build-tool check on. *)
Definition build_with_engine (open_sln open_uproject : bool)
    (script_directory uproject_path unreal_engine_path : path)
    (project_name target_name : string) : M unit :=
  let build_tool_dll := build_tool_dll_of unreal_engine_path in
  tool_found <- exists_ build_tool_dll ;;
  if negb tool_found then
    log ("File '" +++ show_path build_tool_dll +++ "' not found.")
  else
    let compile_command :=
      compile_command_of build_tool_dll uproject_path target_name in
    log (NL +++ "=== Cleaning project files for rebuild ===") ;;
    clean_files_and_folders script_directory project_name ;;
    let build_script_path := build_script_path_of unreal_engine_path in
    script_found <- exists_ build_script_path ;;
    if negb script_found then
      log ("Build.bat file not found at: " +++ show_path build_script_path)
    else
      let build_command := build_command_of build_script_path uproject_path in
      log (NL +++ "=== Recreating SLN file (calling Build.bat) ===") ;;
      log ("Executing: " +++ build_command) ;;
      run_command_stream build_command "Recreating SLN"
        "SLN file recreated successfully" ;;
      log (NL +++ "=== Compiling the project ===") ;;
      log ("Executing: " +++ compile_command) ;;
      run_command_stream compile_command "Compiling project"
        "Project compiled successfully" ;;
      log (NL +++ "Project files compiled successfully.") ;;
      open_afterwards open_sln open_uproject script_directory uproject_path
        project_name.

Definition run_build_process (open_sln open_uproject : bool) : M unit :=
  try_except
    (let script_directory := getcwd P in
     uproject_files <- glob_uproject ;;
     match uproject_files with
     | [] => log "No .uproject file found in the current directory."
     | first :: others =>
         when (1 <? length uproject_files)%nat
           (log "More than one .uproject file found. Selecting the first one.") ;;
         let uproject_path := os_path_join (getcwd P) first in
         log (".uproject file found: " +++ show_path uproject_path) ;;
         engine_version <- load_EngineAssociation uproject_path ;;
         match engine_version with
         | None | Some "" =>
             log "'EngineAssociation' key not found in the .uproject file."
         | Some engine_version =>
             log ("Unreal Engine version set in project: " +++ engine_version) ;;
             let project_name := splitext_root (basename uproject_path) in
             let target_name := project_name +++ "Editor" in
             log ("Target to compile: " +++ target_name) ;;
             unreal_engine_path <- resolve_engine_path engine_version ;;
             build_with_engine open_sln open_uproject script_directory
               uproject_path unreal_engine_path project_name target_name
         end
     end)
    (fun e => log ("Error: " +++ e)).

(** [MobileStyleApp.start_compile_thread] with the thread it starts,
    [run_compile], run to its end; the state of the button is left out. *)
Definition run_compile (open_sln open_uproject : bool) : M unit :=
  run_build_process open_sln open_uproject.

Definition start_compile_thread (open_sln open_uproject : bool) : M unit :=
  status_var_set "Compiling Editor..." ;;
  run_compile open_sln open_uproject.

End WithPlatform.

End Helper.

(** ** The packaging pipeline and the widgets *)

Module Packager.

Import Disk NT Helper.

(** The characters [str.strip()] removes, among those of ASCII. *)
Definition is_space (c : ascii) : bool :=
  let n := nat_of_ascii c in
  ((9 <=? n) && (n <=? 13) || (28 <=? n) && (n <=? 32))%nat.

Fixpoint lstrip_chars (l : list ascii) : list ascii :=
  match l with
  | c :: tl => if is_space c then lstrip_chars tl else l
  | [] => []
  end.

(** [s.strip()]. *)
Definition strip (s : string) : string :=
  string_of_list_ascii
    (rev (lstrip_chars (rev (lstrip_chars (list_ascii_of_string s))))).

(** The calls [real_text_widget.tag_config(tag, foreground=colour)] of
    [configure_ansi_tags], in order. *)
Definition configure_ansi_tags : list (string * string) :=
  [ ("ansi_black", "#aaaaaa");
    ("ansi_red", "#ff5555");
    ("ansi_green", "#55ff55");
    ("ansi_yellow", "#ffff55");
    ("ansi_blue", "#5599ff");
    ("ansi_magenta", "#ff55ff");
    ("ansi_cyan", "#55ffff");
    ("ansi_white", "#ffffff") ].

Section WithPlatform.

Variable P : platform.

Definition runUAT_path_of (unreal_engine_path : path) : path :=
  unreal_engine_path ++ ["Engine"; "Build"; "BatchFiles"; "RunUAT.bat"].

Definition unrealexe_of (unreal_engine_path : path) : path :=
  unreal_engine_path ++ ["Engine"; "Binaries"; "Win64"; "UnrealEditor-Cmd.exe"].

Definition uat_command_of (runUAT_path uproject_path unreal_engine_path : path)
    (target build_path build_config : string) : string :=
  DQ +++ show_path runUAT_path +++ DQ +++ " "
  +++ "-ScriptsForProject=" +++ DQ +++ show_path uproject_path +++ DQ +++ " "
  +++ "Turnkey "
  +++ "-command=VerifySdk "
  +++ "-platform=Win64 "
  +++ "-UpdateIfNeeded "
  +++ "-EditorIO "
  +++ "-EditorIOPort=52904 "
  +++ "-project=" +++ DQ +++ show_path uproject_path +++ DQ +++ " "
  +++ "BuildCookRun "
  +++ "-nop4 "
  +++ "-utf8output "
  +++ "-nocompileeditor "
  +++ "-skipbuildeditor "
  +++ "-cook "
  +++ "-project=" +++ DQ +++ show_path uproject_path +++ DQ +++ " "
  +++ "-target=" +++ target +++ " "
  +++ "-unrealexe=" +++ DQ +++ show_path (unrealexe_of unreal_engine_path)
  +++ DQ +++ " "
  +++ "-platform=Win64 "
  +++ "-installed "
  +++ "-stage "
  +++ "-archive "
  +++ "-package "
  +++ "-build "
  +++ "-pak "
  +++ "-compressed "
  +++ "-prereqs "
  +++ "-archivedirectory=" +++ DQ +++ build_path +++ DQ +++ " "
  +++ "-clientconfig=" +++ build_config +++ " "
  +++ "-nocompile "
  +++ "-nocompileuat".

(** The pipeline from the check of [RunUAT.bat] on. *)
Definition package_with_engine (uproject_path unreal_engine_path : path)
    (target build_path build_config : string) : M unit :=
  let runUAT_path := runUAT_path_of unreal_engine_path in
  script_found <- exists_ runUAT_path ;;
  if negb script_found then
    log ("RunUAT.bat file not found at: " +++ show_path runUAT_path)
  else
    let command :=
      uat_command_of runUAT_path uproject_path unreal_engine_path target
        build_path build_config in
    log "Executing UAT command:" ;;
    log command ;;
    run_command_stream P command "Starting Build UAT..."
      "UAT Build completed successfully!".

Definition run_UAT_build_process (build_path build_config : string)
  : M unit :=
  try_except
    (uproject_files <- glob_uproject P ;;
     match uproject_files with
     | [] => log "No .uproject file found in the current directory."
     | first :: others =>
         when (1 <? length uproject_files)%nat
           (log "More than one .uproject file found. Selecting the first one.") ;;
         let uproject_path := os_path_join (getcwd P) first in
         log (".uproject file found: " +++ show_path uproject_path) ;;
         engine_version <- load_EngineAssociation P uproject_path ;;
         match engine_version with
         | None | Some "" =>
             log "'EngineAssociation' key not found in the .uproject file."
         | Some engine_version =>
             log ("Unreal Engine version set in project: " +++ engine_version) ;;
             let project_name := splitext_root (basename uproject_path) in
             let target := project_name in
             log ("Target to be built: " +++ target) ;;
             unreal_engine_path <- resolve_engine_path P engine_version ;;
             package_with_engine uproject_path unreal_engine_path target
               build_path build_config
         end
     end)
    (fun e =>
       log ("Error in Build UAT: " +++ e) ;;
       status_var_set "Error in Build UAT").

(** [MobileStyleApp.start_package_thread] with the thread it starts,
    [run_package], run to its end; [entry] is the text of the path entry and
    [build_cfg] the value of the radio buttons; the state of the button is
    left out. *)
Definition run_package (build_path build_cfg : string) : M unit :=
  run_UAT_build_process build_path build_cfg.

Definition build_path_of_entry (entry : string) : string :=
  let stripped := strip entry in
  if (stripped =? "")%string
  then show_path (os_path_join (getcwd P) "BuildOutput")
  else stripped.

Definition start_package_thread (entry build_cfg : string) : M unit :=
  status_var_set "Starting Build UAT..." ;;
  let build_path := build_path_of_entry entry in
  run_package build_path build_cfg.

End WithPlatform.

End Packager.

(** ** The folder scaffolding script *)

(** [setup_unreal_folders.py]: a script without functions that makes the
    folders of a project under [Content] and writes a [Guide.txt] into each.
    Failures of the platform other than those the shape of the disk decides
    (a file where a folder is needed, a folder where a file is written) are
    left out, and so is the reconfiguration of the output stream at the top
    of the script; an exception is kept as [OSError], the class of all the
    exceptions these calls raise. *)
Module Scaffold.

Import Disk.

(** The lines the script prints, named by their text; each stands for the
    line with its pictogram and the path as the platform joins it. *)
Inductive line : Type :=
| Created (full_path : path)
| AlreadyExists (full_path : path)
| GuideCreated (guide_path : path)
| Finished.

(** How the script ends: it runs to its end, or an exception leaves it
    (there is no [try] in the script). *)
Inductive result (A : Type) : Type :=
| Ok (a : A)
| Raise (e : string).

Arguments Ok {A} a.
Arguments Raise {A} e.

Definition M (A : Type) : Type := node -> result A * node * list line.

Definition ret {A : Type} (a : A) : M A := fun d => (Ok a, d, []).

Definition bind {A B : Type} (m : M A) (f : A -> M B) : M B :=
  fun d =>
    match m d with
    | (Ok a, d1, out1) => let '(r, d2, out2) := f a d1 in (r, d2, out1 ++ out2)
    | (Raise e, d1, out1) => (Raise e, d1, out1)
    end.

Notation "x <- m ;; k" := (bind m (fun x => k))
  (at level 61, m at next level, right associativity).
Notation "m ;; k" := (bind m (fun _ => k))
  (at level 61, right associativity).

Fixpoint for_each {A : Type} (l : list A) (body : A -> M unit) : M unit :=
  match l with
  | [] => ret tt
  | x :: l' => body x ;; for_each l' body
  end.

Definition outcome {A : Type} (x : result A * node * list line) : result A :=
  fst (fst x).
Definition disk_after {A : Type} (x : result A * node * list line) : node :=
  snd (fst x).
Definition printed {A : Type} (x : result A * node * list line)
  : list line := snd x.

(** *** The disk, written to *)

(** The entries with the first one named [x] replaced. *)
Fixpoint update (x : string) (c' : node) (entries : list (string * node))
  : list (string * node) :=
  match entries with
  | [] => []
  | (n, c) :: rest =>
      if (n =? x)%string then (n, c') :: rest else (n, c) :: update x c' rest
  end.

(** New nested folders [p], empty at the end. *)
Fixpoint fresh_dirs (p : path) : node :=
  match p with
  | [] => Dir []
  | x :: p' => Dir [(x, fresh_dirs p')]
  end.

(** [os.makedirs(p)]: the folder and the folders missing on the way to it
    are made; [None] when the folder exists already or a file is in the
    way. *)
Fixpoint makedirs_node (p : path) (n : node) : option node :=
  match p with
  | [] => None
  | x :: p' =>
      match n with
      | File _ => None
      | Dir entries =>
          match assoc x entries with
          | Some c =>
              match makedirs_node p' c with
              | Some c' => Some (Dir (update x c' entries))
              | None => None
              end
          | None => Some (Dir (entries ++ [(x, fresh_dirs p')]))
          end
      end
  end.

(** [open(p, "w")] and [write(text)]: the file is made in a folder that
    exists, or its text replaced; [None] when [p] is a folder or its parent
    is none. *)
Fixpoint write_node (p : path) (text : string) (n : node) : option node :=
  match p with
  | [] =>
      match n with
      | File _ => Some (File text)
      | Dir _ => None
      end
  | x :: p' =>
      match n with
      | File _ => None
      | Dir entries =>
          match assoc x entries with
          | Some c =>
              match write_node p' text c with
              | Some c' => Some (Dir (update x c' entries))
              | None => None
              end
          | None =>
              match p' with
              | [] => Some (Dir (entries ++ [(x, File text)]))
              | _ :: _ => None
              end
          end
      end
  end.

(** *** Calls *)

Definition print (l : line) : M unit := fun d => (Ok tt, d, [l]).

Definition exists_ (p : path) : M bool :=
  fun d => (Ok (os_path_exists p d), d, []).

Definition os_makedirs (p : path) : M unit :=
  fun d =>
    match makedirs_node p d with
    | Some d' => (Ok tt, d', [])
    | None => (Raise "OSError", d, [])
    end.

(** [with open(p, "w", encoding="utf-8") as f: f.write(text)]. *)
Definition write_text (p : path) (text : string) : M unit :=
  fun d =>
    match write_node p text d with
    | Some d' => (Ok tt, d', [])
    | None => (Raise "OSError", d, [])
    end.

(** *** Paths *)

(** The parts of a relative path written with [/]. *)
Fixpoint split_slash (l : list ascii) : list (list ascii) :=
  match l with
  | [] => [[]]
  | c :: tl =>
      if (c =? "/")%char then [] :: split_slash tl
      else match split_slash tl with
           | h :: t => (c :: h) :: t
           | [] => [[c]]
           end
  end.

Definition components (relative : string) : path :=
  map string_of_list_ascii (split_slash (list_ascii_of_string relative)).

(** [os.path.join(a, relative)] for a relative path written with [/]. *)
Definition join (a : path) (relative : string) : path :=
  a ++ components relative.

Definition NL : string := String (ascii_of_nat 10) EmptyString.

(** *** The script *)

Definition descriptions : list (string * (string * string)) := [
  ("Art/Materials",
   ("This folder contains all materials used in the game, including shaders and material instances.",
    "Esta pasta contém todos os materiais utilizados no jogo, incluindo shaders e instâncias de materiais."));
  ("Art/Textures",
   ("This folder contains all game textures. Organize them by resolution and type for easy access.",
    "Aqui ficam todas as texturas do jogo. Organize por resolução e tipo para facilitar o acesso."));
  ("Art/Meshes",
   ("This folder contains all 3D models (static and dynamic) used in the game.",
    "Esta pasta contém todos os modelos 3D (estáticos e dinâmicos) usados no jogo."));
  ("Art/Animations",
   ("Store all character animations, rigs, and montages here.",
    "Guarde todas as animações de personagens, rigs e montagens nesta pasta."));
  ("Art/VFX",
   ("Visual effects such as sprites, shaders, and particle effects are stored here.",
    "Efeitos visuais, como sprites, shaders e efeitos de partículas, são armazenados aqui."));
  ("Audio/Music",
   ("Background music and soundtracks are stored in this folder.",
    "Trilhas sonoras e músicas de fundo do jogo são armazenadas nesta pasta."));
  ("Audio/SFX",
   ("This folder contains sound effects like footsteps, gunshots, and ambient sounds.",
    "Aqui ficam os efeitos sonoros, como passos, tiros e sons ambientes."));
  ("Audio/Voice",
   ("All voiceover and dialogue files should be stored here.",
    "Todos os arquivos de dublagem e diálogos devem ser mantidos aqui."));
  ("Blueprints/Core",
   ("Contains essential Blueprints for the game's core functionality.",
    "Contém os Blueprints essenciais para a base do jogo."));
  ("Blueprints/Gameplay",
   ("Store Blueprints related to game mechanics here.",
    "Guarde aqui os Blueprints específicos para mecânicas de jogo."));
  ("Blueprints/UI",
   ("Blueprints responsible for the user interface.",
    "Blueprints responsáveis pela interface do usuário."));
  ("Config",
   ("Stores game configuration files, such as DefaultGame.ini and Engine.ini.",
    "Armazena arquivos de configuração do jogo, como DefaultGame.ini e Engine.ini."));
  ("Maps/Main",
   ("This is the game's main map.",
    "Este é o mapa principal do jogo."));
  ("Maps/Levels",
   ("This folder contains secondary maps and additional game levels.",
    "Mapas secundários e fases adicionais do jogo são armazenados aqui."));
  ("Maps/Test",
   ("Maps used for testing and debugging.",
    "Mapas usados para testes e depuração do jogo."));
  ("UI/Widgets",
   ("All UMG Widgets used for menus and HUD are stored here.",
    "Todos os Widgets UMG usados para menus e HUD ficam aqui."));
  ("UI/Icons",
   ("Icons used in the game interface should be organized here.",
    "Ícones usados na interface do jogo devem ser organizados aqui."));
  ("Data/DataTables",
   ("This folder contains Data Tables used to store structured game data.",
    "Esta pasta contém Data Tables usadas para armazenar dados estruturados do jogo."));
  ("Data/Enums",
   ("This folder contains all Enums used in the game.",
    "Aqui ficam os arquivos Enum utilizados no jogo."));
  ("Data/Structures",
   ("UE Structs used to store complex data are kept here.",
    "Structs do Unreal usadas para armazenar dados complexos são mantidas aqui."));
  ("Code/Core",
   ("Core C++ files essential to the game engine.",
    "Arquivos C++ essenciais para o núcleo do jogo."));
  ("Code/Gameplay",
   ("C++ scripts related to gameplay mechanics.",
    "Scripts de C++ relacionados à jogabilidade do jogo."));
  ("Code/AI",
   ("AI logic written in C++.",
    "Lógica de Inteligência Artificial escrita em C++."));
  ("Code/UI",
   ("C++ code responsible for UI interactions.",
    "Código C++ responsável pela interface gráfica."));
  ("Cinematics",
   ("Stores all cutscenes and cinematics sequences.",
    "Armazena todas as sequências cinematográficas e cutscenes."));
  ("FX/Niagara",
   ("Particle effects created with the Niagara system.",
    "Efeitos de partículas criados com o sistema Niagara."));
  ("FX/Particles",
   ("Standard Unreal Engine particles.",
    "Partículas convencionais do Unreal Engine."));
  ("Shaders",
   ("All custom shaders for the game are stored here.",
    "Todos os shaders personalizados para o jogo são mantidos aqui."));
  ("ThirdParty",
   ("Plugins and third-party libraries should be stored here.",
    "Plugins e bibliotecas de terceiros devem ser armazenados aqui."));
  ("Inputs/InputActions",
   ("This folder contains Input Action assets used to define player input mappings in Unreal Engine. It is essential for handling keybindings, gamepad controls, and other input interactions.",
    "Esta pasta contém os ativos de Input Action usados para definir os mapeamentos de entrada do jogador no Unreal Engine. É essencial para gerenciar teclas de atalho, controles de gamepad e outras interações de entrada."));
  ("Documents",
   ("Project documentation, diagrams, and important notes.",
    "Documentação do projeto, diagramas e anotações importantes."))
].

Section WithCwd.

(** [os.getcwd()]. *)
Variable cwd : path.

Definition core_base_path : path := join cwd "Content/_Core".
Definition splash_path : path := join cwd "Content/Splash".

(** The body of [for folder, description in descriptions.items()]. *)
Definition guide_for (item : string * (string * string)) : M unit :=
  let '(folder, description) := item in
  let full_path := join core_base_path folder in
  let guide_path := join full_path "Guide.txt" in
  (found <- exists_ full_path ;;
   if negb found then
     os_makedirs full_path ;;
     print (Created full_path)
   else print (AlreadyExists full_path)) ;;
  write_text guide_path (fst description +++ NL +++ snd description) ;;
  print (GuideCreated guide_path).

Definition splash_text : string :=
  "This folder contains the game's Splash Screen assets." +++ NL
  +++ "Esta pasta contém as telas de Splash Screen do jogo.".

Definition script : M unit :=
  for_each descriptions guide_for ;;
  (found <- exists_ splash_path ;;
   if negb found then
     os_makedirs splash_path ;;
     print (Created splash_path)
   else print (AlreadyExists splash_path)) ;;
  let splash_guide_path := join splash_path "Guide.txt" in
  write_text splash_guide_path splash_text ;;
  print (GuideCreated splash_guide_path) ;;
  print Finished.

End WithCwd.

End Scaffold.

(** * Theorems *)

(** ** Slices *)

Lemma slice_same {A : Type} (l : list A) (i : nat) : slice l i i = [].
Proof. unfold slice. now rewrite Nat.sub_diag. Qed.

Lemma slice_to_end {A : Type} (l : list A) (i : nat) :
  slice l i (length l) = skipn i l.
Proof.
  unfold slice. rewrite <- (length_skipn i l). apply firstn_all.
Qed.

Lemma slice_snoc {A : Type} (pre : list A) (c : A) (tl : list A) (i : nat) :
  i <= length pre ->
  slice (pre ++ c :: tl) i (S (length pre)) =
  slice (pre ++ c :: tl) i (length pre) ++ [c].
Proof.
  intros Hi. unfold slice.
  rewrite skipn_app.
  replace (i - length pre) with 0 by lia. simpl skipn at 2.
  assert (Hl : length (skipn i pre) = length pre - i) by apply length_skipn.
  rewrite !firstn_app, Hl.
  replace (length pre - i - (length pre - i)) with 0 by lia.
  replace (S (length pre) - i - (length pre - i)) with 1 by lia.
  simpl. rewrite app_nil_r.
  rewrite (firstn_all2 (n := S (length pre) - i)) by lia.
  rewrite (firstn_all2 (n := length pre - i)) by lia.
  reflexivity.
Qed.

Lemma slice_nil_iff {A : Type} (l : list A) (i j : nat) :
  j <= length l -> (slice l i j = [] <-> j <= i).
Proof.
  intros Hj. unfold slice. split.
  - intros H. apply (f_equal (@length A)) in H.
    rewrite length_firstn, length_skipn in H. simpl in H. lia.
  - intros H. replace (j - i) with 0 by lia. reflexivity.
Qed.

(** ** The ANSI parser *)

Module AnsiFacts.

Import Ansi.

(** *** The pattern *)

Lemma params_len_le (l : list ascii) : params_len l <= length l.
Proof.
  induction l as [|c tl IH]; simpl; [lia|].
  destruct (is_param c); lia.
Qed.


Lemma params_len_app (ps rest : list ascii) (c : ascii) :
  forallb is_param ps = true -> is_param c = false ->
  params_len (ps ++ c :: rest) = length ps.
Proof.
  induction ps as [|p ps IH]; simpl; intros Hps Hc.
  - now rewrite Hc.
  - apply andb_true_iff in Hps as [Hp Hps]. rewrite Hp.
    now rewrite IH.
Qed.

Lemma match_here_bounds (l : list ascii) (n : nat) :
  match_here l = Some n -> 3 <= n <= length l.
Proof.
  destruct l as [|e [|b tl]]; simpl; try discriminate.
  destruct ((e =? ESC)%char && (b =? "[")%char); try discriminate.
  destruct (nth_error tl (params_len tl)) as [m|] eqn:E; try discriminate.
  destruct (m =? "m")%char; try discriminate.
  intros H. injection H as <-.
  assert (params_len tl < length tl).
  { apply nth_error_Some. congruence. }
  lia.
Qed.


(** Every escape sequence at the head of a text is found, whole. *)
Lemma match_here_complete (e rest : list ascii) :
  is_escape e -> match_here (e ++ rest) = Some (length e).
Proof.
  intros (ps & Hps & ->). cbn [app match_here].
  rewrite !Ascii.eqb_refl. cbn [andb].
  rewrite <- app_assoc. cbn [app].
  rewrite (params_len_app ps rest "m") by (assumption || reflexivity).
  rewrite nth_error_app2, Nat.sub_diag by lia. cbn.
  rewrite length_app. cbn. f_equal. lia.
Qed.

(** *** The scan *)

Lemma finditer_from_skip (l : list ascii) :
  forall pos k,
    finditer_from pos k l = finditer_from (pos + k) 0 (skipn k l).
Proof.
  induction l as [|c tl IH]; intros pos k.
  - destruct k; reflexivity.
  - destruct k as [|k].
    + now rewrite Nat.add_0_r.
    + cbn [finditer_from skipn]. rewrite IH. f_equal. lia.
Qed.

(** [finditer] restarts right after each match. *)
Lemma finditer_from_match (l : list ascii) (pos n : nat) :
  match_here l = Some n ->
  finditer_from pos 0 l =
    mk_match pos (pos + n) (firstn n l)
      :: finditer_from (pos + n) 0 (skipn n l).
Proof.
  intros H. pose proof (match_here_bounds _ _ H) as Hn.
  destruct l as [|c tl]; [discriminate|].
  cbn [finditer_from]. rewrite H. f_equal.
  rewrite finditer_from_skip.
  destruct n as [|n]; [lia|]. cbn [skipn].
  replace (S n - 1) with n by lia. f_equal. lia.
Qed.

(** *** The loop against the description *)

Definition finish (text : list ascii) (st : loop_state) : list segment :=
  let '(segments, current_color, last_pos) := st in
  if (last_pos <? length text)%nat
  then segments ++ [(skipn last_pos text, current_color)]
  else segments.

Lemma parse_ansi_chars_finish (text : list ascii) :
  parse_ansi_chars text =
  finish text (fold_left (loop_body text) (finditer text) ([], None, 0)).
Proof. reflexivity. Qed.

Lemma emit_slice (text : list ascii) (last_pos pos : nat)
    (segs : list segment) (col : option string) :
  pos <= length text ->
  (if (last_pos <? pos)%nat
   then segs ++ [(slice text last_pos pos, col)] else segs)
  = segs ++ emit (slice text last_pos pos) col.
Proof.
  intros Hpos.
  destruct (last_pos <? pos)%nat eqn:E.
  - apply Nat.ltb_lt in E.
    destruct (slice text last_pos pos) eqn:Es; [|reflexivity].
    apply slice_nil_iff in Es; [lia|assumption].
  - apply Nat.ltb_ge in E.
    assert (Es : slice text last_pos pos = []) by (apply slice_nil_iff; assumption).
    rewrite Es. simpl. now rewrite app_nil_r.
Qed.

Lemma loop_spec (l : list ascii) :
  forall pre skip segs col last_pos pending,
    skip <= length l ->
    (skip = 0 /\ last_pos <= length pre
       /\ pending = slice (pre ++ l) last_pos (length pre))
    \/ (0 < skip /\ last_pos = length pre + skip /\ pending = []) ->
    finish (pre ++ l)
      (fold_left (loop_body (pre ++ l)) (finditer_from (length pre) skip l)
         (segs, col, last_pos))
    = segs ++ spec_segments skip pending col l.
Proof.
  induction l as [|c tl IH]; intros pre skip segs col last_pos pending Hskip Hinv.
  - simpl in Hskip. assert (skip = 0) by lia. subst skip.
    destruct Hinv as [(_ & Hlp & Hp)|(Hs & _)]; [|lia].
    cbn [finditer_from fold_left finish spec_segments].
    rewrite app_nil_r in *. subst pending.
    rewrite slice_to_end.
    destruct (last_pos <? length pre)%nat eqn:E.
    + apply Nat.ltb_lt in E.
      destruct (skipn last_pos pre) eqn:Es; [|reflexivity].
      apply (f_equal (@length ascii)) in Es. rewrite length_skipn in Es.
      simpl in Es. lia.
    + apply Nat.ltb_ge in E. rewrite skipn_all2 by assumption.
      simpl. now rewrite app_nil_r.
  - assert (Etext : pre ++ c :: tl = (pre ++ [c]) ++ tl)
      by (rewrite <- app_assoc; reflexivity).
    assert (Elen : length (pre ++ [c]) = S (length pre))
      by (rewrite length_app; simpl; lia).
    destruct skip as [|k].
    + destruct Hinv as [(_ & Hlp & Hp)|(Hs & _)]; [|lia].
      cbn [finditer_from spec_segments].
      destruct (match_here (c :: tl)) as [n|] eqn:Hm.
      * pose proof (match_here_bounds _ _ Hm) as Hn.
        cbn [fold_left loop_body m_start m_end m_group].
        rewrite emit_slice by (rewrite length_app; lia).
        rewrite <- Hp. rewrite Etext, <- Elen.
        rewrite IH with (pending := []).
        -- now rewrite <- app_assoc.
        -- simpl in Hn. lia.
        -- right. repeat split; lia.
      * cbn [fold_left]. rewrite Etext, <- Elen.
        apply IH; [lia|]. left. repeat split; [lia|].
        rewrite <- Etext, Elen, Hp. now rewrite slice_snoc.
    + destruct Hinv as [(Hs & _)|(_ & Hlp & Hp)]; [discriminate|].
      cbn [finditer_from spec_segments]. rewrite Etext, <- Elen.
      apply IH; [simpl in Hskip; lia|].
      destruct k as [|k].
      * left. repeat split; [lia|]. subst pending.
        replace last_pos with (length (pre ++ [c])) by lia.
        now rewrite slice_same.
      * right. repeat split; [lia|lia|assumption].
Qed.

(** [parse_ansi] computes the segments of the description. *)
Lemma parse_ansi_chars_spec (text : list ascii) :
  parse_ansi_chars text = spec_segments 0 [] None text.
Proof.
  rewrite parse_ansi_chars_finish. unfold finditer.
  apply (loop_spec text [] 0 [] None 0 []); [lia|].
  left. repeat split. simpl; lia.
Qed.

(** *** Properties of the segments *)

Lemma concat_emit (pending : list ascii) (col : option string) :
  concat (map fst (emit pending col)) = pending.
Proof. destruct pending; simpl; [reflexivity|now rewrite app_nil_r]. Qed.

Lemma spec_segments_concat (l : list ascii) :
  forall skip pending col,
    concat (map fst (spec_segments skip pending col l))
    = pending ++ strip_from skip l.
Proof.
  induction l as [|c tl IH]; intros skip pending col.
  - cbn [spec_segments strip_from]. rewrite concat_emit. now rewrite app_nil_r.
  - cbn [spec_segments strip_from]. destruct skip as [|k]; [|apply IH].
    destruct (match_here (c :: tl)) as [n|].
    + rewrite map_app, concat_app, concat_emit, IH. reflexivity.
    + rewrite IH, <- app_assoc. reflexivity.
Qed.

Lemma emit_nonempty (pending : list ascii) (col : option string) :
  Forall (fun s : segment => fst s <> []) (emit pending col).
Proof.
  destruct pending; simpl; constructor; [discriminate|constructor].
Qed.

Lemma spec_segments_nonempty (l : list ascii) :
  forall skip pending col,
    Forall (fun s : segment => fst s <> [])
           (spec_segments skip pending col l).
Proof.
  induction l as [|c tl IH]; intros skip pending col.
  - apply emit_nonempty.
  - cbn [spec_segments]. destruct skip as [|k]; [|apply IH].
    destruct (match_here (c :: tl)) as [n|]; [|apply IH].
    apply Forall_app. split; [apply emit_nonempty|apply IH].
Qed.






(** *** From characters to strings *)

Lemma string_of_list_ascii_app (a b : list ascii) :
  string_of_list_ascii (a ++ b)
  = string_of_list_ascii a +++ string_of_list_ascii b.
Proof. induction a as [|c a IH]; simpl; [reflexivity|now rewrite IH]. Qed.

(** The texts of the segments, one after the other. *)
Definition join_texts (segs : list (string * option string)) : string :=
  fold_right (fun s acc => fst s +++ acc) "" segs.

Lemma join_texts_chars (segs : list segment) :
  join_texts (map (fun s : segment => (string_of_list_ascii (fst s), snd s)) segs)
  = string_of_list_ascii (concat (map fst segs)).
Proof.
  unfold join_texts.
  induction segs as [|s segs IH]; cbn [map fold_right concat fst];
    [reflexivity|].
  now rewrite IH, string_of_list_ascii_app.
Qed.


Lemma string_nonempty_chars (l : list ascii) :
  l <> [] -> string_of_list_ascii l <> "".
Proof. destruct l; [congruence|discriminate]. Qed.

(** *** The colour rule of the specification *)








End AnsiFacts.

(** ** The log channel *)

Module LogChannelFacts.

Import LogChannel.

Lemma poll_log_queue_colored_all (q : queue) :
  poll_log_queue_colored q = ([], flat_map render q, q).
Proof.
  induction q as [|m q IH]; cbn [poll_log_queue_colored flat_map];
    [reflexivity|].
  now rewrite IH.
Qed.

(** One turn of the loop is one [get_nowait]. *)
Lemma poll_log_queue_colored_get (q : queue) :
  poll_log_queue_colored q =
    match get_nowait q with
    | None => ([], [], [])
    | Some (message, q') =>
        let '(q'', calls, taken) := poll_log_queue_colored q' in
        (q'', render message ++ calls, message :: taken)
    end.
Proof. destruct q; reflexivity. Qed.

(** What was taken and what waits are, together, what was produced; and
    the widget shows what was taken. *)
Lemma run_invariant (schedule : list action) :
  forall st,
    taken (run schedule st) ++ chan (run schedule st)
      = taken st ++ chan st ++ produced schedule
    /\ (widget st = flat_map render (taken st) ->
        widget (run schedule st) = flat_map render (taken (run schedule st))).
Proof.
  unfold run.
  induction schedule as [|a schedule IH]; intros st; cbn [fold_left produced].
  - rewrite app_nil_r. tauto.
  - destruct (IH (step st a)) as [IH1 IH2]. split.
    + rewrite IH1. destruct a as [m|]; cbn [step].
      * unfold log, put. cbn [taken chan]. now rewrite <- !app_assoc.
      * destruct (chan st) as [|m q] eqn:E; cbn [get_nowait taken chan].
        -- now rewrite E.
        -- now rewrite <- !app_assoc.
    + intros Hw. apply IH2. destruct a as [m|]; cbn [step].
      * exact Hw.
      * destruct (get_nowait (chan st)) as [[m q]|]; [|exact Hw].
        cbn [widget taken]. rewrite flat_map_app, Hw. cbn [flat_map].
        now rewrite app_nil_r.
Qed.

(** C8: whatever the interleaving of [log] calls and [get_nowait] calls,
    the messages taken so far followed by those still waiting are exactly
    the messages enqueued, in the order they were enqueued; one more run of
    the drain loop takes all that wait, so every message enqueued has then
    been taken exactly once and inserted in the widget once, in that order,
    and the queue is empty; and on an empty queue [get_nowait] raises at
    once and the drain loop ends with no message. *)
Theorem log_channel_fifo (schedule : list action) :
  taken (run schedule init) ++ chan (run schedule init) = produced schedule
  /\ taken (drain (run schedule init)) = produced schedule
  /\ chan (drain (run schedule init)) = []
  /\ widget (drain (run schedule init)) = flat_map render (produced schedule)
  /\ get_nowait [] = None
  /\ poll_log_queue_colored [] = ([], [], [])
  /\ step init Consume = init
  /\ drain init = init.
Proof.
  destruct (run_invariant schedule init) as [H1 H2].
  cbn [init taken chan app widget flat_map] in H1, H2.
  specialize (H2 eq_refl).
  unfold drain. rewrite poll_log_queue_colored_all.
  cbn [taken chan widget].
  repeat split; try assumption.
  rewrite H2, <- flat_map_app. now rewrite H1.
Qed.

End LogChannelFacts.

(** ** The disk *)

Module DiskFacts.

Import Disk NT.

(** What [os.stat] tells about an entry: a file (with its text) or a
    directory. *)
Inductive shape : Type :=
| IsFile (content : string)
| IsDir.

Definition shape_of (n : node) : shape :=
  match n with
  | File content => IsFile content
  | Dir _ => IsDir
  end.

Definition stat (p : path) (d : node) : option shape :=
  option_map shape_of (lookup p d).

(** *** Names *)

Lemma same_name_refl (a : string) : same_name a a = true.
Proof. apply String.eqb_refl. Qed.

Lemma same_name_sym (a b : string) : same_name a b = same_name b a.
Proof. apply String.eqb_sym. Qed.

Lemma same_name_normcase (a b : string) :
  same_name a b = true <-> normcase a = normcase b.
Proof. apply String.eqb_eq. Qed.

(** Two names of one entry are the same name to every other. *)
Lemma same_name_left (a b c : string) :
  same_name a b = true -> same_name a c = same_name b c.
Proof.
  intros H. apply same_name_normcase in H. unfold same_name. now rewrite H.
Qed.

Lemma same_name_right (a b c : string) :
  same_name a b = true -> same_name c a = same_name c b.
Proof.
  intros H. apply same_name_normcase in H. unfold same_name. now rewrite H.
Qed.

Lemma lower_lower (c : ascii) : lower (lower c) = lower c.
Proof.
  destruct c as [[] [] [] [] [] [] [] []]; reflexivity.
Qed.


Lemma normcase_normcase (a : string) : normcase (normcase a) = normcase a.
Proof.
  unfold normcase. induction a as [|c a IH]; [reflexivity|].
  cbn [list_ascii_of_string map string_of_list_ascii].
  now rewrite lower_lower, IH.
Qed.




(** *** Entries *)

Lemma assoc_same (x y : string) (es : list (string * node)) :
  same_name x y = true -> assoc x es = assoc y es.
Proof.
  intros H. induction es as [|[n c] es IH]; [reflexivity|].
  cbn [assoc]. now rewrite IH, (same_name_right _ _ n H).
Qed.

Lemma assoc_filter (x y : string) (es : list (string * node)) :
  assoc y (filter (fun e => negb (same_name (fst e) x)) es)
  = if same_name y x then None else assoc y es.
Proof.
  induction es as [|[n c] es IH]; cbn [filter assoc fst].
  - now destruct (same_name y x).
  - destruct (same_name n x) eqn:Enx; cbn [negb assoc].
    + rewrite IH. destruct (same_name y x) eqn:Eyx; [reflexivity|].
      rewrite (same_name_left _ _ y Enx), same_name_sym, Eyx. reflexivity.
    + rewrite IH. destruct (same_name n y) eqn:Eny; [|reflexivity].
      now rewrite <- (same_name_left _ _ x Eny), Enx.
Qed.

Lemma assoc_map (x y : string) (f : node -> node)
    (es : list (string * node)) :
  assoc y (map (fun e => if same_name (fst e) x then (fst e, f (snd e))
                         else e) es)
  = if same_name y x then option_map f (assoc y es) else assoc y es.
Proof.
  induction es as [|[n c] es IH]; cbn [map assoc fst snd].
  - now destruct (same_name y x).
  - destruct (same_name n x) eqn:Enx; cbn [assoc].
    + rewrite (same_name_left _ _ y Enx), (same_name_sym x y).
      destruct (same_name y x) eqn:Eyx; [reflexivity|].
      exact IH.
    + destruct (same_name n y) eqn:Eny.
      * now rewrite <- (same_name_left _ _ x Eny), Enx.
      * exact IH.
Qed.

Lemma delete_single (x : string) (es : list (string * node)) :
  delete [x] (Dir es)
  = Dir (filter (fun e => negb (same_name (fst e) x)) es).
Proof. reflexivity. Qed.

Lemma delete_deeper (x z : string) (p : path) (es : list (string * node)) :
  delete (x :: z :: p) (Dir es)
  = Dir (map (fun e => if same_name (fst e) x
                       then (fst e, delete (z :: p) (snd e)) else e) es).
Proof. reflexivity. Qed.

Lemma shape_of_delete (p : path) (n : node) :
  shape_of (delete p n) = shape_of n.
Proof. destruct p as [|x [|y p]]; destruct n; reflexivity. Qed.

Lemma below_refl (p : path) : below p p = true.
Proof. induction p; simpl; [reflexivity|]. now rewrite same_name_refl. Qed.


(** What lies below [q] begins with a path of the same names as [q]. *)
Lemma below_split (q p : path) :
  below q p = true ->
  exists q' rest,
    p = q' ++ rest /\ length q' = length q
    /\ below q q' = true /\ below q' q = true.
Proof.
  revert p. induction q as [|x q IH]; intros p H.
  - exists [], p. now repeat split.
  - destruct p as [|y p]; [discriminate|]. simpl in H.
    apply andb_true_iff in H as [Hxy H].
    destruct (IH _ H) as (q' & rest & -> & Hlen & H1 & H2).
    exists (y :: q'), rest. cbn [app length below].
    rewrite Hxy, (same_name_sym y x), Hxy, H1, H2, Hlen. now repeat split.
Qed.

(** Deleting an entry leaves every entry that is not at or below it as it
    was. *)
Lemma stat_delete_other (p : path) :
  forall (q : path) (d : node),
    below p q = false -> stat q (delete p d) = stat q d.
Proof.
  unfold stat.
  induction p as [|x p IH]; intros q d Hb; [discriminate|].
  destruct q as [|y q].
  - cbn [lookup option_map]. now rewrite shape_of_delete.
  - destruct d as [c|es]; [now destruct p|].
    cbn [below] in Hb.
    destruct p as [|z p].
    + rewrite delete_single. cbn [lookup]. rewrite assoc_filter.
      cbn [below] in Hb. rewrite andb_true_r in Hb.
      rewrite same_name_sym, Hb. reflexivity.
    + rewrite delete_deeper. cbn [lookup]. rewrite assoc_map.
      rewrite (same_name_sym y x).
      destruct (same_name x y); [|reflexivity].
      cbn [andb] in Hb.
      destruct (assoc y es) as [c|]; [|reflexivity].
      cbn [option_map]. now apply IH.
Qed.

(** After a deletion nothing is left at or below the entry. *)
Lemma stat_delete_below (p : path) :
  forall (q : path) (d : node),
    p <> [] -> below p q = true -> stat q (delete p d) = None.
Proof.
  unfold stat.
  induction p as [|x p IH]; intros q d Hne Hb; [congruence|].
  destruct q as [|y q]; [discriminate|].
  cbn [below] in Hb. apply andb_true_iff in Hb as [Hxy Hb].
  rewrite same_name_sym in Hxy.
  destruct d as [c|es]; [now destruct p|].
  destruct p as [|z p].
  - rewrite delete_single. cbn [lookup]. rewrite assoc_filter, Hxy.
    reflexivity.
  - rewrite delete_deeper. cbn [lookup]. rewrite assoc_map, Hxy.
    destruct (assoc y es) as [c|]; [|reflexivity].
    cbn [option_map]. apply IH; [discriminate|assumption].
Qed.

Lemma os_path_exists_stat (p : path) (d : node) :
  os_path_exists p d = true <-> p <> [] /\ stat p d <> None.
Proof.
  unfold os_path_exists, stat. destruct p as [|x p].
  - split; [discriminate|]. intros [H _]. congruence.
  - destruct (lookup (x :: p) d); cbn [option_map]; split;
      try discriminate; try (intros [_ H]; congruence).
    intros _. split; discriminate.
Qed.

(** *** Heights *)

Lemma height_child (x : string) (es : list (string * node)) (c : node) :
  assoc x es = Some c -> height c < height (Dir es).
Proof.
  cbn [height].
  induction es as [|[n c'] es IH]; cbn [assoc]; [discriminate|].
  destruct (same_name n x).
  - intros H. injection H as ->. lia.
  - intros H. specialize (IH H). lia.
Qed.

Lemma height_filter (f : string * node -> bool) (es : list (string * node)) :
  height (Dir (filter f es)) <= height (Dir es).
Proof.
  cbn [height]. apply le_n_S.
  induction es as [|[n c] es IH]; cbn [filter]; [lia|].
  destruct (f (n, c)); lia.
Qed.

Lemma height_delete (p : path) :
  forall n, height (delete p n) <= height n.
Proof.
  induction p as [|x p IH]; intros n; [reflexivity|].
  destruct n as [c|es]; [now destruct p|].
  destruct p as [|z p].
  - apply height_filter.
  - rewrite delete_deeper. cbn [height]. apply le_n_S.
    induction es as [|[n c] es IHes]; cbn [map fst snd]; [lia|].
    destruct (same_name n x).
    + specialize (IH c). cbn [snd]. lia.
    + lia.
Qed.

Lemma lookup_delete_cases (p : path) :
  forall (q : path) (d : node),
    lookup q (delete p d) = None
    \/ lookup q (delete p d) = lookup q d
    \/ exists r n, lookup q d = Some n /\ lookup q (delete p d) = Some (delete r n).
Proof.
  induction p as [|x p IH]; intros q d.
  - right. left. reflexivity.
  - destruct q as [|y q].
    + right. right. exists (x :: p), d. split; reflexivity.
    + destruct d as [c|es]; [right; left; now destruct p|].
      destruct p as [|z p].
      * rewrite delete_single. cbn [lookup]. rewrite assoc_filter.
        destruct (same_name y x); [now left|now right; left].
      * rewrite delete_deeper. cbn [lookup]. rewrite assoc_map.
        destruct (same_name y x); [|now right; left].
        destruct (assoc y es) as [c|]; [|now left].
        cbn [option_map]. apply IH.
Qed.

(** Deleting never adds levels anywhere. *)
Lemma height_at_delete (p q : path) (d : node) :
  height_at q (delete p d) <= height_at q d.
Proof.
  unfold height_at.
  destruct (lookup_delete_cases p q d) as [H|[H|(r & n & H1 & H2)]].
  - rewrite H. lia.
  - rewrite H. lia.
  - rewrite H1, H2. apply height_delete.
Qed.

Lemma height_at_child (directory : path) (entry : string) (d : node) :
  os_path_isdir (directory ++ [entry]) d = true ->
  height_at (directory ++ [entry]) d < height_at directory d.
Proof.
  unfold os_path_isdir, height_at.
  destruct (directory ++ [entry]) as [|a b] eqn:Ep; [discriminate|].
  rewrite <- Ep. clear Ep a b.
  revert d. induction directory as [|x directory IH]; intros d.
  - cbn [app lookup]. destruct d as [c|es]; [discriminate|].
    destruct (assoc entry es) as [c|] eqn:E; [|discriminate].
    intros _. now apply (height_child entry).
  - cbn [app lookup]. destruct d as [c|es]; [discriminate|].
    destruct (assoc x es) as [c|]; [|discriminate].
    apply IH.
Qed.

(** *** Listings *)

Lemma filter_names_removed (f : string -> bool) (x : string)
    (es : list (string * node)) :
  (forall n, same_name n x = true -> f n = false) ->
  filter f (map fst (filter (fun e => negb (same_name (fst e) x)) es))
  = filter f (map fst es).
Proof.
  intros Hx. induction es as [|[n c] es IH]; [reflexivity|].
  cbn [filter map fst]. destruct (same_name n x) eqn:E;
    cbn [negb map filter fst].
  - now rewrite (Hx n E).
  - now rewrite IH.
Qed.

Lemma names_updated (x : string) (g : node -> node)
    (es : list (string * node)) :
  map fst (map (fun e => if same_name (fst e) x then (fst e, g (snd e))
                         else e) es)
  = map fst es.
Proof.
  induction es as [|[n c] es IH]; [reflexivity|].
  cbn [map fst snd]. rewrite IH. now destruct (same_name n x).
Qed.

Lemma names_at_root_delete (p : path) (n : node) (f : string -> bool) :
  (forall x m, p = [x] -> same_name m x = true -> f m = false) ->
  filter f (names_at [] (delete p n)) = filter f (names_at [] n).
Proof.
  intros Hp. unfold names_at. cbn [lookup].
  destruct p as [|x [|z p]]; [reflexivity| |]; destruct n as [c|es];
    try reflexivity.
  - rewrite delete_single. apply filter_names_removed.
    intros m Hm. now apply (Hp x).
  - rewrite delete_deeper. now rewrite names_updated.
Qed.

(** Deleting an entry changes the listing of a directory [q] that is not
    at or below it only by removing the names of the entry, if the entry is
    in [q]. *)
Lemma names_at_delete (f : string -> bool) (p : path) :
  forall (q : path) (d : node),
    below p q = false ->
    (forall p' x m, p = p' ++ [x] -> same_name m x = true -> f m = false) ->
    filter f (names_at q (delete p d)) = filter f (names_at q d).
Proof.
  induction p as [|x p IH]; intros q d Hb Hp; [discriminate|].
  destruct q as [|y q].
  - apply names_at_root_delete. intros x0 m Hx0. now apply (Hp []).
  - destruct d as [c|es]; [now destruct p|].
    cbn [below] in Hb. unfold names_at in *.
    destruct p as [|z p].
    + rewrite delete_single. cbn [lookup]. rewrite assoc_filter.
      cbn [below] in Hb. rewrite andb_true_r in Hb.
      rewrite same_name_sym, Hb. reflexivity.
    + rewrite delete_deeper. cbn [lookup]. rewrite assoc_map.
      rewrite (same_name_sym y x).
      destruct (same_name x y) eqn:Exy; [|reflexivity].
      cbn [andb] in Hb.
      destruct (assoc y es) as [c|]; [|reflexivity].
      cbn [option_map]. apply IH; [assumption|].
      intros p' x0 m Hx0. apply (Hp (x :: p')). cbn [app]. now rewrite Hx0.
Qed.

Lemma below_length (q p : path) : below q p = true -> length q <= length p.
Proof.
  revert p. induction q as [|x q IH]; intros p H; cbn [length]; [lia|].
  destruct p as [|y p]; [discriminate|]. cbn [below length] in *.
  apply andb_true_iff in H as [_ H]. apply IH in H. lia.
Qed.

Lemma below_longer (q rest : path) :
  rest <> [] -> below (q ++ rest) q = false.
Proof.
  intros Hne. destruct (below (q ++ rest) q) eqn:E; [|reflexivity].
  apply below_length in E. rewrite length_app in E.
  destruct rest; [congruence|]. cbn [length] in E. lia.
Qed.


End DiskFacts.

(** ** The helper *)

Module HelperFacts.

Import Disk NT DiskFacts Helper.

(** *** Events *)

Lemma spawned_app (e1 e2 : list event) :
  spawned (e1 ++ e2) = spawned e1 ++ spawned e2.
Proof.
  induction e1 as [|e e1 IH]; [reflexivity|].
  destruct e; cbn [app spawned]; rewrite IH; reflexivity.
Qed.

Lemma deletions_app (e1 e2 : list event) :
  deletions (e1 ++ e2) = deletions e1 ++ deletions e2.
Proof.
  induction e1 as [|e e1 IH]; [reflexivity|].
  destruct e; cbn [app deletions]; rewrite IH; reflexivity.
Qed.

Lemma logged_app (e1 e2 : list event) :
  logged (e1 ++ e2) = logged e1 ++ logged e2.
Proof.
  induction e1 as [|e e1 IH]; [reflexivity|].
  destruct e; cbn [app logged]; rewrite IH; reflexivity.
Qed.

Lemma status_after_app (s : string) (e1 e2 : list event) :
  status_after s (e1 ++ e2) = status_after (status_after s e1) e2.
Proof. unfold status_after. apply fold_left_app. Qed.

(** *** Invariants of computations *)

(** A relation between the disk before, the disk after and the calls made
    that holds for no call at all and is kept by sequencing holds of every
    computation built from steps that keep it. *)
Section Invariants.

Variable I : node -> node -> list event -> Prop.
Hypothesis I_refl : forall d, I d d [].
Hypothesis I_trans :
  forall d d1 d2 e1 e2, I d d1 e1 -> I d1 d2 e2 -> I d d2 (e1 ++ e2).

Definition holds {A : Type} (m : M A) : Prop :=
  forall d, I d (disk_after (m d)) (events (m d)).

Lemma holds_ret {A : Type} (a : A) : holds (ret a).
Proof. intros d. apply I_refl. Qed.

Lemma holds_raise {A : Type} (e : string) : holds (@raise A e).
Proof. intros d. apply I_refl. Qed.

Lemma holds_pure {A : Type} (f : node -> result A) :
  holds (fun d => (f d, d, [])).
Proof. intros d. apply I_refl. Qed.

Lemma holds_bind {A B : Type} (m : M A) (f : A -> M B) :
  holds m -> (forall a, holds (f a)) -> holds (bind m f).
Proof.
  intros Hm Hf d. specialize (Hm d). unfold bind.
  destruct (m d) as [[[a|e|] d1] ev1]; cbn [disk_after events fst snd] in *;
    try assumption.
  specialize (Hf a d1).
  destruct (f a d1) as [[r d2] ev2]; cbn [disk_after events fst snd] in *.
  eapply I_trans; eassumption.
Qed.

Lemma holds_try_except {A : Type} (body : M A) (handler : string -> M A) :
  holds body -> (forall e, holds (handler e)) ->
  holds (try_except body handler).
Proof.
  intros Hm Hf d. specialize (Hm d). unfold try_except.
  destruct (body d) as [[[a|e|] d1] ev1]; cbn [disk_after events fst snd] in *;
    try assumption.
  specialize (Hf e d1).
  destruct (handler e d1) as [[r d2] ev2]; cbn [disk_after events fst snd] in *.
  eapply I_trans; eassumption.
Qed.

Lemma holds_for_each {A : Type} (l : list A) (body : A -> M unit) :
  (forall x, In x l -> holds (body x)) -> holds (for_each l body).
Proof.
  induction l as [|x l IH]; intros Hb; cbn [for_each].
  - apply holds_ret.
  - apply holds_bind.
    + apply Hb. now left.
    + intros _. apply IH. intros y Hy. apply Hb. now right.
Qed.

Lemma holds_when (b : bool) (m : M unit) : holds m -> holds (when b m).
Proof. intros H. destruct b; [exact H|apply holds_ret]. Qed.

(** The same from the disks that satisfy [Pre], a condition that the steps
    keep. *)
Variable Pre : node -> Prop.
Hypothesis Pre_stable : forall d d' evs, Pre d -> I d d' evs -> Pre d'.





End Invariants.

(** *** What the cleanup keeps *)

(** The calls [evs] delete only entries that satisfy [ok]; every entry not
    at or below a deleted one is as before; no process is started, nothing
    is opened, and no directory gains levels. *)
Definition cleaning (ok : path -> Prop) (d d' : node) (evs : list event)
  : Prop :=
  (forall t, In t (deletions evs) -> ok t)
  /\ (forall q, (forall t, In t (deletions evs) -> below t q = false) ->
                stat q d' = stat q d)
  /\ spawned evs = []
  /\ (forall q, height_at q d' <= height_at q d)
  /\ (forall q f,
        (forall t, In t (deletions evs) ->
                   below t q = false
                   /\ (forall p' x m, t = p' ++ [x] ->
                                      same_name m x = true -> f m = false)) ->
        filter f (names_at q d') = filter f (names_at q d)).

Lemma cleaning_refl (ok : path -> Prop) (d : node) : cleaning ok d d [].
Proof. repeat split; try contradiction; auto. Qed.

Lemma cleaning_trans (ok : path -> Prop) (d d1 d2 : node)
    (e1 e2 : list event) :
  cleaning ok d d1 e1 -> cleaning ok d1 d2 e2 -> cleaning ok d d2 (e1 ++ e2).
Proof.
  intros (T1 & F1 & S1 & H1 & N1) (T2 & F2 & S2 & H2 & N2).
  repeat split.
  - intros t Ht. rewrite deletions_app in Ht.
    apply in_app_or in Ht as [Ht|Ht]; auto.
  - intros q Hq. rewrite F2, F1; [reflexivity| |];
      intros t Ht; apply Hq; rewrite deletions_app; apply in_or_app; auto.
  - now rewrite spawned_app, S1, S2.
  - intros q. specialize (H1 q). specialize (H2 q). lia.
  - intros q f Hq. rewrite N2, N1; [reflexivity| |];
      intros t Ht; apply Hq; rewrite deletions_app; apply in_or_app; auto.
Qed.

Lemma cleaning_weaken (ok ok' : path -> Prop) (d d' : node)
    (evs : list event) :
  (forall t, ok t -> ok' t) -> cleaning ok d d' evs -> cleaning ok' d d' evs.
Proof. intros Hw (T & F & S & H & N). repeat split; auto. Qed.

Lemma holds_cleaning_weaken {A : Type} (ok ok' : path -> Prop) (m : M A) :
  (forall t, ok t -> ok' t) -> holds (cleaning ok) m -> holds (cleaning ok') m.
Proof. intros Hw Hm d. eapply cleaning_weaken; [exact Hw|apply Hm]. Qed.

Section Cleaning.

Variable P : platform.

Lemma cleaning_log (ok : path -> Prop) (message : string) :
  holds (cleaning ok) (log message).
Proof. intros d. repeat split; cbn; try contradiction; auto. Qed.

Lemma cleaning_delete (ok : path -> Prop) (p : path) (d : node)
    (e : event) :
  ok p -> deletions [e] = [p] -> spawned [e] = [] ->
  cleaning ok d (delete p d) [e].
Proof.
  intros Hok He Hs. repeat split.
  - rewrite He. intros t [<-|[]]. exact Hok.
  - rewrite He. intros q Hq. apply stat_delete_other. apply Hq. now left.
  - exact Hs.
  - intros q. apply height_at_delete.
  - rewrite He. intros q f Hq.
    destruct (Hq p (or_introl eq_refl)) as [Hb Hx].
    now apply names_at_delete.
Qed.

Lemma cleaning_attempt (ok : path -> Prop) (p : path) (d : node)
    (e : event) :
  ok p -> deletions [e] = [p] -> spawned [e] = [] -> cleaning ok d d [e].
Proof.
  intros Hok He Hs. repeat split; auto.
  rewrite He. intros t [<-|[]]. exact Hok.
Qed.

Lemma cleaning_rmtree (ok : path -> Prop) (p : path) :
  ok p -> holds (cleaning ok) (shutil_rmtree P p).
Proof.
  intros Hok d. unfold shutil_rmtree.
  destruct (rm_error P p); cbn [disk_after events fst snd].
  - now apply (cleaning_attempt ok p).
  - now apply cleaning_delete.
Qed.

Lemma cleaning_remove (ok : path -> Prop) (p : path) :
  ok p -> holds (cleaning ok) (os_remove P p).
Proof.
  intros Hok d. unfold os_remove.
  destruct (rm_error P p); cbn [disk_after events fst snd].
  - now apply (cleaning_attempt ok p).
  - now apply cleaning_delete.
Qed.

Lemma cleaning_listdir (ok : path -> Prop) (p : path) :
  holds (cleaning ok) (os_listdir P p).
Proof.
  intros d. unfold os_listdir.
  destruct (listdir_error P p); [apply cleaning_refl|].
  destruct (lookup p d) as [[c|es]|]; apply cleaning_refl.
Qed.

Lemma cleaning_glob (ok : path -> Prop) :
  holds (cleaning ok) (glob_uproject P).
Proof. intros d. apply cleaning_refl. Qed.

Ltac cleaning_step :=
  first
    [ apply (holds_bind _ (cleaning_trans _)); [|intros ?]
    | apply (holds_try_except _ (cleaning_trans _)); [|intros ?]
    | apply (holds_when _ (cleaning_refl _))
    | apply (holds_ret _ (cleaning_refl _))
    | apply cleaning_log
    | apply cleaning_listdir
    | apply cleaning_glob
    | apply (holds_pure _ (cleaning_refl _)) ].

Lemma cleaning_for_each {A : Type} (ok : path -> Prop) (l : list A)
    (body : A -> M unit) :
  (forall x, In x l -> holds (cleaning ok) (body x)) ->
  holds (cleaning ok) (for_each l body).
Proof.
  apply holds_for_each; [apply cleaning_refl|apply cleaning_trans].
Qed.

Lemma cleaning_remove_folder (ok : path -> Prop) (p : path) :
  ok p -> holds (cleaning ok) (remove_folder P p).
Proof.
  intros Hok. unfold remove_folder, isdir.
  repeat cleaning_step. now apply cleaning_rmtree.
Qed.

Lemma cleaning_remove_file (ok : path -> Prop) (p : path) :
  ok p -> holds (cleaning ok) (remove_file P p).
Proof.
  intros Hok. unfold remove_file, isfile.
  repeat cleaning_step. now apply cleaning_remove.
Qed.

(** An entry named [name], one of [names], at any depth at or below
    [directory]. *)
Definition named_under (directory : path) (names : list string) (t : path)
  : Prop :=
  exists sub name, In name names /\ t = directory ++ sub ++ [name].

Lemma cleaning_remove_items_rec (folders files : list string) (fuel : nat) :
  forall directory,
    holds (cleaning (named_under directory (folders ++ files)))
          (remove_items_rec P fuel directory folders files).
Proof.
  induction fuel as [|fuel IH]; intros directory; cbn [remove_items_rec].
  - intros d. apply cleaning_refl.
  - repeat cleaning_step.
    + apply cleaning_for_each.
      intros folder Hin. apply cleaning_remove_folder.
      exists [], folder. split; [apply in_or_app; now left|reflexivity].
    + apply cleaning_for_each.
      intros file Hin. apply cleaning_remove_file.
      exists [], file. split; [apply in_or_app; now right|reflexivity].
    + apply cleaning_for_each.
      intros entry Hin. unfold isdir. repeat cleaning_step.
      eapply holds_cleaning_weaken; [|apply IH].
      intros t (sub & name & Hname & ->).
      exists (entry :: sub), name. split; [assumption|].
      unfold os_path_join. now rewrite <- app_assoc.
Qed.

Lemma cleaning_remove_items_recursively (folders files : list string)
    (directory : path) :
  holds (cleaning (named_under directory (folders ++ files)))
        (remove_items_recursively P directory folders files).
Proof.
  intros d. unfold remove_items_recursively.
  apply cleaning_remove_items_rec.
Qed.

Lemma cleaning_clean_plugins_folder (script_directory : path)
    (project_name : string) :
  holds (cleaning
           (named_under (script_directory ++ ["Plugins"])
              (plugin_folders_to_delete
                 ++ [project_name +++ ".sln"; ".vsconfig"])))
        (clean_plugins_folder P script_directory project_name).
Proof.
  unfold clean_plugins_folder, isdir. cleaning_step; [cleaning_step|].
  destruct (negb a); repeat cleaning_step.
  apply cleaning_remove_items_recursively.
Qed.








End Cleaning.

(** *** Inputs used to run the model *)

(** A project [C:\Proj] with build output, an IDE solution and one plugin,
    and an engine installed in [C:\UE]. *)
Definition demo_disk : node :=
  Dir [("C:", Dir
    [("Proj", Dir
       [("Game.uproject", File "5.3");
        ("Binaries", Dir [("Win64", Dir [("Game.exe", File "")])]);
        ("Source", Dir [("Game.cpp", File "")]);
        ("Game.sln", File "");
        ("Plugins", Dir
           [("P1", Dir [("Intermediate", Dir []);
                        ("Source", Dir [])])])]);
     ("UE", Dir
       [("Engine", Dir
          [("Binaries", Dir
             [("DotNET", Dir
                [("UnrealBuildTool", Dir
                   [("UnrealBuildTool.dll", File "")])])]);
           ("Build", Dir
              [("BatchFiles", Dir [("Build.bat", File "")])])])])])].

(** The engine is given by the environment; every command prints two lines
    and exits with code 3; the solution file cannot be removed.  The text
    of the project file stands for its [EngineAssociation]. *)
Definition demo : platform := {|
  getcwd := ["C:"; "Proj"];
  environ_UNREAL_ENGINE_PATH := Some ["C:"; "UE"];
  winreg_InstalledDirectory := fun _ => None;
  json_EngineAssociation := fun content => JsonValue (Some content);
  open_error := fun _ => "PermissionError";
  run_process := fun _ d => (Exited ["line1" +++ NL; "line2"] 3, d);
  rm_error := fun p =>
    if list_eq_dec string_dec p ["C:"; "Proj"; "Game.sln"]
    then Some "PermissionError" else None;
  listdir_error := fun _ => None;
  startfile_error := fun _ => None
|}.








(** *** Running one computation after another *)

(** The calls [ev1] made before those of [x]. *)
Definition after {A : Type} (ev1 : list event)
    (x : result A * node * list event) : result A * node * list event :=
  let '(r, d2, ev2) := x in (r, d2, ev1 ++ ev2).

Lemma bind_ok {A B : Type} (m : M A) (f : A -> M B) (d d1 : node) (a : A)
    (ev1 : list event) :
  m d = (Ok a, d1, ev1) -> bind m f d = after ev1 (f a d1).
Proof. intros H. unfold bind. now rewrite H. Qed.

Lemma outcome_after {A : Type} (ev1 : list event)
    (x : result A * node * list event) :
  outcome (after ev1 x) = outcome x.
Proof. now destruct x as [[r d] ev]. Qed.

Lemma disk_after_after {A : Type} (ev1 : list event)
    (x : result A * node * list event) :
  disk_after (after ev1 x) = disk_after x.
Proof. now destruct x as [[r d] ev]. Qed.

Lemma events_after {A : Type} (ev1 : list event)
    (x : result A * node * list event) :
  events (after ev1 x) = ev1 ++ events x.
Proof. now destruct x as [[r d] ev]. Qed.

Lemma bind_raise {A B : Type} (m : M A) (f : A -> M B) (d d1 : node)
    (e : string) (ev1 : list event) :
  m d = (Raise e, d1, ev1) -> bind m f d = (Raise e, d1, ev1).
Proof. intros H. unfold bind. now rewrite H. Qed.

Lemma triple_eta {A : Type} (x : result A * node * list event) :
  x = (outcome x, disk_after x, events x).
Proof. now destruct x as [[r d] ev]. Qed.

Lemma for_each_log {A : Type} (l : list A) (g : A -> string) (d : node) :
  for_each l (fun x => log (g x)) d = (Ok tt, d, map (fun x => Log (g x)) l).
Proof.
  induction l as [|x l IH]; [reflexivity|].
  cbn [for_each]. rewrite (bind_ok _ _ d d tt [Log (g x)]) by reflexivity.
  rewrite IH. reflexivity.
Qed.

Lemma status_after_logs {A : Type} (s : string) (l : list A)
    (g : A -> string) :
  status_after s (map (fun x => Log (g x)) l) = s.
Proof. induction l; [reflexivity|assumption]. Qed.

(** *** The process streamer *)

(** The log lines for the output of a process. *)
Definition output_lines (stdout : list string) : list event :=
  map (fun line => Log (rstrip_nl line)) (iter_readline stdout).

(** A run of the process streamer, written out. *)
Lemma run_command_stream_run (P : platform)
    (command start_message finish_message : string) (d : node) :
  run_command_stream P command start_message finish_message d
  = (Ok tt, snd (run_process P command d),
     [StatusSet start_message; Log start_message; Popen command]
     ++ match fst (run_process P command d) with
        | Exited stdout retcode =>
            output_lines stdout
            ++ (if (retcode =? 0)%Z
                then [StatusSet "Done"; Log finish_message]
                else [StatusSet "Error";
                      Log ("Error: command returned exit code "
                           +++ show_Z retcode)])
        | Failed stdout e =>
            output_lines stdout
            ++ [Log ("Error: " +++ e); StatusSet "Error"]
        end).
Proof.
  unfold run_command_stream.
  rewrite (bind_ok _ _ d d tt [StatusSet start_message]) by reflexivity.
  rewrite (bind_ok _ _ d d tt [Log start_message]) by reflexivity.
  unfold try_except, subprocess_Popen, bind.
  destruct (run_process P command d) as [[stdout retcode|stdout e] d'];
    cbn [fst snd]; rewrite for_each_log.
  - destruct (retcode =? 0)%Z; reflexivity.
  - cbn [raise app]. rewrite app_nil_r. reflexivity.
Qed.

(** C5: every call of [run_command_stream] returns without raising; it
    sets the status to the start label and logs it, and only then starts the
    process; after the lines of output, exit code 0 gives status Done and
    the finish label as a log line, any other exit code gives status Error
    and a log line with the code, and an exception raised by the start of
    the process or by reading gives a log line with its text and status
    Error. *)
Theorem run_command_stream_outcomes (P : platform)
    (command start_message finish_message : string) (d : node)
    (status : string) :
  let run := run_command_stream P command start_message finish_message d in
  outcome run = Ok tt
  /\ disk_after run = snd (run_process P command d)
  /\ events run
     = [StatusSet start_message; Log start_message; Popen command]
       ++ match fst (run_process P command d) with
          | Exited stdout retcode =>
              output_lines stdout
              ++ (if (retcode =? 0)%Z
                  then [StatusSet "Done"; Log finish_message]
                  else [StatusSet "Error";
                        Log ("Error: command returned exit code "
                             +++ show_Z retcode)])
          | Failed stdout e =>
              output_lines stdout
              ++ [Log ("Error: " +++ e); StatusSet "Error"]
          end
  /\ status_after status (events run)
     = match fst (run_process P command d) with
       | Exited _ retcode => if (retcode =? 0)%Z then "Done" else "Error"
       | Failed _ _ => "Error"
       end.
Proof.
  intros run. unfold run. rewrite run_command_stream_run.
  cbn [outcome disk_after events fst snd].
  repeat split.
  cbn [app status_after fold_left].
  destruct (fst (run_process P command d)) as [stdout retcode|stdout e];
    unfold output_lines; rewrite fold_left_app;
    fold (status_after start_message
            (map (fun line => Log (rstrip_nl line)) (iter_readline stdout)));
    rewrite status_after_logs.
  - now destruct (retcode =? 0)%Z.
  - reflexivity.
Qed.

(** *** Engine lookup *)

(** The registry key read for a version. *)
Definition registry_key (version : string) : string :=
  "SOFTWARE\EpicGames\Unreal Engine\" +++ version.

(** The fallback chain of the specification: the override if it is not
    empty, else the registry path if it exists on disk, else the default. *)
Definition engine_root (P : platform) (version : string) (d : node) : path :=
  match environ_UNREAL_ENGINE_PATH P with
  | Some (x :: p) => x :: p
  | _ =>
      match winreg_InstalledDirectory P (registry_key version) with
      | Some installed_directory =>
          if os_path_exists installed_directory d then installed_directory
          else default_engine_path version
      | None => default_engine_path version
      end
  end.

Lemma os_path_exists_nonempty (p : path) (d : node) :
  os_path_exists p d = true -> nonempty p = true.
Proof. now destruct p. Qed.

Lemma find_unreal_engine_path_from_registry_run (P : platform)
    (version : string) (d : node) :
  exists evs,
    find_unreal_engine_path_from_registry P version d
    = (Ok match winreg_InstalledDirectory P (registry_key version) with
          | Some installed_directory =>
              if os_path_exists installed_directory d
              then Some installed_directory else None
          | None => None
          end, d, evs)
    /\ spawned evs = [] /\ deletions evs = []
    /\ (forall s, status_after s evs = s).
Proof.
  unfold find_unreal_engine_path_from_registry. fold (registry_key version).
  destruct (winreg_InstalledDirectory P (registry_key version)) as [dir|].
  - unfold exists_, bind.
    destruct (os_path_exists dir d) eqn:E.
    + rewrite (os_path_exists_nonempty _ _ E). cbn [andb ret app].
      exists []. repeat split.
    + rewrite andb_false_r. cbn [log tell ret app].
      eexists. split; [reflexivity|]. repeat split.
  - cbn [log tell ret bind app]. eexists. split; [reflexivity|].
    repeat split.
Qed.

(** The lookup changes nothing, starts nothing and returns the path of the
    chain. *)
Lemma resolve_engine_path_run (P : platform) (version : string) (d : node) :
  exists evs,
    resolve_engine_path P version d = (Ok (engine_root P version d), d, evs)
    /\ spawned evs = [] /\ deletions evs = []
    /\ (forall s, status_after s evs = s).
Proof.
  unfold resolve_engine_path, engine_root.
  destruct (find_unreal_engine_path_from_registry_run P version d)
    as (evs & Hfind & Hs & Hd & Hst).
  assert (Hreg :
    exists evs',
      bind (find_unreal_engine_path_from_registry P version)
        (fun found =>
           match found with
           | Some ((_ :: _) as unreal_engine_path) =>
               log ("Path obtained from registry: "
                    +++ show_path unreal_engine_path) ;;
               ret unreal_engine_path
           | _ =>
               let unreal_engine_path := default_engine_path version in
               log ("Using default path: " +++ show_path unreal_engine_path) ;;
               ret unreal_engine_path
           end) d
      = (Ok match winreg_InstalledDirectory P (registry_key version) with
            | Some installed_directory =>
                if os_path_exists installed_directory d
                then installed_directory
                else default_engine_path version
            | None => default_engine_path version
            end, d, evs')
      /\ spawned evs' = [] /\ deletions evs' = []
      /\ (forall s, status_after s evs' = s)).
  { rewrite (bind_ok _ _ _ _ _ _ Hfind).
    destruct (winreg_InstalledDirectory P (registry_key version)) as [dir|].
    - destruct (os_path_exists dir d) eqn:E.
      + destruct dir as [|x dir]; [discriminate|].
        eexists. split; [reflexivity|]. cbn [after app].
        rewrite spawned_app, deletions_app, Hs, Hd.
        repeat split. intros s. rewrite status_after_app, Hst. reflexivity.
      + eexists. split; [reflexivity|]. cbn [after app].
        rewrite spawned_app, deletions_app, Hs, Hd.
        repeat split. intros s. rewrite status_after_app, Hst. reflexivity.
    - eexists. split; [reflexivity|]. cbn [after app].
      rewrite spawned_app, deletions_app, Hs, Hd.
      repeat split. intros s. rewrite status_after_app, Hst. reflexivity. }
  destruct (environ_UNREAL_ENGINE_PATH P) as [[|x p]|]; try exact Hreg.
  eexists. split; [reflexivity|]. repeat split.
Qed.

(** The override is set to the empty string; the registry names the
    engine in [C:\UE]. *)
Definition demo_empty_override : platform := {|
  getcwd := ["C:"; "Proj"];
  environ_UNREAL_ENGINE_PATH := Some [];
  winreg_InstalledDirectory := fun _ => Some ["C:"; "UE"];
  json_EngineAssociation := fun content => JsonValue (Some content);
  open_error := fun _ => "PermissionError";
  run_process := fun _ d => (Exited [] 0, d);
  rm_error := fun _ => None;
  listdir_error := fun _ => None;
  startfile_error := fun _ => None
|}.

(** C2, amended: the engine path is the override if it is set and not
    empty, whatever the registry holds; an override that is unset or empty
    is passed over, and then the path is the registry path if the registry
    has one and it exists on disk, and in every other case the default path
    made from the version, which is not checked on disk. *)
Theorem engine_resolution_chain (P : platform) (version : string)
    (d : node) :
  let run := resolve_engine_path P version d in
  let override := environ_UNREAL_ENGINE_PATH P in
  let registry := winreg_InstalledDirectory P (registry_key version) in
  disk_after run = d
  /\ (forall p, override = Some p -> p <> [] ->
        outcome run = Ok p
        /\ events run
           = [Log ("Path defined by environment variable: " +++ show_path p)])
  /\ (override = None \/ override = Some [] ->
      forall dir, registry = Some dir -> os_path_exists dir d = true ->
        outcome run = Ok dir)
  /\ (override = None \/ override = Some [] ->
      registry = None
      \/ (exists dir, registry = Some dir /\ os_path_exists dir d = false) ->
      outcome run = Ok (default_engine_path version)).
Proof.
  intros run override registry.
  destruct (resolve_engine_path_run P version d) as (evs & Hrun & _).
  fold run in Hrun. subst override registry.
  split; [now rewrite Hrun|split; [|split]].
  - intros p Hp Hne. unfold run, resolve_engine_path.
    rewrite Hp. destruct p as [|x p]; [congruence|]. split; reflexivity.
  - intros Hov dir Hreg Hex. rewrite Hrun. unfold engine_root.
    destruct Hov as [-> | ->]; now rewrite Hreg, Hex.
  - intros Hov Hreg. rewrite Hrun. unfold engine_root.
    destruct Hov as [-> | ->];
      destruct Hreg as [-> | (dir & -> & ->)]; reflexivity.
Qed.

(** C2 as stated fails: the override is set, to the empty string, and the
    registry path is returned, not the override. *)
Lemma empty_override_is_not_returned :
  environ_UNREAL_ENGINE_PATH demo_empty_override = Some []
  /\ outcome (resolve_engine_path demo_empty_override "5.3" demo_disk)
     = Ok ["C:"; "UE"]
  /\ events (resolve_engine_path demo_empty_override "5.3" demo_disk)
     = [Log "Path obtained from registry: C:\UE"].
Proof. repeat split. Qed.

(** *** The pipeline up to the build-tool check *)

Lemma after_nil {A : Type} (x : result A * node * list event) :
  after [] x = x.
Proof. now destruct x as [[r d] ev]. Qed.

Lemma after_after {A : Type} (e1 e2 : list event)
    (x : result A * node * list event) :
  after e1 (after e2 x) = after (e1 ++ e2) x.
Proof. destruct x as [[r d] ev]. cbn [after]. now rewrite app_assoc. Qed.

Lemma when_log (b : bool) (message : string) (d : node) :
  when b (log message) d = (Ok tt, d, if b then [Log message] else []).
Proof. now destruct b. Qed.

Lemma load_EngineAssociation_run (P : platform) (p : path) (d : node) :
  load_EngineAssociation P p d
  = (outcome (load_EngineAssociation P p d), d, []).
Proof.
  unfold load_EngineAssociation.
  destruct (lookup p d) as [[content|es]|]; try reflexivity.
  now destruct (json_EngineAssociation P content).
Qed.

(** The project file found, its path and the names made from it. *)
Definition uproject_files (P : platform) (d : node) : list string :=
  filter is_uproject (names_at (getcwd P) d).

(** The calls made before the engine is looked for. *)
Definition located_events (P : platform) (first : string)
    (others : list string) (engine_version : string) : list event :=
  (if (1 <? length (first :: others))%nat
   then [Log "More than one .uproject file found. Selecting the first one."]
   else [])
  ++ [Log (".uproject file found: "
           +++ show_path (os_path_join (getcwd P) first));
      Log ("Unreal Engine version set in project: " +++ engine_version);
      Log ("Target to compile: " +++ splitext_root first +++ "Editor")].

Lemma basename_join (a : path) (b : string) : basename (os_path_join a b) = b.
Proof.
  unfold basename, os_path_join. induction a as [|x a IH]; [reflexivity|].
  cbn [app]. destruct (a ++ [b]) eqn:E; [now destruct a|]. exact IH.
Qed.

(** With a project file and its engine version, the pipeline gets to the
    build-tool check with the engine path of the chain. *)
Lemma run_build_process_located (P : platform) (open_sln open_uproject : bool)
    (d : node) (first : string) (others : list string) (version : string) :
  uproject_files P d = first :: others ->
  outcome (load_EngineAssociation P (os_path_join (getcwd P) first) d)
    = Ok (Some version) ->
  version <> "" ->
  exists evs,
    spawned evs = [] /\ deletions evs = []
    /\ (forall s, status_after s evs = s)
    /\ run_build_process P open_sln open_uproject d
       = try_except
           (fun d0 =>
              after (located_events P first others version ++ evs)
                (build_with_engine P open_sln open_uproject (getcwd P)
                   (os_path_join (getcwd P) first)
                   (engine_root P version d)
                   (splitext_root first) (splitext_root first +++ "Editor")
                   d0))
           (fun e => log ("Error: " +++ e)) d.
Proof.
  intros Hglob Hload Hver.
  destruct (resolve_engine_path_run P version d) as (evs & Hres & Hs & Hd & Hst).
  exists evs. repeat split; try assumption.
  unfold run_build_process, try_except.
  rewrite (bind_ok _ _ d d (first :: others) []);
    [|unfold glob_uproject; fold (uproject_files P d); now rewrite Hglob].
  rewrite after_nil.
  rewrite (bind_ok _ _ d d tt _ (when_log _ _ d)).
  rewrite (bind_ok _ _ d d tt
             [Log (".uproject file found: "
                   +++ show_path (os_path_join (getcwd P) first))])
    by reflexivity.
  rewrite (bind_ok _ _ d d (Some version) []);
    [|rewrite load_EngineAssociation_run; now rewrite Hload].
  rewrite after_nil.
  destruct version as [|c version]; [congruence|].
  rewrite (bind_ok _ _ d d tt
             [Log ("Unreal Engine version set in project: "
                   +++ String c version)]) by reflexivity.
  rewrite basename_join.
  rewrite (bind_ok _ _ d d tt
             [Log ("Target to compile: " +++ splitext_root first +++ "Editor")])
    by reflexivity.
  rewrite (bind_ok _ _ _ _ _ _ Hres).
  rewrite !after_after. unfold located_events.
  rewrite <- !app_assoc. reflexivity.
Qed.

Lemma try_except_ok {A : Type} (body : M A) (handler : string -> M A)
    (d d1 : node) (a : A) (evs : list event) :
  body d = (Ok a, d1, evs) -> try_except body handler d = (Ok a, d1, evs).
Proof. intros H. unfold try_except. now rewrite H. Qed.

(** A pipeline that finds the build tool missing stops there. *)
Lemma build_with_engine_tool_missing (P : platform)
    (open_sln open_uproject : bool)
    (script_directory uproject_path unreal_engine_path : path)
    (project_name target_name : string) (d : node) :
  os_path_exists (build_tool_dll_of unreal_engine_path) d = false ->
  build_with_engine P open_sln open_uproject script_directory uproject_path
    unreal_engine_path project_name target_name d
  = (Ok tt, d,
     [Log ("File '" +++ show_path (build_tool_dll_of unreal_engine_path)
           +++ "' not found.")]).
Proof.
  intros H. unfold build_with_engine.
  rewrite (bind_ok _ _ d d false []); [|unfold exists_; now rewrite H].
  reflexivity.
Qed.

Lemma run_build_process_tool_missing (P : platform)
    (open_sln open_uproject : bool) (d : node) (first : string)
    (others : list string) (version : string) :
  uproject_files P d = first :: others ->
  outcome (load_EngineAssociation P (os_path_join (getcwd P) first) d)
    = Ok (Some version) ->
  version <> "" ->
  os_path_exists (build_tool_dll_of (engine_root P version d)) d = false ->
  exists evs,
    spawned evs = [] /\ deletions evs = []
    /\ (forall s, status_after s evs = s)
    /\ run_build_process P open_sln open_uproject d
       = (Ok tt, d,
          evs ++ [Log ("File '"
                       +++ show_path
                             (build_tool_dll_of (engine_root P version d))
                       +++ "' not found.")]).
Proof.
  intros Hglob Hload Hver Htool.
  destruct (run_build_process_located P open_sln open_uproject d first others
              version Hglob Hload Hver) as (evs & Hs & Hd & Hst & Hrun).
  exists (located_events P first others version ++ evs).
  rewrite spawned_app, deletions_app, Hs, Hd.
  assert (Hloc : spawned (located_events P first others version) = []
                 /\ deletions (located_events P first others version) = []
                 /\ forall s, status_after s
                                (located_events P first others version) = s).
  { unfold located_events.
    destruct (1 <? length (first :: others))%nat; repeat split. }
  destruct Hloc as (Hs' & Hd' & Hst').
  rewrite Hs', Hd'. repeat split.
  - intros s. now rewrite status_after_app, Hst', Hst.
  - rewrite Hrun. apply try_except_ok.
    now rewrite build_with_engine_tool_missing.
Qed.

(** The project is found and the engine is looked for in the registry,
    which has no entry; the default engine folder does not exist. *)
Definition demo_default : platform := {|
  getcwd := ["C:"; "Proj"];
  environ_UNREAL_ENGINE_PATH := None;
  winreg_InstalledDirectory := fun _ => None;
  json_EngineAssociation := fun content => JsonValue (Some content);
  open_error := fun _ => "PermissionError";
  run_process := fun _ d => (Exited [] 0, d);
  rm_error := fun _ => None;
  listdir_error := fun _ => None;
  startfile_error := fun _ => None
|}.

(** A project whose artifacts are written in another case than the code
    writes them. *)
Definition demo_disk_other_case : node :=
  Dir [("C:", Dir
    [("Proj", Dir
       [("Game.uproject", File "5.3");
        ("binaries", Dir [("Win64", Dir [])]);
        ("SAVED", Dir []);
        ("Source", Dir []);
        ("game.SLN", File "");
        ("Plugins", Dir
           [("P1", Dir [("intermediate", Dir []);
                        ("Source", Dir [])])])])])].

(** The cleanup finds them all the same: what is left are the project
    file, the sources and the plugin. *)
Example cleanup_finds_names_in_any_case :
  let d' := disk_after (clean_files_and_folders demo_default
                          (getcwd demo_default) "Game" demo_disk_other_case) in
  names_at ["C:"; "Proj"] d' = ["Game.uproject"; "Source"; "Plugins"]
  /\ names_at ["C:"; "Proj"; "Plugins"; "P1"] d' = ["Source"].
Proof. split; reflexivity. Qed.

Lemma logged_last (evs : list event) (message : string) :
  last (logged (evs ++ [Log message])) "" = message.
Proof. rewrite logged_app. cbn [logged]. apply last_last. Qed.

(** C1, amended: when the compile pipeline has found the project and its
    engine version, and the file UnrealBuildTool.dll does not exist under
    the engine path of the fallback chain, the run ends without an
    exception, its last log line names the missing file, no process is
    started, and the status is left as the start of the run set it,
    "Compiling Editor...": it is not set to "Error". *)
Theorem missing_build_tool_stops_the_pipeline (P : platform)
    (open_sln open_uproject : bool) (d : node) (first : string)
    (others : list string) (version : string) (status : string) :
  uproject_files P d = first :: others ->
  outcome (load_EngineAssociation P (os_path_join (getcwd P) first) d)
    = Ok (Some version) ->
  version <> "" ->
  os_path_exists (build_tool_dll_of (engine_root P version d)) d = false ->
  let run := start_compile_thread P open_sln open_uproject d in
  outcome run = Ok tt
  /\ last (logged (events run)) ""
     = "File '" +++ show_path (build_tool_dll_of (engine_root P version d))
       +++ "' not found."
  /\ spawned (events run) = []
  /\ status_after status (events run) = "Compiling Editor...".
Proof.
  intros Hglob Hload Hver Htool run.
  destruct (run_build_process_tool_missing P open_sln open_uproject d first
              others version Hglob Hload Hver Htool)
    as (evs & Hs & Hd & Hst & Hrun).
  unfold run, start_compile_thread, run_compile.
  rewrite (bind_ok _ _ d d tt [StatusSet "Compiling Editor..."])
    by reflexivity.
  rewrite Hrun. cbn [after outcome events fst snd].
  repeat split.
  - change ([StatusSet "Compiling Editor..."]
            ++ evs ++ [Log ("File '"
                 +++ show_path (build_tool_dll_of (engine_root P version d))
                 +++ "' not found.")])
      with ((StatusSet "Compiling Editor..." :: evs)
            ++ [Log ("File '"
                 +++ show_path (build_tool_dll_of (engine_root P version d))
                 +++ "' not found.")]).
    apply logged_last.
  - cbn [app spawned]. now rewrite spawned_app, Hs.
  - cbn [app status_after fold_left].
    fold (status_after "Compiling Editor..."
            (evs ++ [Log ("File '"
                 +++ show_path (build_tool_dll_of (engine_root P version d))
                 +++ "' not found.")])).
    rewrite status_after_app, Hst. reflexivity.
Qed.

Lemma missing_build_tool_stops_the_pipeline_witness :
  uproject_files demo_default demo_disk = ["Game.uproject"]
  /\ outcome (load_EngineAssociation demo_default
                (os_path_join (getcwd demo_default) "Game.uproject")
                demo_disk) = Ok (Some "5.3")
  /\ ("5.3" = "" -> False)
  /\ os_path_exists
       (build_tool_dll_of (engine_root demo_default "5.3" demo_disk))
       demo_disk = false
  /\ (let run := start_compile_thread demo_default true true demo_disk in
      outcome run = Ok tt
      /\ last (logged (events run)) ""
         = "File '"
           +++ show_path
                 (build_tool_dll_of (engine_root demo_default "5.3" demo_disk))
           +++ "' not found."
      /\ spawned (events run) = []
      /\ status_after "Ready" (events run) = "Compiling Editor...").
Proof.
  split; [reflexivity|split; [reflexivity|split; [discriminate|split;
    [reflexivity|]]]].
  apply (missing_build_tool_stops_the_pipeline demo_default true true
           demo_disk "Game.uproject" [] "5.3" "Ready");
    [reflexivity|reflexivity|discriminate|reflexivity].
Defined.

(** C1 as stated fails: with the build tool missing, the status at the end
    of the run is "Compiling Editor...", not "Error". *)
Lemma missing_build_tool_status_is_not_error :
  os_path_exists
    (build_tool_dll_of (engine_root demo_default "5.3" demo_disk))
    demo_disk = false
  /\ status_after "Ready"
       (events (start_compile_thread demo_default true true demo_disk))
     = "Compiling Editor..."
  /\ (status_after "Ready"
        (events (start_compile_thread demo_default true true demo_disk))
      = "Error" -> False).
Proof. repeat split. discriminate. Qed.

(** C10: when the compile pipeline has found the project and its engine
    version, and the file UnrealBuildTool.dll does not exist under the
    engine path of the fallback chain, the run returns with the disk exactly
    as it was and without a single call of [shutil.rmtree] or [os.remove]:
    the check comes before the cleanup. *)
Theorem missing_build_tool_leaves_the_disk (P : platform)
    (open_sln open_uproject : bool) (d : node) (first : string)
    (others : list string) (version : string) :
  uproject_files P d = first :: others ->
  outcome (load_EngineAssociation P (os_path_join (getcwd P) first) d)
    = Ok (Some version) ->
  version <> "" ->
  os_path_exists (build_tool_dll_of (engine_root P version d)) d = false ->
  let run := run_build_process P open_sln open_uproject d in
  outcome run = Ok tt
  /\ disk_after run = d
  /\ deletions (events run) = [].
Proof.
  intros Hglob Hload Hver Htool run.
  destruct (run_build_process_tool_missing P open_sln open_uproject d first
              others version Hglob Hload Hver Htool)
    as (evs & Hs & Hd & Hst & Hrun).
  unfold run. rewrite Hrun. cbn [outcome disk_after events fst snd].
  repeat split. now rewrite deletions_app, Hd.
Qed.

Lemma missing_build_tool_leaves_the_disk_witness :
  uproject_files demo_default demo_disk = ["Game.uproject"]
  /\ outcome (load_EngineAssociation demo_default
                (os_path_join (getcwd demo_default) "Game.uproject")
                demo_disk) = Ok (Some "5.3")
  /\ ("5.3" = "" -> False)
  /\ os_path_exists
       (build_tool_dll_of (engine_root demo_default "5.3" demo_disk))
       demo_disk = false
  /\ (let run := run_build_process demo_default false false demo_disk in
      outcome run = Ok tt
      /\ disk_after run = demo_disk
      /\ deletions (events run) = []).
Proof.
  split; [reflexivity|split; [reflexivity|split; [discriminate|split;
    [reflexivity|]]]].
  apply (missing_build_tool_leaves_the_disk demo_default false false
           demo_disk "Game.uproject" [] "5.3");
    [reflexivity|reflexivity|discriminate|reflexivity].
Defined.

(** *** The streamed steps *)

(** No process is started. *)
Definition quiet (d d' : node) (evs : list event) : Prop := spawned evs = [].

Lemma quiet_refl (d : node) : quiet d d [].
Proof. reflexivity. Qed.

Lemma quiet_trans (d d1 d2 : node) (e1 e2 : list event) :
  quiet d d1 e1 -> quiet d1 d2 e2 -> quiet d d2 (e1 ++ e2).
Proof. unfold quiet. intros H1 H2. now rewrite spawned_app, H1, H2. Qed.

Lemma quiet_log (message : string) : holds quiet (log message).
Proof. intros d. reflexivity. Qed.

Lemma quiet_cleaning {A : Type} (ok : path -> Prop) (m : M A) :
  holds (cleaning ok) m -> holds quiet m.
Proof. intros H d. destruct (H d) as (_ & _ & S & _). exact S. Qed.

Lemma quiet_clean_files_and_folders (P : platform) (script_directory : path)
    (project_name : string) :
  holds quiet (clean_files_and_folders P script_directory project_name).
Proof.
  apply (quiet_cleaning (fun _ => True)).
  unfold clean_files_and_folders.
  apply (holds_bind _ (cleaning_trans _)); [apply cleaning_log|intros _].
  apply (holds_bind _ (cleaning_trans _)); [|intros _].
  { apply cleaning_for_each. intros p _. now apply cleaning_remove_folder. }
  apply (holds_bind _ (cleaning_trans _)); [apply cleaning_log|intros _].
  apply (holds_bind _ (cleaning_trans _)); [apply cleaning_glob|intros l].
  apply (holds_bind _ (cleaning_trans _)); [|intros _].
  { destruct l as [|project_file l].
    - apply (holds_ret _ (cleaning_refl _)).
    - apply cleaning_for_each. intros p _. now apply cleaning_remove_file. }
  apply (holds_bind _ (cleaning_trans _)); [|intros _; apply cleaning_log].
  eapply holds_cleaning_weaken; [|apply cleaning_clean_plugins_folder].
  trivial.
Qed.

Lemma quiet_open_afterwards (P : platform) (open_sln open_uproject : bool)
    (script_directory uproject_path : path) (project_name : string) :
  holds quiet (open_afterwards P open_sln open_uproject script_directory
                 uproject_path project_name).
Proof.
  assert (Hstart : forall p, holds quiet (os_startfile P p)).
  { intros p d. unfold os_startfile. now destruct (startfile_error P p). }
  unfold open_afterwards, isfile.
  apply (holds_bind _ quiet_trans); [|intros _].
  - apply (holds_when _ quiet_refl).
    apply (holds_bind _ quiet_trans); [apply (holds_pure _ quiet_refl)|].
    intros [|]; [|apply quiet_log].
    apply (holds_bind _ quiet_trans); [apply quiet_log|intros _; apply Hstart].
  - apply (holds_when _ quiet_refl).
    apply (holds_bind _ quiet_trans); [apply (holds_pure _ quiet_refl)|].
    intros [|]; [|apply quiet_log].
    apply (holds_bind _ quiet_trans); [apply quiet_log|intros _; apply Hstart].
Qed.

Lemma spawned_output_lines (stdout : list string) :
  spawned (output_lines stdout) = [].
Proof. unfold output_lines. induction (iter_readline stdout); auto. Qed.

Lemma spawned_run_command_stream (P : platform)
    (command start_message finish_message : string) (d : node) :
  spawned (events (run_command_stream P command start_message finish_message
                     d)) = [command].
Proof.
  rewrite run_command_stream_run. cbn [events snd app spawned]. f_equal.
  destruct (fst (run_process P command d)) as [stdout retcode|stdout e];
    rewrite spawned_app, spawned_output_lines; [|reflexivity].
  now destruct (retcode =? 0)%Z.
Qed.

Section Stages.

Variable P : platform.

(** The two streamed steps of a run, one after the other. *)
Definition regeneration (engine uproject : path) (d1 : node)
  : result unit * node * list event :=
  run_command_stream P
    (build_command_of (build_script_path_of engine) uproject)
    "Recreating SLN" "SLN file recreated successfully" d1.

Definition compilation (engine uproject : path) (target : string)
    (d1 : node) : result unit * node * list event :=
  run_command_stream P
    (compile_command_of (build_tool_dll_of engine) uproject target)
    "Compiling project" "Project compiled successfully"
    (disk_after (regeneration engine uproject d1)).

(** The calls of a run that starts no process, or of one that goes
    through both streamed steps. *)
Definition staged (evs : list event) : Prop :=
  spawned evs = []
  \/ exists pre post d1 engine uproject target,
       evs = pre
             ++ events (regeneration engine uproject d1)
             ++ [Log (NL +++ "=== Compiling the project ===");
                 Log ("Executing: "
                      +++ compile_command_of (build_tool_dll_of engine)
                            uproject target)]
             ++ events (compilation engine uproject target d1)
             ++ Log (NL +++ "Project files compiled successfully.") :: post
       /\ spawned pre = [] /\ spawned post = [].

Lemma staged_prepend (pre0 evs : list event) :
  spawned pre0 = [] -> staged evs -> staged (pre0 ++ evs).
Proof.
  intros H0 [Hq|(pre & post & d1 & engine & uproject & target & -> & Hpre & Hpost)].
  - left. now rewrite spawned_app, H0, Hq.
  - right. exists (pre0 ++ pre), post, d1, engine, uproject, target.
    rewrite <- app_assoc. repeat split; [|assumption].
    now rewrite spawned_app, H0, Hpre.
Qed.

Lemma staged_append (evs post0 : list event) :
  spawned post0 = [] -> staged evs -> staged (evs ++ post0).
Proof.
  intros H0 [Hq|(pre & post & d1 & engine & uproject & target & -> & Hpre & Hpost)].
  - left. now rewrite spawned_app, H0, Hq.
  - right. exists pre, (post ++ post0), d1, engine, uproject, target.
    repeat split; [|assumption|now rewrite spawned_app, H0, Hpost].
    rewrite <- !app_assoc. reflexivity.
Qed.

Definition stages {A : Type} (m : M A) : Prop :=
  forall d, staged (events (m d)).

Lemma stages_quiet {A : Type} (m : M A) : holds quiet m -> stages m.
Proof. intros H d. left. apply H. Qed.

Lemma stages_bind {A B : Type} (m : M A) (f : A -> M B) :
  holds quiet m -> (forall a, stages (f a)) -> stages (bind m f).
Proof.
  intros Hm Hf d. specialize (Hm d). unfold quiet in Hm. unfold bind.
  destruct (m d) as [[[a|e|] d1] ev1]; cbn [events snd] in *;
    try (left; assumption).
  specialize (Hf a d1). destruct (f a d1) as [[r d2] ev2].
  cbn [events snd] in *. now apply staged_prepend.
Qed.

Lemma stages_try_except {A : Type} (body : M A) (handler : string -> M A) :
  stages body -> (forall e, holds quiet (handler e)) ->
  stages (try_except body handler).
Proof.
  intros Hb Hh d. specialize (Hb d). unfold try_except.
  destruct (body d) as [[[a|e|] d1] ev1]; cbn [events snd] in *;
    try assumption.
  specialize (Hh e d1). unfold quiet in Hh.
  destruct (handler e d1) as [[r d2] ev2]. cbn [events snd] in *.
  now apply staged_append.
Qed.

(** Once the regeneration step starts, the compile step follows, and the
    closing line after it. *)
Lemma stages_streamed_steps (open_sln open_uproject : bool)
    (script_directory uproject_path unreal_engine_path : path)
    (project_name target_name : string) :
  stages
    (run_command_stream P
       (build_command_of (build_script_path_of unreal_engine_path)
          uproject_path)
       "Recreating SLN" "SLN file recreated successfully" ;;
     log (NL +++ "=== Compiling the project ===") ;;
     log ("Executing: "
          +++ compile_command_of (build_tool_dll_of unreal_engine_path)
                uproject_path target_name) ;;
     run_command_stream P
       (compile_command_of (build_tool_dll_of unreal_engine_path)
          uproject_path target_name)
       "Compiling project" "Project compiled successfully" ;;
     log (NL +++ "Project files compiled successfully.") ;;
     open_afterwards P open_sln open_uproject script_directory uproject_path
       project_name).
Proof.
  intros d1. right.
  exists [],
    (events (open_afterwards P open_sln open_uproject script_directory
               uproject_path project_name
               (disk_after
                  (compilation unreal_engine_path uproject_path target_name
                     d1)))),
    d1, unreal_engine_path, uproject_path, target_name.
  split; [|split; [reflexivity|apply quiet_open_afterwards]].
  unfold compilation, regeneration.
  set (bc := build_command_of (build_script_path_of unreal_engine_path)
               uproject_path).
  set (cc := compile_command_of (build_tool_dll_of unreal_engine_path)
               uproject_path target_name).
  rewrite (triple_eta
             (run_command_stream P bc "Recreating SLN"
                "SLN file recreated successfully" d1)) at 1.
  assert (Ho : forall c s f d,
            outcome (run_command_stream P c s f d) = Ok tt)
    by (intros; now rewrite run_command_stream_run).
  erewrite bind_ok; [|rewrite (triple_eta (run_command_stream P bc _ _ d1));
                      rewrite Ho; reflexivity].
  set (d2 := disk_after (run_command_stream P bc "Recreating SLN"
                           "SLN file recreated successfully" d1)).
  rewrite (bind_ok _ _ d2 d2 tt [Log (NL +++ "=== Compiling the project ===")])
    by reflexivity.
  rewrite (bind_ok _ _ d2 d2 tt [Log ("Executing: " +++ cc)]) by reflexivity.
  erewrite bind_ok; [|rewrite (triple_eta (run_command_stream P cc _ _ d2));
                      rewrite Ho; reflexivity].
  set (d3 := disk_after (run_command_stream P cc "Compiling project"
                           "Project compiled successfully" d2)).
  rewrite (bind_ok _ _ d3 d3 tt
             [Log (NL +++ "Project files compiled successfully.")])
    by reflexivity.
  rewrite !events_after. cbn [app]. reflexivity.
Qed.

Lemma stages_build_with_engine (open_sln open_uproject : bool)
    (script_directory uproject_path unreal_engine_path : path)
    (project_name target_name : string) :
  stages (build_with_engine P open_sln open_uproject script_directory
            uproject_path unreal_engine_path project_name target_name).
Proof.
  unfold build_with_engine, exists_.
  apply stages_bind; [apply (holds_pure _ quiet_refl)|intros tool_found].
  destruct (negb tool_found); [apply stages_quiet, quiet_log|].
  apply stages_bind; [apply quiet_log|intros _].
  apply stages_bind; [apply quiet_clean_files_and_folders|intros _].
  apply stages_bind; [apply (holds_pure _ quiet_refl)|intros script_found].
  destruct (negb script_found); [apply stages_quiet, quiet_log|].
  apply stages_bind; [apply quiet_log|intros _].
  apply stages_bind; [apply quiet_log|intros _].
  apply stages_streamed_steps.
Qed.

Lemma quiet_load_EngineAssociation (p : path) :
  holds quiet (load_EngineAssociation P p).
Proof. intros d. now rewrite load_EngineAssociation_run. Qed.

Lemma quiet_resolve_engine_path (version : string) :
  holds quiet (resolve_engine_path P version).
Proof.
  intros d. destruct (resolve_engine_path_run P version d) as (evs & -> & H & _).
  exact H.
Qed.

(** Every run of the compile pipeline starts no process or goes through
    both streamed steps. *)
Lemma stages_run_build_process (open_sln open_uproject : bool) :
  stages (run_build_process P open_sln open_uproject).
Proof.
  unfold run_build_process.
  apply stages_try_except; [|intros e; apply quiet_log].
  apply stages_bind; [apply (holds_pure _ quiet_refl)|intros uproject_files].
  destruct uproject_files as [|first others]; [apply stages_quiet, quiet_log|].
  apply stages_bind; [apply (holds_when _ quiet_refl), quiet_log|intros _].
  apply stages_bind; [apply quiet_log|intros _].
  apply stages_bind; [apply quiet_load_EngineAssociation|intros engine_version].
  destruct engine_version as [[|c version]|];
    try (apply stages_quiet, quiet_log).
  apply stages_bind; [apply quiet_log|intros _].
  apply stages_bind; [apply quiet_log|intros _].
  apply stages_bind; [apply quiet_resolve_engine_path|intros unreal_engine_path].
  apply stages_build_with_engine.
Qed.

End Stages.

(** C9: in every run of the compile pipeline in which the compile command
    is started, the line "Project files compiled successfully." is logged
    right after the calls of the compile step, whatever the compile command
    returned: when it exits with a code other than 0 the line comes straight
    after the status Error and the line with the exit code, and when
    starting or reading it raises, straight after the error line and the
    status Error. *)
Theorem success_line_follows_compilation (P : platform)
    (open_sln open_uproject : bool) (d : node) :
  let evs := events (run_build_process P open_sln open_uproject d) in
  let success := Log (NL +++ "Project files compiled successfully.") in
  spawned evs = []
  \/ exists pre post d1 engine uproject target,
       let build_command :=
         build_command_of (build_script_path_of engine) uproject in
       let compile_command :=
         compile_command_of (build_tool_dll_of engine) uproject target in
       let d2 := disk_after (regeneration P engine uproject d1) in
       evs = pre
             ++ events (compilation P engine uproject target d1)
             ++ success :: post
       /\ spawned pre = [build_command]
       /\ spawned post = []
       /\ (forall stdout retcode,
             fst (run_process P compile_command d2) = Exited stdout retcode ->
             (retcode =? 0)%Z = false ->
             exists before,
               evs = before
                     ++ [StatusSet "Error";
                         Log ("Error: command returned exit code "
                              +++ show_Z retcode);
                         success]
                     ++ post)
       /\ (forall stdout e,
             fst (run_process P compile_command d2) = Failed stdout e ->
             exists before,
               evs = before
                     ++ [Log ("Error: " +++ e); StatusSet "Error"; success]
                     ++ post).
Proof.
  intros evs success.
  destruct (stages_run_build_process P open_sln open_uproject d)
    as [Hq|(pre & post & d1 & engine & uproject & target & Hevs & Hpre & Hpost)];
    [now left|right].
  fold evs in Hevs. fold success in Hevs.
  exists (pre ++ events (regeneration P engine uproject d1)
          ++ [Log (NL +++ "=== Compiling the project ===");
              Log ("Executing: "
                   +++ compile_command_of (build_tool_dll_of engine) uproject
                         target)]),
    post, d1, engine, uproject, target.
  cbv zeta.
  split; [|split; [|split; [exact Hpost|split]]].
  - rewrite Hevs. rewrite <- !app_assoc. reflexivity.
  - rewrite !spawned_app, Hpre. unfold regeneration.
    rewrite spawned_run_command_stream. reflexivity.
  - intros stdout retcode Hexit Hcode. rewrite Hevs.
    unfold compilation at 1.
    rewrite (run_command_stream_run P _ _ _
               (disk_after (regeneration P engine uproject d1))).
    rewrite Hexit, Hcode. cbn [events snd].
    match goal with
    | |- exists before, pre ++ ?R ++ ?L ++ (?H ++ ?O ++ _) ++ _ = _ =>
        exists (pre ++ R ++ L ++ H ++ O)
    end.
    rewrite <- !app_assoc. reflexivity.
  - intros stdout e Hfail. rewrite Hevs.
    unfold compilation at 1.
    rewrite (run_command_stream_run P _ _ _
               (disk_after (regeneration P engine uproject d1))).
    rewrite Hfail. cbn [events snd].
    match goal with
    | |- exists before, pre ++ ?R ++ ?L ++ (?H ++ ?O ++ _) ++ _ = _ =>
        exists (pre ++ R ++ L ++ H ++ O)
    end.
    rewrite <- !app_assoc. reflexivity.
Qed.

(** *** The cleanup runs to its end unless a directory cannot be listed *)

Lemma outcome_bind {A B : Type} (m : M A) (f : A -> M B) (d : node) :
  outcome (bind m f d)
  = match outcome (m d) with
    | Ok a => outcome (f a (disk_after (m d)))
    | Raise e => Raise e
    | OutOfFuel => OutOfFuel
    end.
Proof.
  unfold bind. destruct (m d) as [[[a|e|] d1] ev1]; try reflexivity.
  cbn [outcome disk_after fst snd]. now destruct (f a d1) as [[r d2] ev2].
Qed.

Lemma disk_after_bind {A B : Type} (m : M A) (f : A -> M B) (d : node)
    (a : A) :
  outcome (m d) = Ok a ->
  disk_after (bind m f d) = disk_after (f a (disk_after (m d))).
Proof.
  unfold bind. destruct (m d) as [[[a'|e|] d1] ev1]; try discriminate.
  cbn [outcome disk_after fst snd]. intros H. injection H as ->.
  now destruct (f a d1) as [[r d2] ev2].
Qed.

Section Completion.

Variable P : platform.

Lemma remove_folder_returns (p : path) (d : node) :
  outcome (remove_folder P p d) = Ok tt.
Proof.
  unfold remove_folder, isdir, bind, when, try_except, shutil_rmtree.
  destruct (os_path_isdir p d); [|reflexivity].
  now destruct (rm_error P p).
Qed.

Lemma remove_file_returns (p : path) (d : node) :
  outcome (remove_file P p d) = Ok tt.
Proof.
  unfold remove_file, isfile, bind, when, try_except, os_remove.
  destruct (os_path_isfile p d); [|reflexivity].
  now destruct (rm_error P p).
Qed.

Lemma for_each_returns {A : Type} (l : list A) (body : A -> M unit) :
  (forall x d, outcome (body x d) = Ok tt) ->
  forall d, outcome (for_each l body d) = Ok tt.
Proof.
  intros Hb. induction l as [|x l IH]; intros d; [reflexivity|].
  cbn [for_each]. rewrite outcome_bind, Hb. apply IH.
Qed.

(** A result of the directory walk that is no surprise: it is not the
    recursion bound, and an exception is one that [os.listdir] raised. *)
Definition walked (r : result unit) : Prop :=
  match r with
  | Ok _ => True
  | Raise e => exists p, listdir_error P p = Some e
  | OutOfFuel => False
  end.

Lemma isdir_stat (p : path) (d : node) :
  os_path_isdir p d = true <-> p <> [] /\ stat p d = Some IsDir.
Proof.
  unfold os_path_isdir, stat. destruct p as [|x p].
  - split; [discriminate|]. intros [H _]. congruence.
  - destruct (lookup (x :: p) d) as [[c|es]|]; cbn [option_map shape_of];
      split; try discriminate; try (intros [_ H]; discriminate).
    + intros _. split; [discriminate|reflexivity].
    + reflexivity.
Qed.

Lemma named_under_not_above (directory : path) (names : list string)
    (t : path) :
  named_under directory names t -> below t directory = false.
Proof.
  intros (sub & name & _ & ->). apply below_longer. now destruct sub.
Qed.

Lemma listdir_of_directory (directory : path) (d : node) :
  os_path_isdir directory d = true ->
  listdir_error P directory = None ->
  exists names, os_listdir P directory d = (Ok names, d, []).
Proof.
  intros Hdir Herr. unfold os_listdir. rewrite Herr.
  unfold os_path_isdir in Hdir.
  destruct directory as [|x p]; [discriminate|].
  destruct (lookup (x :: p) d) as [[c|es]|]; try discriminate.
  now exists (map fst es).
Qed.

Lemma walk_entries (folders files : list string) (fuel : nat)
    (directory : path) :
  (forall directory' d',
     height_at directory' d' < fuel ->
     os_path_isdir directory' d' = true ->
     walked (outcome (remove_items_rec P fuel directory' folders files d'))) ->
  forall entries d,
    height_at directory d <= fuel ->
    walked
      (outcome
         (for_each entries
            (fun entry =>
               let entry_path := os_path_join directory entry in
               is_dir <- isdir entry_path ;;
               when is_dir
                 (remove_items_rec P fuel entry_path folders files)) d)).
Proof.
  intros IH. induction entries as [|entry entries IHe]; intros d Hh;
    [exact I|].
  cbn [for_each]. rewrite outcome_bind.
  set (body := (is_dir <- isdir (os_path_join directory entry) ;;
                when is_dir
                  (remove_items_rec P fuel (os_path_join directory entry)
                     folders files))).
  assert (Hbody : walked (outcome (body d))).
  { unfold body. rewrite outcome_bind. cbn [isdir outcome disk_after fst snd].
    destruct (os_path_isdir (os_path_join directory entry) d) eqn:E;
      [|exact I].
    cbn [when]. apply IH; [|exact E].
    pose proof (height_at_child directory entry d E). unfold os_path_join.
    lia. }
  assert (Hshrink : height_at directory (disk_after (body d))
                    <= height_at directory d).
  { assert (Hc : holds (cleaning (fun _ => True)) body).
    { unfold body, isdir.
      apply (holds_bind _ (cleaning_trans _));
        [apply (holds_pure _ (cleaning_refl _))|intros b].
      apply (holds_when _ (cleaning_refl _)).
      eapply holds_cleaning_weaken; [|apply cleaning_remove_items_rec].
      trivial. }
    destruct (Hc d) as (_ & _ & _ & H & _). apply H. }
  destruct (outcome (body d)) as [[]|e|] eqn:Eo; try exact Hbody.
  apply IHe. lia.
Qed.

(** With enough fuel for the levels below [directory], the walk of a
    directory ends, and with no other exception than one of [os.listdir]. *)
Lemma remove_items_rec_walked (folders files : list string) (fuel : nat) :
  forall directory d,
    height_at directory d < fuel ->
    os_path_isdir directory d = true ->
    walked (outcome (remove_items_rec P fuel directory folders files d)).
Proof.
  induction fuel as [|fuel IH]; intros directory d Hh Hdir; [lia|].
  cbn [remove_items_rec].
  set (loop1 := for_each folders
                  (fun folder => remove_folder P (os_path_join directory folder))).
  set (loop2 := for_each files
                  (fun file => remove_file P (os_path_join directory file))).
  assert (H1 : outcome (loop1 d) = Ok tt)
    by (apply for_each_returns; intros; apply remove_folder_returns).
  set (d1 := disk_after (loop1 d)).
  assert (H2 : outcome (loop2 d1) = Ok tt)
    by (apply for_each_returns; intros; apply remove_file_returns).
  set (d2 := disk_after (loop2 d1)).
  assert (C1 : cleaning (named_under directory (folders ++ files)) d d1
                 (events (loop1 d))).
  { apply cleaning_for_each. intros folder Hin. apply cleaning_remove_folder.
    exists [], folder. split; [apply in_or_app; now left|reflexivity]. }
  assert (C2 : cleaning (named_under directory (folders ++ files)) d1 d2
                 (events (loop2 d1))).
  { apply cleaning_for_each. intros file Hin. apply cleaning_remove_file.
    exists [], file. split; [apply in_or_app; now right|reflexivity]. }
  pose proof (cleaning_trans _ _ _ _ _ _ C1 C2) as (T & F & _ & H & _).
  assert (Hdir2 : os_path_isdir directory d2 = true).
  { apply isdir_stat. apply isdir_stat in Hdir as [Hne Hst].
    split; [exact Hne|]. rewrite F; [exact Hst|].
    intros t Ht. eapply named_under_not_above. apply T, Ht. }
  assert (Hh2 : height_at directory d2 <= fuel)
    by (specialize (H directory); lia).
  rewrite outcome_bind. fold loop1. rewrite H1. fold d1.
  rewrite outcome_bind. fold loop2. rewrite H2. fold d2.
  rewrite outcome_bind.
  destruct (listdir_error P directory) as [e|] eqn:Eerr.
  - unfold os_listdir. rewrite Eerr. cbn [outcome fst]. now exists directory.
  - destruct (listdir_of_directory directory d2 Hdir2 Eerr) as [names Hls].
    rewrite Hls. cbn [outcome disk_after fst snd].
    apply walk_entries; [|exact Hh2].
    intros directory' d' Hh' Hdir'. now apply IH.
Qed.

(** [remove_items_recursively] never stops at its recursion bound. *)
Lemma remove_items_recursively_fuel (directory : path)
    (folders files : list string) (d : node) :
  os_path_isdir directory d = true ->
  walked (outcome (remove_items_recursively P directory folders files d)).
Proof.
  intros Hdir. unfold remove_items_recursively.
  apply remove_items_rec_walked; [lia|exact Hdir].
Qed.

(** Whatever deletions fail, the cleanup returns or raises an exception of
    [os.listdir]. *)
Lemma clean_files_and_folders_walked (script_directory : path)
    (project_name : string) (d : node) :
  walked (outcome (clean_files_and_folders P script_directory project_name d)).
Proof.
  unfold clean_files_and_folders.
  rewrite outcome_bind. cbn [log tell outcome disk_after fst snd].
  rewrite outcome_bind, for_each_returns
    by (intros; apply remove_folder_returns).
  rewrite outcome_bind. cbn [log tell outcome disk_after fst snd].
  rewrite outcome_bind. cbn [glob_uproject outcome disk_after fst snd].
  set (d1 := disk_after (for_each _ _ d)).
  rewrite outcome_bind.
  set (files_pass := match filter is_uproject (names_at (getcwd P) d1) with
                     | [] => ret tt
                     | project_file :: _ => _
                     end).
  assert (Hfiles : outcome (files_pass d1) = Ok tt).
  { unfold files_pass.
    destruct (filter is_uproject (names_at (getcwd P) d1)); [reflexivity|].
    apply for_each_returns. intros; apply remove_file_returns. }
  rewrite Hfiles. set (d2 := disk_after (files_pass d1)).
  rewrite outcome_bind.
  assert (Hplugins :
    walked (outcome (clean_plugins_folder P script_directory project_name d2))).
  { unfold clean_plugins_folder. rewrite outcome_bind.
    cbn [isdir outcome disk_after fst snd].
    destruct (os_path_isdir (os_path_join script_directory "Plugins") d2)
      eqn:E; cbn [negb]; [|exact I].
    rewrite outcome_bind. cbn [log tell outcome disk_after fst snd].
    now apply remove_items_recursively_fuel. }
  destruct (outcome (clean_plugins_folder P script_directory project_name d2))
    as [[]|e|]; exact Hplugins.
Qed.

(** If every directory can be listed, the cleanup runs to its end, whatever
    deletions fail. *)
Lemma clean_files_and_folders_completes (script_directory : path)
    (project_name : string) (d : node) :
  (forall p, listdir_error P p = None) ->
  outcome (clean_files_and_folders P script_directory project_name d) = Ok tt.
Proof.
  intros Hls.
  pose proof (clean_files_and_folders_walked script_directory project_name d)
    as H.
  destruct (outcome (clean_files_and_folders P script_directory project_name d))
    as [[]|e|]; [reflexivity| |contradiction].
  destruct H as [p Hp]. rewrite Hls in Hp. discriminate.
Qed.

End Completion.

(** The plugin folder [C:\Proj\Plugins\P1] cannot be listed; all the rest
    is as in [demo]. *)
Definition demo_locked : platform := {|
  getcwd := ["C:"; "Proj"];
  environ_UNREAL_ENGINE_PATH := Some ["C:"; "UE"];
  winreg_InstalledDirectory := fun _ => None;
  json_EngineAssociation := fun content => JsonValue (Some content);
  open_error := fun _ => "PermissionError";
  run_process := fun _ d => (Exited [] 0, d);
  rm_error := fun _ => None;
  listdir_error := fun p =>
    if list_eq_dec string_dec p ["C:"; "Proj"; "Plugins"; "P1"]
    then Some "PermissionError" else None;
  startfile_error := fun _ => None
|}.

(** The project file of [demo_disk] cannot be read as JSON. *)
Definition demo_unreadable : platform := {|
  getcwd := ["C:"; "Proj"];
  environ_UNREAL_ENGINE_PATH := Some ["C:"; "UE"];
  winreg_InstalledDirectory := fun _ => None;
  json_EngineAssociation := fun _ => JsonError "Expecting value";
  open_error := fun _ => "PermissionError";
  run_process := fun _ d => (Exited [] 0, d);
  rm_error := fun _ => None;
  listdir_error := fun _ => None;
  startfile_error := fun _ => None
|}.

(** C3, where the code departs from it: a plugin folder that cannot be
    listed makes [os.listdir] raise outside every [try], so the cleanup
    raises to its caller before its closing line; the pipeline then logs the
    error and ends without starting the regeneration or the compile
    command. *)
Theorem cleanup_raises_when_listing_fails :
  let run :=
    clean_files_and_folders demo_locked (getcwd demo_locked) "Game" demo_disk in
  let pipeline := run_build_process demo_locked false false demo_disk in
  outcome run = Raise "PermissionError"
  /\ last (logged (events run)) ""
     = "Removed folder: C:\Proj\Plugins\P1\Intermediate"
  /\ (In "Cleanup completed successfully!" (logged (events run)) -> False)
  /\ last (logged (events pipeline)) "" = "Error: PermissionError"
  /\ spawned (events pipeline) = [].
Proof.
  cbv zeta. split; [reflexivity|split; [reflexivity|split;
    [|split; reflexivity]]].
  vm_compute. intuition discriminate.
Qed.

(** The pipeline on [demo]: both commands exit with code 3 and both are
    started, the solution file that cannot be removed is logged and the
    cleanup goes on, and the closing line is logged. *)
Example demo_run :
  let run := start_compile_thread demo false false demo_disk in
  outcome run = Ok tt
  /\ length (spawned (events run)) = 2
  /\ In (Log "Error removing file C:\Proj\Game.sln: PermissionError")
        (events run)
  /\ In (Log "Removed folder: C:\Proj\Plugins\P1\Intermediate") (events run)
  /\ last (logged (events run)) ""
     = NL +++ "Project files compiled successfully."
  /\ status_after "Ready" (events run) = "Error".
Proof.
  cbv zeta. split; [reflexivity|split; [reflexivity|split; [|split;
    [|split; reflexivity]]]]; vm_compute; tauto.
Qed.

End HelperFacts.

(** * Further properties of the code *)

(** ** Names and lines *)

Module StringFacts.

Import Disk NT Helper HelperFacts Packager.

(** The newline character. *)
Definition nl : ascii := ascii_of_nat 10.

Lemma lstrip_nl_split (l : list ascii) :
  exists k, l = repeat nl k ++ lstrip_nl l
            /\ (forall rest, lstrip_nl l = nl :: rest -> False).
Proof.
  induction l as [|c l IH].
  - exists 0. split; [reflexivity|discriminate].
  - cbn [lstrip_nl]. fold nl. destruct (c =? nl)%char eqn:E.
    + apply Ascii.eqb_eq in E. subst c.
      destruct IH as (k & Hk & Hhd). exists (S k). split; [|exact Hhd].
      cbn [repeat app]. now rewrite <- Hk.
    + exists 0. split; [reflexivity|].
      intros rest H. injection H as -> _. now rewrite Ascii.eqb_refl in E.
Qed.

Lemma rev_repeat {A : Type} (x : A) (k : nat) : rev (repeat x k) = repeat x k.
Proof.
  induction k as [|k IH]; [reflexivity|].
  cbn [repeat rev]. rewrite IH. clear IH.
  induction k as [|k IH]; [reflexivity|]. cbn [repeat app]. now rewrite IH.
Qed.

(** X1: [line.rstrip("\n")] cuts a line into what is kept and a run of
    newlines, and what is kept does not end with a newline: a line of output
    is logged whole except for the newlines at its end. *)
Theorem rstrip_nl_cuts_the_newlines (line : string) :
  (exists k,
     line = rstrip_nl line +++ string_of_list_ascii (repeat nl k))
  /\ endswith (rstrip_nl line) NL = false
  /\ rstrip_nl (rstrip_nl line) = rstrip_nl line.
Proof.
  unfold rstrip_nl.
  destruct (lstrip_nl_split (rev (list_ascii_of_string line)))
    as (k & Hk & Hhd).
  set (kept := lstrip_nl (rev (list_ascii_of_string line))) in *.
  assert (Hline : list_ascii_of_string line = rev kept ++ repeat nl k).
  { rewrite <- (rev_involutive (list_ascii_of_string line)), Hk.
    now rewrite rev_app_distr, rev_repeat. }
  assert (Hkept : lstrip_nl kept = kept).
  { destruct kept as [|c kept']; [reflexivity|]. cbn [lstrip_nl]. fold nl.
    destruct (c =? nl)%char eqn:E; [|reflexivity].
    apply Ascii.eqb_eq in E. subst c. exfalso. now apply (Hhd kept'). }
  split; [|split].
  - exists k. rewrite <- AnsiFacts.string_of_list_ascii_app, <- Hline.
    now rewrite string_of_list_ascii_of_string.
  - unfold endswith. rewrite list_ascii_of_string_of_list_ascii, rev_involutive.
    destruct kept as [|c kept']; [reflexivity|].
    change (rev (list_ascii_of_string NL)) with [nl]. cbn [starts_with].
    destruct (nl =? c)%char eqn:E; [|reflexivity].
    apply Ascii.eqb_eq in E. subst c. exfalso. now apply (Hhd kept').
  - rewrite list_ascii_of_string_of_list_ascii, rev_involutive.
    now rewrite Hkept.
Qed.

Lemma starts_with_split (p l : list ascii) :
  starts_with p l = true -> exists r, l = p ++ r.
Proof.
  revert l. induction p as [|a p IH]; intros l H; [now exists l|].
  destruct l as [|b l]; [discriminate|]. cbn [starts_with] in H.
  apply andb_true_iff in H as [Hab H]. apply Ascii.eqb_eq in Hab. subst b.
  destruct (IH _ H) as [r ->]. now exists r.
Qed.

Lemma rfind_dot_app (a b : list ascii) :
  forall i best,
    rfind_dot (a ++ b) i best
    = rfind_dot b (i + length a) (rfind_dot a i best).
Proof.
  induction a as [|c a IH]; intros i best; cbn [app rfind_dot length].
  - now rewrite Nat.add_0_r.
  - rewrite IH. f_equal. lia.
Qed.

Lemma lower_dot (c : ascii) : lower c = "."%char -> c = "."%char.
Proof.
  destruct c as [[] [] [] [] [] [] [] []]; intros H; try discriminate H;
    reflexivity.
Qed.

Lemma not_dot (c e : ascii) :
  lower c = e -> e <> "."%char -> (c =? ".")%char = false.
Proof.
  intros H He. apply Ascii.eqb_neq. intros ->. now apply He.
Qed.

(** X2: a file name that [glob] takes for a project file is the project
    name followed by the extension, which is [.uproject] in some case of its
    letters: [os.path.splitext] cuts the name at the dot of the extension,
    and what stands before it is not empty. *)
Theorem project_name_of_uproject_file (name : string) :
  is_uproject name = true ->
  exists extension,
    name = splitext_root name +++ extension
    /\ normcase extension = ".uproject"
    /\ splitext_root name <> "".
Proof.
  unfold is_uproject, endswith. intros H.
  apply andb_true_iff in H as [Hend Hdot]. apply negb_true_iff in Hdot.
  apply starts_with_split in Hend as [r Hr].
  assert (Hl : map lower (list_ascii_of_string name)
               = rev r ++ list_ascii_of_string ".uproject").
  { rewrite <- (rev_involutive (map lower (list_ascii_of_string name))).
    unfold normcase in Hr. rewrite list_ascii_of_string_of_list_ascii in Hr.
    rewrite Hr. now rewrite rev_app_distr, rev_involutive. }
  apply map_eq_app in Hl as (l1 & l2 & Hname & _ & Hext).
  destruct l2 as [|c0 [|c1 [|c2 [|c3 [|c4 [|c5 [|c6 [|c7 [|c8 [|c9 l2]]]]]]]]]];
    try discriminate Hext.
  cbn [map list_ascii_of_string] in Hext.
  injection Hext as H0 H1 H2 H3 H4 H5 H6 H7 H8.
  apply lower_dot in H0. subst c0.
  exists (string_of_list_ascii ["."%char; c1; c2; c3; c4; c5; c6; c7; c8]).
  assert (Hsplit : name = string_of_list_ascii l1
                          +++ string_of_list_ascii
                                ["."%char; c1; c2; c3; c4; c5; c6; c7; c8]).
  { rewrite <- (string_of_list_ascii_of_string name), Hname.
    now rewrite AnsiFacts.string_of_list_ascii_app. }
  destruct l1 as [|c s] eqn:El1.
  { rewrite Hsplit in Hdot. discriminate. }
  assert (Hc : (c =? ".")%char = false).
  { rewrite Hsplit in Hdot. cbn in Hdot.
    destruct (Ascii.ascii_dec "." c) as [<-|Hne].
    - now destruct (string_of_list_ascii s +++ _).
    - now apply Ascii.eqb_neq. }
  assert (Hroot : splitext_root name = string_of_list_ascii (c :: s)).
  { unfold splitext_root. rewrite Hname, rfind_dot_app.
    cbn [rfind_dot]. rewrite Ascii.eqb_refl.
    rewrite (not_dot _ _ H1), (not_dot _ _ H2), (not_dot _ _ H3),
      (not_dot _ _ H4), (not_dot _ _ H5), (not_dot _ _ H6),
      (not_dot _ _ H7), (not_dot _ _ H8) by discriminate.
    rewrite Nat.add_0_l.
    rewrite firstn_app, Nat.sub_diag, firstn_all. cbn [firstn].
    rewrite app_nil_r. cbn [existsb]. rewrite Hc. reflexivity. }
  rewrite Hroot. split; [exact Hsplit|]. split; [|discriminate].
  unfold normcase. rewrite list_ascii_of_string_of_list_ascii.
  cbn [map]. rewrite H1, H2, H3, H4, H5, H6, H7, H8. reflexivity.
Qed.

Lemma project_name_of_uproject_file_witness :
  is_uproject "Game.UPROJECT" = true
  /\ splitext_root "Game.UPROJECT" = "Game"
  /\ exists extension,
       "Game.UPROJECT" = splitext_root "Game.UPROJECT" +++ extension
       /\ normcase extension = ".uproject"
       /\ splitext_root "Game.UPROJECT" <> "".
Proof.
  split; [reflexivity|]. split; [reflexivity|].
  apply (project_name_of_uproject_file "Game.UPROJECT"). reflexivity.
Defined.

End StringFacts.

(** ** Colours and the widget *)

Module RenderFacts.

Import Ansi AnsiFacts LogChannel LogChannelFacts Packager.

(** A colour is none or a tag of [ANSI_COLORS]. *)
Definition known_color (color : option string) : Prop :=
  match color with
  | None => True
  | Some tag => In tag (map snd ANSI_COLORS)
  end.

Lemma dict_get_value (d : list (string * string)) (k v : string) :
  dict_get d k = Some v -> In v (map snd d).
Proof.
  induction d as [|[k' v'] d IH]; cbn [dict_get map snd In]; [discriminate|].
  destruct (k' =? k)%string.
  - intros H. injection H as ->. now left.
  - intros H. right. now apply IH.
Qed.

Lemma apply_code_known (color : option string) (c : list ascii) :
  known_color color -> known_color (apply_code color c).
Proof.
  intros H. unfold apply_code.
  destruct (string_of_list_ascii c =? "0")%string; [exact I|].
  destruct (dict_get ANSI_COLORS (string_of_list_ascii c)) as [tag|] eqn:E;
    [|exact H].
  eapply dict_get_value. exact E.
Qed.

Lemma process_code_known (color : option string) (e : list ascii) :
  known_color color -> known_color (process_code color e).
Proof.
  unfold process_code.
  generalize (split_semi (slice e 2 (length e - 1))) as codes.
  intros codes. revert color.
  induction codes as [|c codes IH]; intros color H; [exact H|].
  cbn [fold_left]. apply IH. now apply apply_code_known.
Qed.

Lemma spec_segments_known (l : list ascii) :
  forall skip pending color,
    known_color color ->
    Forall (fun s : segment => known_color (snd s))
           (spec_segments skip pending color l).
Proof.
  assert (Hemit : forall pending color,
            known_color color ->
            Forall (fun s : segment => known_color (snd s))
                   (emit pending color)).
  { intros [|c pending] color H; cbn [emit]; repeat constructor. exact H. }
  induction l as [|c tl IH]; intros skip pending color H.
  - now apply Hemit.
  - cbn [spec_segments]. destruct skip as [|k]; [|now apply IH].
    destruct (match_here (c :: tl)) as [n|]; [|now apply IH].
    apply Forall_app. split; [now apply Hemit|].
    apply IH. now apply process_code_known.
Qed.

(** X3: every colour tag that [parse_ansi] gives to a segment is one of the
    eight tags that [configure_ansi_tags] sets up in the text widget, so an
    insert never names a tag the widget does not know. *)
Theorem parse_ansi_tags_are_configured (text : string) :
  Forall (fun s => match snd s with
                   | None => True
                   | Some tag => In tag (map fst configure_ansi_tags)
                   end)
         (parse_ansi text).
Proof.
  unfold parse_ansi. rewrite parse_ansi_chars_spec.
  apply Forall_map.
  eapply Forall_impl; [|apply (spec_segments_known _ 0 [] None I)].
  intros [seg color] H. exact H.
Qed.

(** The text put in the widget by a list of calls. *)
Fixpoint inserted_text (calls : list widget_call) : string :=
  match calls with
  | [] => ""
  | Insert segment _ :: rest => segment +++ inserted_text rest
  | See :: rest => inserted_text rest
  end.

Lemma append_assoc (a b c : string) : (a +++ b) +++ c = a +++ (b +++ c).
Proof. induction a as [|x a IH]; cbn; [reflexivity|now rewrite IH]. Qed.

Lemma append_nil_r (a : string) : a +++ "" = a.
Proof. induction a as [|x a IH]; cbn; [reflexivity|now rewrite IH]. Qed.

Lemma inserted_text_app (a b : list widget_call) :
  inserted_text (a ++ b) = inserted_text a +++ inserted_text b.
Proof.
  induction a as [|[seg tag|] a IH]; cbn [app inserted_text];
    [reflexivity| |exact IH].
  now rewrite IH, append_assoc.
Qed.

Lemma known_color_truthy (color : option string) :
  known_color color -> truthy color = match color with
                                      | Some _ => true
                                      | None => false
                                      end.
Proof.
  destruct color as [tag|]; [|reflexivity]. cbn [known_color truthy].
  unfold ANSI_COLORS. cbn [map snd In].
  intros [<-|[<-|[<-|[<-|[<-|[<-|[<-|[<-|[]]]]]]]]]; reflexivity.
Qed.

Lemma parse_ansi_known (text : string) :
  Forall (fun s => known_color (snd s)) (parse_ansi text).
Proof.
  unfold parse_ansi. rewrite parse_ansi_chars_spec.
  apply Forall_map.
  eapply Forall_impl; [|apply (spec_segments_known _ 0 [] None I)].
  intros [seg color] H. exact H.
Qed.

Lemma render_inserts (message : string) :
  render message
  = map (fun s => Insert (fst s) (snd s)) (parse_ansi (message +++ NL))
    ++ [See].
Proof.
  unfold render. f_equal. apply map_ext_Forall.
  eapply Forall_impl; [|apply parse_ansi_known].
  intros [seg color] H. cbn [fst snd] in *.
  rewrite (known_color_truthy _ H). now destruct color.
Qed.

Lemma inserted_text_segments (segs : list (string * option string)) :
  inserted_text (map (fun s => Insert (fst s) (snd s)) segs)
  = join_texts segs.
Proof.
  unfold join_texts.
  induction segs as [|s segs IH]; cbn [map inserted_text fold_right];
    [reflexivity|].
  now rewrite IH.
Qed.

Lemma join_texts_strip (text : string) :
  join_texts (parse_ansi text) = strip_escapes text.
Proof.
  unfold parse_ansi. rewrite parse_ansi_chars_spec.
  rewrite join_texts_chars, spec_segments_concat. reflexivity.
Qed.

(** X4: for one message the drain loop inserts every segment of the parsed
    message with the tag the parser gave it (a tag is never dropped), then
    scrolls to the end; the text inserted is the message and a newline with
    the escape sequences removed, and no empty text is inserted. *)
Theorem render_shows_the_message (message : string) :
  render message
  = map (fun s => Insert (fst s) (snd s)) (parse_ansi (message +++ NL))
    ++ [See]
  /\ inserted_text (render message) = strip_escapes (message +++ NL)
  /\ Forall (fun call => match call with
                         | Insert segment _ => segment <> ""
                         | See => True
                         end) (render message).
Proof.
  split; [apply render_inserts|split].
  - rewrite render_inserts, inserted_text_app, inserted_text_segments.
    cbn [inserted_text]. rewrite append_nil_r. apply join_texts_strip.
  - rewrite render_inserts. apply Forall_app. split; [|repeat constructor].
    apply Forall_map. unfold parse_ansi. rewrite parse_ansi_chars_spec.
    apply Forall_map.
    eapply Forall_impl; [|apply spec_segments_nonempty].
    intros s Hs. cbn [fst]. now apply string_nonempty_chars.
Qed.

(** The texts of the messages as the widget shows them, one after the
    other. *)
Fixpoint shown (messages : list string) : string :=
  match messages with
  | [] => ""
  | m :: rest => strip_escapes (m +++ NL) +++ shown rest
  end.

Lemma inserted_text_renders (messages : list string) :
  inserted_text (flat_map render messages) = shown messages.
Proof.
  induction messages as [|m rest IH]; [reflexivity|].
  cbn [flat_map shown]. rewrite inserted_text_app, IH. f_equal.
  rewrite render_inserts, inserted_text_app, inserted_text_segments.
  cbn [inserted_text]. rewrite append_nil_r. apply join_texts_strip.
Qed.

(** X5: whatever the interleaving of producers and consumer, once the
    consumer has drained the queue the text in the widget is the text of
    all the messages logged, in the order they were logged, each on a line
    of its own and without its escape sequences. *)
Theorem widget_shows_all_messages (schedule : list action) :
  inserted_text (widget (drain (run schedule init)))
  = shown (produced schedule).
Proof.
  destruct (run_invariant schedule init) as [H1 H2].
  cbn [init taken chan app widget flat_map] in H1, H2.
  specialize (H2 eq_refl).
  unfold drain. rewrite poll_log_queue_colored_all. cbn [widget].
  rewrite H2, <- flat_map_app, H1. apply inserted_text_renders.
Qed.

(** *** Several codes in one escape sequence *)

(** A code that [parse_ansi] acts on: ["0"] or a key of [ANSI_COLORS]. *)
Definition recognised (c : list ascii) : bool :=
  (string_of_list_ascii c =? "0")%string
  || match dict_get ANSI_COLORS (string_of_list_ascii c) with
     | Some _ => true
     | None => false
     end.

Lemma apply_code_recognised (color : option string) (c : list ascii) :
  apply_code color c
  = if recognised c then apply_code None c else color.
Proof.
  unfold apply_code, recognised.
  destruct (string_of_list_ascii c =? "0")%string; [reflexivity|].
  now destruct (dict_get ANSI_COLORS (string_of_list_ascii c)).
Qed.

Lemma fold_apply_code (codes : list (list ascii)) :
  forall color,
    fold_left apply_code codes color
    = match find recognised (rev codes) with
      | Some c => apply_code None c
      | None => color
      end.
Proof.
  induction codes as [|c codes IH] using rev_ind; intros color;
    [reflexivity|].
  rewrite fold_left_app, rev_app_distr. cbn [fold_left rev app find].
  rewrite apply_code_recognised.
  destruct (recognised c); [reflexivity|apply IH].
Qed.

(** X6: in an escape sequence with several codes, the colour that results
    is decided by the last code that is ["0"] or one of the eight colour
    codes, whatever the colour was before; if the sequence has no such code
    the colour stays as it was. *)
Theorem last_recognised_code_decides (color : option string)
    (esc_sequence : list ascii) :
  let codes :=
    split_semi (slice esc_sequence 2 (length esc_sequence - 1)) in
  process_code color esc_sequence
  = match find recognised (rev codes) with
    | Some c =>
        if (string_of_list_ascii c =? "0")%string then None
        else dict_get ANSI_COLORS (string_of_list_ascii c)
    | None => color
    end.
Proof.
  intros codes. unfold process_code. fold codes. rewrite fold_apply_code.
  destruct (find recognised (rev codes)) as [c|] eqn:E; [|reflexivity].
  apply find_some in E as [_ Hc]. unfold apply_code, recognised in *.
  destruct (string_of_list_ascii c =? "0")%string; [reflexivity|].
  now destruct (dict_get ANSI_COLORS (string_of_list_ascii c)).
Qed.

End RenderFacts.

(** ** What the cleanup leaves behind *)

Module CleanupFacts.

Import Disk NT DiskFacts Helper HelperFacts.

(** *** Every invariant of the deletions is an invariant of the cleanup *)

Section Principle.

Variable P : platform.
Variable I : node -> node -> list event -> Prop.
Hypothesis I_refl : forall d, I d d [].
Hypothesis I_trans :
  forall d d1 d2 e1 e2, I d d1 e1 -> I d1 d2 e2 -> I d d2 (e1 ++ e2).
Hypothesis I_log : forall d message, I d d [Log message].
Hypothesis I_rmtree_fails :
  forall d p e, rm_error P p = Some e -> I d d [Rmtree p].
Hypothesis I_rmtree :
  forall d p, rm_error P p = None -> I d (delete p d) [Rmtree p].
Hypothesis I_remove_fails :
  forall d p e, rm_error P p = Some e -> I d d [Remove p].
Hypothesis I_remove :
  forall d p, rm_error P p = None -> I d (delete p d) [Remove p].

Let bind_I {A B : Type} (m : M A) (f : A -> M B) :=
  holds_bind I I_trans m f.
Let for_I {A : Type} (l : list A) (body : A -> M unit) :=
  holds_for_each I I_refl I_trans l body.

Lemma log_kept (message : string) : holds I (log message).
Proof. intros d. apply I_log. Qed.

Lemma remove_folder_kept (p : path) : holds I (remove_folder P p).
Proof.
  unfold remove_folder, isdir.
  apply bind_I; [apply (holds_pure _ I_refl)|intros b].
  apply (holds_when _ I_refl).
  apply (holds_try_except _ I_trans); [|intros e; apply log_kept].
  apply bind_I; [|intros _; apply log_kept].
  intros d. unfold shutil_rmtree.
  destruct (rm_error P p) as [e|] eqn:E; cbn [disk_after events fst snd].
  - now apply (I_rmtree_fails d p e).
  - now apply I_rmtree.
Qed.

Lemma remove_file_kept (p : path) : holds I (remove_file P p).
Proof.
  unfold remove_file, isfile.
  apply bind_I; [apply (holds_pure _ I_refl)|intros b].
  apply (holds_when _ I_refl).
  apply (holds_try_except _ I_trans); [|intros e; apply log_kept].
  apply bind_I; [|intros _; apply log_kept].
  intros d. unfold os_remove.
  destruct (rm_error P p) as [e|] eqn:E; cbn [disk_after events fst snd].
  - now apply (I_remove_fails d p e).
  - now apply I_remove.
Qed.

Lemma listdir_kept (p : path) : holds I (os_listdir P p).
Proof.
  intros d. unfold os_listdir.
  destruct (listdir_error P p); [apply I_refl|].
  destruct (lookup p d) as [[c|es]|]; apply I_refl.
Qed.

Lemma remove_items_rec_kept (folders files : list string) (fuel : nat) :
  forall directory,
    holds I (remove_items_rec P fuel directory folders files).
Proof.
  induction fuel as [|fuel IH]; intros directory; cbn [remove_items_rec].
  - intros d. apply I_refl.
  - apply bind_I; [apply for_I; intros; apply remove_folder_kept|intros _].
    apply bind_I; [apply for_I; intros; apply remove_file_kept|intros _].
    apply bind_I; [apply listdir_kept|intros entries].
    apply for_I. intros entry _. unfold isdir.
    apply bind_I; [apply (holds_pure _ I_refl)|intros b].
    apply (holds_when _ I_refl). apply IH.
Qed.

Lemma clean_plugins_folder_kept (script_directory : path)
    (project_name : string) :
  holds I (clean_plugins_folder P script_directory project_name).
Proof.
  unfold clean_plugins_folder, isdir.
  apply bind_I; [apply (holds_pure _ I_refl)|intros b].
  destruct (negb b); [apply log_kept|].
  apply bind_I; [apply log_kept|intros _].
  intros d. unfold remove_items_recursively. apply remove_items_rec_kept.
Qed.

(** The cleanup from the pass over the root files on. *)
Definition after_root_folders (script_directory : path)
    (project_name : string) : M unit :=
  (log "Cleaning project root files..." ;;
   uproject_list <- glob_uproject P ;;
   match uproject_list with
   | project_file :: _ =>
       let project_name_local := splitext_root project_file in
       let files_to_delete :=
         [os_path_join script_directory (project_name_local +++ ".sln");
          os_path_join script_directory ".vsconfig"] in
       for_each files_to_delete (remove_file P)
   | [] => ret tt
   end ;;
   clean_plugins_folder P script_directory project_name ;;
   log "Cleanup completed successfully!").

Lemma clean_files_and_folders_split (script_directory : path)
    (project_name : string) :
  clean_files_and_folders P script_directory project_name
  = (log "Cleaning project root folders..." ;;
     for_each (map (os_path_join script_directory) root_folders_to_delete)
       (remove_folder P) ;;
     after_root_folders script_directory project_name).
Proof. reflexivity. Qed.

Lemma after_root_folders_kept (script_directory : path)
    (project_name : string) :
  holds I (after_root_folders script_directory project_name).
Proof.
  unfold after_root_folders.
  apply bind_I; [apply log_kept|intros _].
  apply bind_I; [apply (holds_pure _ I_refl)|intros l].
  apply bind_I; [|intros _].
  { destruct l as [|project_file l]; [apply (holds_ret _ I_refl)|].
    apply for_I. intros; apply remove_file_kept. }
  apply bind_I; [apply clean_plugins_folder_kept|intros _; apply log_kept].
Qed.

Lemma clean_files_and_folders_kept (script_directory : path)
    (project_name : string) :
  holds I (clean_files_and_folders P script_directory project_name).
Proof.
  rewrite clean_files_and_folders_split.
  apply bind_I; [apply log_kept|intros _].
  apply bind_I; [apply for_I; intros; apply remove_folder_kept|intros _].
  apply after_root_folders_kept.
Qed.

End Principle.

(** *** The cleanup only removes *)

(** Every path is gone or as it was. *)
Definition gone_or_same (d d' : node) (evs : list event) : Prop :=
  forall q, stat q d' = None \/ stat q d' = stat q d.

Lemma gone_or_same_refl (d : node) : gone_or_same d d [].
Proof. intros q. now right. Qed.

Lemma gone_or_same_trans (d d1 d2 : node) (e1 e2 : list event) :
  gone_or_same d d1 e1 -> gone_or_same d1 d2 e2 ->
  gone_or_same d d2 (e1 ++ e2).
Proof.
  intros H1 H2 q. destruct (H2 q) as [H|H]; [now left|].
  rewrite H. apply H1.
Qed.

Lemma gone_or_same_delete (d : node) (p : path) (evs : list event) :
  gone_or_same d (delete p d) evs.
Proof.
  intros q. destruct p as [|x p]; [now right|].
  destruct (below (x :: p) q) eqn:E.
  - left. apply stat_delete_below; [discriminate|exact E].
  - right. now apply stat_delete_other.
Qed.

(** The calls the cleanup makes: log lines and deletions. *)
Definition cleanup_call (e : event) : bool :=
  match e with
  | Log _ | Rmtree _ | Remove _ => true
  | _ => false
  end.

Definition only (ok : event -> bool) (d d' : node) (evs : list event)
  : Prop := forallb ok evs = true.

Lemma only_refl (ok : event -> bool) (d : node) : only ok d d [].
Proof. reflexivity. Qed.

Lemma only_trans (ok : event -> bool) (d d1 d2 : node)
    (e1 e2 : list event) :
  only ok d d1 e1 -> only ok d1 d2 e2 -> only ok d d2 (e1 ++ e2).
Proof. unfold only. intros H1 H2. now rewrite forallb_app, H1, H2. Qed.

(** X7: the cleanup never creates or changes anything: afterwards every
    path is either gone or exactly as it was before (same kind, same file
    text); and the only calls it makes are log lines, [shutil.rmtree] and
    [os.remove]: it sets no status, starts no process and opens nothing. *)
Theorem cleanup_only_removes (P : platform) (script_directory : path)
    (project_name : string) (d : node) :
  let run := clean_files_and_folders P script_directory project_name d in
  (forall q, stat q (disk_after run) = None
             \/ stat q (disk_after run) = stat q d)
  /\ forallb cleanup_call (events run) = true.
Proof.
  split.
  - apply (clean_files_and_folders_kept P gone_or_same);
      try (intros; apply gone_or_same_refl);
      try (intros; apply gone_or_same_delete).
    apply gone_or_same_trans.
  - apply (clean_files_and_folders_kept P (only cleanup_call));
      try (intros; reflexivity).
    apply only_trans.
Qed.

(** *** What is looked for is gone afterwards *)

Ltac gone_or_same_side :=
  first [ apply gone_or_same_trans
        | intros; apply gone_or_same_refl
        | intros; apply gone_or_same_delete ].

Lemma isdir_kept_back (d d' : node) (q : path) :
  (forall q, stat q d' = None \/ stat q d' = stat q d) ->
  os_path_isdir q d' = true -> os_path_isdir q d = true.
Proof.
  intros H Hq. apply isdir_stat in Hq as [Hne Hst]. apply isdir_stat.
  split; [exact Hne|]. destruct (H q) as [E|E]; congruence.
Qed.

Lemma isdir_stays_gone (d d' : node) (q : path) :
  (forall q, stat q d' = None \/ stat q d' = stat q d) ->
  os_path_isdir q d = false -> os_path_isdir q d' = false.
Proof.
  intros H Hq. destruct (os_path_isdir q d') eqn:E; [|reflexivity].
  apply (isdir_kept_back d d' q H) in E. congruence.
Qed.

Lemma isfile_stat (p : path) (d : node) :
  os_path_isfile p d = true
  <-> p <> [] /\ exists content, stat p d = Some (IsFile content).
Proof.
  unfold os_path_isfile, stat. destruct p as [|x p].
  - split; [discriminate|]. intros [H _]. congruence.
  - destruct (lookup (x :: p) d) as [[c|es]|]; cbn [option_map shape_of];
      split; try discriminate; try (intros [_ [c' H]]; discriminate).
    + intros _. split; [discriminate|]. now exists c.
    + reflexivity.
Qed.

Lemma isfile_stays_gone (d d' : node) (q : path) :
  (forall q, stat q d' = None \/ stat q d' = stat q d) ->
  os_path_isfile q d = false -> os_path_isfile q d' = false.
Proof.
  intros H Hq. destruct (os_path_isfile q d') eqn:E; [|reflexivity].
  apply isfile_stat in E as [Hne [c Hst]].
  assert (Hd : os_path_isfile q d = true).
  { apply isfile_stat. split; [exact Hne|]. exists c.
    destruct (H q) as [E|E]; congruence. }
  congruence.
Qed.

Lemma lookup_app (p q : path) (d : node) :
  lookup (p ++ q) d
  = match lookup p d with
    | Some n => lookup q n
    | None => None
    end.
Proof.
  revert d. induction p as [|x p IH]; intros d; [reflexivity|].
  cbn [app lookup]. destruct d as [c|es]; [reflexivity|].
  destruct (assoc x es); [apply IH|reflexivity].
Qed.

(** An entry lies in a directory. *)
Lemma parent_is_dir (p : path) (x : string) (r : path) (d : node) :
  p <> [] ->
  lookup (p ++ x :: r) d <> None -> os_path_isdir p d = true.
Proof.
  intros Hne H. rewrite lookup_app in H. unfold os_path_isdir.
  destruct p as [|y p]; [congruence|].
  destruct (lookup (y :: p) d) as [[c|es]|]; try reflexivity;
    cbn [lookup] in H; congruence.
Qed.

Lemma isdir_parent (p : path) (x : string) (r : path) (d : node) :
  p <> [] ->
  os_path_isdir (p ++ x :: r) d = true -> os_path_isdir p d = true.
Proof.
  intros Hne H. apply (parent_is_dir p x r d Hne).
  unfold os_path_isdir in H. destruct (p ++ x :: r); [discriminate|].
  destruct (lookup (s :: l) d); [discriminate|discriminate].
Qed.

Lemma isfile_parent (p : path) (x : string) (r : path) (d : node) :
  p <> [] ->
  os_path_isfile (p ++ x :: r) d = true -> os_path_isdir p d = true.
Proof.
  intros Hne H. apply (parent_is_dir p x r d Hne).
  unfold os_path_isfile in H. destruct (p ++ x :: r); [discriminate|].
  destruct (lookup (s :: l) d); [discriminate|discriminate].
Qed.

(** A directory is in the listing of the directory it lies in, under one
    of its names. *)
Lemma isdir_listed (directory : path) (entry : string) (d : node) :
  os_path_isdir (directory ++ [entry]) d = true ->
  exists n, In n (names_at directory d) /\ same_name n entry = true.
Proof.
  unfold os_path_isdir, names_at.
  destruct (directory ++ [entry]) as [|a b] eqn:Ep; [discriminate|].
  rewrite <- Ep, lookup_app. clear Ep a b.
  destruct (lookup directory d) as [[c|es]|]; try discriminate.
  cbn [lookup].
  induction es as [|[n c] es IH]; cbn [assoc map fst In]; [discriminate|].
  destruct (same_name n entry) eqn:E.
  - intros _. exists n. split; [now left|exact E].
  - intros H. destruct (IH H) as (m & Hm & Hs). exists m.
    split; [now right|exact Hs].
Qed.

(** A path leads to the same entry under every name of a component. *)
Lemma lookup_same_name (a : path) (x y : string) (r : path) (d : node) :
  same_name x y = true -> lookup (a ++ x :: r) d = lookup (a ++ y :: r) d.
Proof.
  intros H. rewrite !lookup_app.
  destruct (lookup a d) as [[c|es]|]; try reflexivity.
  cbn [lookup]. now rewrite (assoc_same x y es H).
Qed.

Lemma isdir_same_name (a : path) (x y : string) (r : path) (d : node) :
  same_name x y = true ->
  os_path_isdir (a ++ x :: r) d = os_path_isdir (a ++ y :: r) d.
Proof.
  intros H. pose proof (lookup_same_name a x y r d H) as E.
  unfold os_path_isdir.
  destruct (a ++ x :: r) as [|s l] eqn:E1; [now destruct a|].
  destruct (a ++ y :: r) as [|s' l'] eqn:E2; [now destruct a|].
  now rewrite E.
Qed.

Lemma isfile_same_name (a : path) (x y : string) (r : path) (d : node) :
  same_name x y = true ->
  os_path_isfile (a ++ x :: r) d = os_path_isfile (a ++ y :: r) d.
Proof.
  intros H. pose proof (lookup_same_name a x y r d H) as E.
  unfold os_path_isfile.
  destruct (a ++ x :: r) as [|s l] eqn:E1; [now destruct a|].
  destruct (a ++ y :: r) as [|s' l'] eqn:E2; [now destruct a|].
  now rewrite E.
Qed.

Section Effect.

Variable P : platform.

Lemma remove_folder_same (p : path) :
  holds gone_or_same (remove_folder P p).
Proof. apply (remove_folder_kept P gone_or_same); gone_or_same_side. Qed.

Lemma remove_file_same (p : path) : holds gone_or_same (remove_file P p).
Proof. apply (remove_file_kept P gone_or_same); gone_or_same_side. Qed.

Lemma remove_items_rec_same (folders files : list string) (fuel : nat)
    (directory : path) :
  holds gone_or_same (remove_items_rec P fuel directory folders files).
Proof. apply (remove_items_rec_kept P gone_or_same); gone_or_same_side. Qed.

Lemma for_each_same {A : Type} (l : list A) (body : A -> M unit) :
  (forall x, holds gone_or_same (body x)) ->
  holds gone_or_same (for_each l body).
Proof.
  intros H. apply holds_for_each; try gone_or_same_side. intros; apply H.
Qed.

Lemma remove_folder_gone (p : path) (d : node) :
  rm_error P p = None ->
  os_path_isdir p (disk_after (remove_folder P p d)) = false.
Proof.
  intros Hrm. unfold remove_folder, isdir, bind, when, try_except,
    shutil_rmtree.
  destruct (os_path_isdir p d) eqn:E; [|exact E].
  rewrite Hrm. cbn [disk_after fst snd log tell].
  destruct (os_path_isdir p (delete p d)) eqn:E'; [|reflexivity].
  apply isdir_stat in E' as [Hne Hst].
  rewrite stat_delete_below in Hst;
    [discriminate|exact Hne|apply below_refl].
Qed.

Lemma remove_file_gone (p : path) (d : node) :
  rm_error P p = None ->
  os_path_isfile p (disk_after (remove_file P p d)) = false.
Proof.
  intros Hrm. unfold remove_file, isfile, bind, when, try_except, os_remove.
  destruct (os_path_isfile p d) eqn:E; [|exact E].
  rewrite Hrm. cbn [disk_after fst snd log tell].
  destruct (os_path_isfile p (delete p d)) eqn:E'; [|reflexivity].
  apply isfile_stat in E' as [Hne [c Hst]].
  rewrite stat_delete_below in Hst;
    [discriminate|exact Hne|apply below_refl].
Qed.

(** A loop of removals leaves none of its folders in place, unless the
    removal fails. *)
Lemma folders_loop_gone {A : Type} (g : A -> path) (l : list A) :
  forall d x,
    In x l -> rm_error P (g x) = None ->
    os_path_isdir (g x)
      (disk_after (for_each l (fun y => remove_folder P (g y)) d)) = false.
Proof.
  induction l as [|y l IH]; intros d x Hin Hrm; [contradiction|].
  cbn [for_each].
  rewrite (disk_after_bind _ _ d tt) by apply remove_folder_returns.
  destruct Hin as [->|Hin]; [|now apply IH].
  eapply isdir_stays_gone;
    [apply (for_each_same l (fun y => remove_folder P (g y)));
     intros; apply remove_folder_same|].
  now apply remove_folder_gone.
Qed.

Lemma files_loop_gone {A : Type} (g : A -> path) (l : list A) :
  forall d x,
    In x l -> rm_error P (g x) = None ->
    os_path_isfile (g x)
      (disk_after (for_each l (fun y => remove_file P (g y)) d)) = false.
Proof.
  induction l as [|y l IH]; intros d x Hin Hrm; [contradiction|].
  cbn [for_each].
  rewrite (disk_after_bind _ _ d tt) by apply remove_file_returns.
  destruct Hin as [->|Hin]; [|now apply IH].
  eapply isfile_stays_gone;
    [apply (for_each_same l (fun y => remove_file P (g y)));
     intros; apply remove_file_same|].
  now apply remove_file_gone.
Qed.

(** X8: after the cleanup none of the six artifact folders of the list is
    left in the project root, except one whose removal raised: each is
    gone even if other removals failed or the walk of the plugins stopped
    on an error. *)
Theorem root_artifact_folders_are_gone (script_directory : path)
    (project_name folder : string) (d : node) :
  In folder root_folders_to_delete ->
  rm_error P (os_path_join script_directory folder) = None ->
  os_path_isdir (os_path_join script_directory folder)
    (disk_after (clean_files_and_folders P script_directory project_name d))
  = false.
Proof.
  intros Hin Hrm. rewrite clean_files_and_folders_split.
  rewrite (disk_after_bind _ _ d tt) by reflexivity.
  cbn [log tell disk_after fst snd].
  rewrite (disk_after_bind _ _ d tt)
    by (apply for_each_returns; intros; apply remove_folder_returns).
  eapply isdir_stays_gone.
  - apply (after_root_folders_kept P gone_or_same); gone_or_same_side.
  - apply (folders_loop_gone (fun p : path => p)
             (map (os_path_join script_directory) root_folders_to_delete)
             d (os_path_join script_directory folder));
      [now apply in_map|exact Hrm].
Qed.

End Effect.

Lemma root_artifact_folders_are_gone_witness :
  In "Binaries" root_folders_to_delete
  /\ rm_error demo (os_path_join (getcwd demo) "Binaries") = None
  /\ os_path_isdir (os_path_join (getcwd demo) "Binaries") demo_disk = true
  /\ os_path_isdir (os_path_join (getcwd demo) "Binaries")
       (disk_after (clean_files_and_folders demo (getcwd demo) "Game"
                      demo_disk)) = false.
Proof.
  split; [cbn; tauto|split; [reflexivity|split; [reflexivity|]]].
  apply (root_artifact_folders_are_gone demo (getcwd demo) "Game" "Binaries"
           demo_disk); [cbn; tauto|reflexivity].
Defined.

(** *** The walk of the plugins *)

Section Walk.

Variable P : platform.
Variables folders files : list string.
Hypothesis no_rm_error : forall p, rm_error P p = None.

(** Nothing that the walk looks for is left at or below [directory]. *)
Definition swept (directory : path) (d : node) : Prop :=
  forall sub name,
    (In name folders ->
     os_path_isdir (directory ++ sub ++ [name]) d = false)
    /\ (In name files ->
        os_path_isfile (directory ++ sub ++ [name]) d = false).

Lemma swept_stays (directory : path) (d d' : node) :
  (forall q, stat q d' = None \/ stat q d' = stat q d) ->
  swept directory d -> swept directory d'.
Proof.
  intros H Hs sub name. destruct (Hs sub name) as [Hf Hl]. split; intros Hin.
  - eapply isdir_stays_gone; [exact H|now apply Hf].
  - eapply isfile_stays_gone; [exact H|now apply Hl].
Qed.

Lemma outcome_bind_ok {A B : Type} (m : M A) (f : A -> M B) (d : node)
    (b : B) :
  outcome (bind m f d) = Ok b ->
  exists a, outcome (m d) = Ok a
            /\ outcome (f a (disk_after (m d))) = Ok b.
Proof.
  rewrite outcome_bind. destruct (outcome (m d)) as [a|e|]; try discriminate.
  intros H. now exists a.
Qed.

Definition walk_entry (fuel : nat) (directory : path) (entry : string)
  : M unit :=
  let entry_path := os_path_join directory entry in
  is_dir <- isdir entry_path ;;
  when is_dir (remove_items_rec P fuel entry_path folders files).

Lemma walk_entry_same (fuel : nat) (directory : path) (entry : string) :
  holds gone_or_same (walk_entry fuel directory entry).
Proof.
  unfold walk_entry, isdir.
  apply (holds_bind _ gone_or_same_trans);
    [apply (holds_pure _ gone_or_same_refl)|intros b].
  apply (holds_when _ gone_or_same_refl). apply remove_items_rec_same.
Qed.

(** The entries of a listing that are still directories at the end of the
    loop have been swept. *)
Lemma walk_entries_swept (fuel : nat) (directory : path) :
  (forall directory' d',
     directory' <> [] ->
     outcome (remove_items_rec P fuel directory' folders files d') = Ok tt ->
     swept directory'
       (disk_after (remove_items_rec P fuel directory' folders files d'))) ->
  forall entries d,
    outcome (for_each entries (walk_entry fuel directory) d) = Ok tt ->
    forall entry,
      In entry entries ->
      os_path_isdir (os_path_join directory entry)
        (disk_after (for_each entries (walk_entry fuel directory) d)) = true ->
      swept (os_path_join directory entry)
        (disk_after (for_each entries (walk_entry fuel directory) d)).
Proof.
  intros IH. induction entries as [|e entries IHe];
    intros d Hok entry Hin Hdir; [contradiction|].
  cbn [for_each] in *.
  apply outcome_bind_ok in Hok as ([] & Hbody & Hrest).
  rewrite (disk_after_bind _ _ d tt Hbody) in *.
  set (d1 := disk_after (walk_entry fuel directory e d)) in *.
  assert (Hloop : forall q,
            stat q (disk_after (for_each entries (walk_entry fuel directory) d1))
              = None
            \/ stat q (disk_after
                         (for_each entries (walk_entry fuel directory) d1))
               = stat q d1).
  { apply (for_each_same entries (walk_entry fuel directory)).
    intros; apply walk_entry_same. }
  destruct Hin as [->|Hin]; [|now apply IHe].
  apply (swept_stays _ d1 _ Hloop).
  assert (Hdir1 : os_path_isdir (os_path_join directory entry) d1 = true)
    by (eapply isdir_kept_back; [exact Hloop|exact Hdir]).
  assert (Hdir0 : os_path_isdir (os_path_join directory entry) d = true).
  { eapply isdir_kept_back; [|exact Hdir1].
    apply (walk_entry_same fuel directory entry d). }
  unfold d1, walk_entry in *.
  rewrite (disk_after_bind _ _ d true) by (unfold isdir; now rewrite Hdir0).
  rewrite outcome_bind in Hbody. cbn [isdir outcome disk_after fst snd] in *.
  rewrite Hdir0 in Hbody. cbn [when] in *.
  apply IH; [unfold os_path_join; now destruct directory|exact Hbody].
Qed.

Lemma sweep_here (directory : path) (d : node) :
  let d2 :=
    disk_after
      (for_each files
         (fun file => remove_file P (os_path_join directory file))
         (disk_after
            (for_each folders
               (fun folder => remove_folder P (os_path_join directory folder))
               d))) in
  forall name,
    (In name folders ->
     os_path_isdir (os_path_join directory name) d2 = false)
    /\ (In name files ->
        os_path_isfile (os_path_join directory name) d2 = false).
Proof.
  intros d2 name. split; intros Hin.
  - eapply isdir_stays_gone.
    + apply (for_each_same files). intros; apply remove_file_same.
    + now apply (folders_loop_gone P (os_path_join directory) folders).
  - now apply (files_loop_gone P (os_path_join directory) files).
Qed.

(** A walk that returns leaves nothing it looks for at or below the
    directory it started from. *)
Lemma remove_items_rec_swept (fuel : nat) :
  forall directory d,
    directory <> [] ->
    outcome (remove_items_rec P fuel directory folders files d) = Ok tt ->
    swept directory
      (disk_after (remove_items_rec P fuel directory folders files d)).
Proof.
  induction fuel as [|fuel IH]; intros directory d Hne Hok; [discriminate|].
  cbn [remove_items_rec] in *.
  set (loop1 := for_each folders
                  (fun folder => remove_folder P (os_path_join directory folder)))
    in *.
  set (loop2 := for_each files
                  (fun file => remove_file P (os_path_join directory file)))
    in *.
  assert (H1 : outcome (loop1 d) = Ok tt)
    by (apply for_each_returns; intros; apply remove_folder_returns).
  set (d1 := disk_after (loop1 d)) in *.
  assert (H2 : outcome (loop2 d1) = Ok tt)
    by (apply for_each_returns; intros; apply remove_file_returns).
  set (d2 := disk_after (loop2 d1)) in *.
  rewrite outcome_bind, H1 in Hok. fold d1 in Hok.
  rewrite outcome_bind, H2 in Hok. fold d2 in Hok.
  rewrite (disk_after_bind _ _ d tt H1). fold d1.
  rewrite (disk_after_bind _ _ d1 tt H2). fold d2.
  apply outcome_bind_ok in Hok as (entries & Hls & Hloop).
  rewrite (disk_after_bind _ _ d2 entries Hls).
  assert (Hd2 : os_listdir P directory d2
                = (Ok entries, d2, [])
                  /\ entries = names_at directory d2).
  { unfold os_listdir, names_at in *.
    destruct (listdir_error P directory); [discriminate|].
    destruct (lookup directory d2) as [[c|es]|]; try discriminate.
    cbn [outcome fst] in Hls. injection Hls as <-. now split. }
  destruct Hd2 as [Els ->]. rewrite Els in *.
  cbn [disk_after fst snd] in *.
  fold (walk_entry fuel directory) in *.
  set (d3 := disk_after
               (for_each (names_at directory d2) (walk_entry fuel directory)
                  d2)) in *.
  assert (Hsame : forall q, stat q d3 = None \/ stat q d3 = stat q d2).
  { apply (for_each_same (names_at directory d2)
             (walk_entry fuel directory)).
    intros; apply walk_entry_same. }
  pose proof (sweep_here directory d) as Hhere. cbv zeta in Hhere.
  fold loop1 loop2 in Hhere. fold d1 in Hhere. fold d2 in Hhere.
  intros sub name.
  destruct sub as [|c sub].
  - cbn [app]. destruct (Hhere name) as [Hf Hl]. split; intros Hin.
    + eapply isdir_stays_gone; [exact Hsame|now apply Hf].
    + eapply isfile_stays_gone; [exact Hsame|now apply Hl].
  - destruct (os_path_isdir (os_path_join directory c) d3) eqn:Ec.
    + assert (Hlisted : exists n, In n (names_at directory d2)
                                  /\ same_name n c = true).
      { apply isdir_listed. eapply isdir_kept_back; [exact Hsame|exact Ec]. }
      destruct Hlisted as (n & Hlisted & Hnc).
      assert (Hn : os_path_isdir (os_path_join directory n) d3 = true).
      { unfold os_path_join in *.
        now rewrite (isdir_same_name directory n c [] d3 Hnc). }
      assert (Hsw : swept (os_path_join directory n) d3).
      { now apply (walk_entries_swept fuel directory). }
      destruct (Hsw sub name) as [Hf Hl].
      unfold os_path_join in Hf, Hl. rewrite <- !app_assoc in Hf, Hl.
      cbn [app] in Hf, Hl |- *.
      rewrite <- (isdir_same_name directory n c (sub ++ [name]) d3 Hnc).
      rewrite <- (isfile_same_name directory n c (sub ++ [name]) d3 Hnc).
      now split.
    + assert (Hcut : directory ++ (c :: sub) ++ [name]
                     = (directory ++ [c]) ++ hd name sub :: tl (sub ++ [name])).
      { rewrite <- app_assoc. cbn [app]. now destruct sub. }
      assert (Hne' : directory ++ [c] <> []) by now destruct directory.
      rewrite Hcut. split; intros Hin.
      * match goal with |- ?x = false => destruct x eqn:E end;
          [|reflexivity].
        apply isdir_parent in E; [|exact Hne'].
        unfold os_path_join in Ec. congruence.
      * match goal with |- ?x = false => destruct x eqn:E end;
          [|reflexivity].
        apply isfile_parent in E; [|exact Hne'].
        unfold os_path_join in Ec. congruence.
Qed.

End Walk.

Lemma tail_of_path (sub : path) (name : string) :
  sub ++ [name] = hd name sub :: tl (sub ++ [name]).
Proof. now destruct sub. Qed.

(** X9: when no removal fails and the cleanup returns, no directory at or
    below the Plugins folder of the project holds an artifact folder of the
    plugin list, a solution file named after the project or a [.vsconfig]
    file any more, however deep. *)
Theorem plugin_artifacts_are_gone (P : platform) (script_directory : path)
    (project_name : string) (d : node) :
  (forall p, rm_error P p = None) ->
  outcome (clean_files_and_folders P script_directory project_name d)
    = Ok tt ->
  forall sub name,
    let d' :=
      disk_after (clean_files_and_folders P script_directory project_name d) in
    let entry := script_directory ++ "Plugins" :: sub ++ [name] in
    (In name plugin_folders_to_delete -> os_path_isdir entry d' = false)
    /\ (In name [project_name +++ ".sln"; ".vsconfig"] ->
        os_path_isfile entry d' = false).
Proof.
  intros Hrm Hok sub name.
  rewrite clean_files_and_folders_split in *.
  rewrite outcome_bind in Hok. cbn [log tell outcome disk_after fst snd] in Hok.
  rewrite (disk_after_bind _ _ d tt) by reflexivity.
  cbn [log tell disk_after fst snd].
  set (loop := for_each _ (remove_folder P)) in *.
  assert (Hloop : outcome (loop d) = Ok tt)
    by (apply for_each_returns; intros; apply remove_folder_returns).
  rewrite outcome_bind, Hloop in Hok.
  rewrite (disk_after_bind _ _ d tt Hloop).
  set (d1 := disk_after (loop d)) in *.
  unfold after_root_folders in *.
  rewrite outcome_bind in Hok. cbn [log tell outcome disk_after fst snd] in Hok.
  rewrite (disk_after_bind _ _ d1 tt) by reflexivity.
  cbn [log tell disk_after fst snd].
  rewrite outcome_bind in Hok.
  cbn [glob_uproject outcome disk_after fst snd] in Hok.
  rewrite (disk_after_bind _ _ d1 (filter is_uproject (names_at (getcwd P) d1)))
    by reflexivity.
  cbn [glob_uproject disk_after fst snd].
  set (files_pass := match filter is_uproject (names_at (getcwd P) d1) with
                     | [] => ret tt
                     | project_file :: _ => _
                     end) in *.
  assert (Hfiles : outcome (files_pass d1) = Ok tt).
  { unfold files_pass.
    destruct (filter is_uproject (names_at (getcwd P) d1)); [reflexivity|].
    apply for_each_returns. intros; apply remove_file_returns. }
  rewrite outcome_bind, Hfiles in Hok.
  rewrite (disk_after_bind _ _ d1 tt Hfiles).
  set (d2 := disk_after (files_pass d1)) in *.
  apply outcome_bind_ok in Hok as ([] & Hplugins & _).
  rewrite (disk_after_bind _ _ d2 tt Hplugins).
  cbn [log tell disk_after fst snd].
  set (plugins := os_path_join script_directory "Plugins").
  assert (Hentry : script_directory ++ "Plugins" :: sub ++ [name]
                   = plugins ++ sub ++ [name])
    by (unfold plugins, os_path_join; now rewrite <- app_assoc).
  cbv zeta. rewrite Hentry. clear Hentry.
  unfold clean_plugins_folder in *. fold plugins in Hplugins |- *.
  rewrite outcome_bind in Hplugins.
  cbn [isdir outcome disk_after fst snd] in Hplugins.
  rewrite (disk_after_bind _ _ d2 (os_path_isdir plugins d2)) by reflexivity.
  cbn [isdir disk_after fst snd].
  assert (Hne : plugins <> [])
    by (unfold plugins, os_path_join; now destruct script_directory).
  destruct (os_path_isdir plugins d2) eqn:Edir; cbn [negb] in *.
  - rewrite outcome_bind in Hplugins.
    cbn [log tell outcome disk_after fst snd] in Hplugins.
    rewrite (disk_after_bind _ _ d2 tt) by reflexivity.
    cbn [log tell disk_after fst snd].
    unfold remove_items_recursively in *.
    now apply (remove_items_rec_swept P plugin_folders_to_delete
                 [project_name +++ ".sln"; ".vsconfig"] Hrm).
  - cbn [log tell disk_after fst snd].
    rewrite (tail_of_path sub name).
    split; intros Hin;
      match goal with |- ?x = false => destruct x eqn:E end;
      try reflexivity.
    + apply isdir_parent in E; [congruence|exact Hne].
    + apply isfile_parent in E; [congruence|exact Hne].
Qed.

Lemma plugin_artifacts_are_gone_witness :
  (forall p, rm_error demo_default p = None)
  /\ outcome (clean_files_and_folders demo_default (getcwd demo_default)
                "Game" demo_disk) = Ok tt
  /\ os_path_isdir ["C:"; "Proj"; "Plugins"; "P1"; "Intermediate"] demo_disk
     = true
  /\ (forall sub name,
        let d' :=
          disk_after (clean_files_and_folders demo_default
                        (getcwd demo_default) "Game" demo_disk) in
        let entry := getcwd demo_default ++ "Plugins" :: sub ++ [name] in
        (In name plugin_folders_to_delete -> os_path_isdir entry d' = false)
        /\ (In name ["Game" +++ ".sln"; ".vsconfig"] ->
            os_path_isfile entry d' = false)).
Proof.
  split; [reflexivity|split; [reflexivity|split; [reflexivity|]]].
  apply (plugin_artifacts_are_gone demo_default (getcwd demo_default) "Game"
           demo_disk); reflexivity.
Defined.

End CleanupFacts.

(** ** The compile pipeline as a whole *)

Module PipelineFacts.

Import Disk NT DiskFacts Helper HelperFacts CleanupFacts.

(** *** The cleanup ends with its closing line *)

(** The last call is the log line [message]. *)
Definition ends_with_log (message : string) (evs : list event) : Prop :=
  exists pre, evs = pre ++ [Log message].

(** A computation that, when it returns, has [message] as its last log
    line and last call. *)
Definition closes (message : string) (m : M unit) : Prop :=
  forall d, outcome (m d) = Ok tt -> ends_with_log message (events (m d)).

Lemma closes_bind {A : Type} (message : string) (m : M A)
    (f : A -> M unit) :
  (forall a, closes message (f a)) -> closes message (bind m f).
Proof.
  intros Hf d. unfold bind.
  destruct (m d) as [[[a|e|] d1] ev1]; cbn [outcome fst]; try discriminate.
  specialize (Hf a d1). destruct (f a d1) as [[r d2] ev2].
  cbn [outcome events fst snd] in *. intros Hok.
  destruct (Hf Hok) as [pre ->]. exists (ev1 ++ pre). now rewrite app_assoc.
Qed.

Lemma closes_log (message : string) : closes message (log message).
Proof. intros d _. now exists []. Qed.

Lemma ends_with_log_last (message : string) (evs : list event) :
  ends_with_log message evs -> last (logged evs) "" = message.
Proof. intros [pre ->]. apply logged_last. Qed.

(** X10: if every directory can be listed, the cleanup runs to its end
    whatever removals fail: it returns without an exception and its last
    log line is "Cleanup completed successfully!". *)
Theorem cleanup_survives_failed_removals (P : platform)
    (script_directory : path) (project_name : string) (d : node) :
  (forall p, listdir_error P p = None) ->
  let run := clean_files_and_folders P script_directory project_name d in
  outcome run = Ok tt
  /\ last (logged (events run)) "" = "Cleanup completed successfully!".
Proof.
  intros Hls run.
  assert (Hok : outcome run = Ok tt).
  { pose proof (clean_files_and_folders_walked P script_directory
                  project_name d) as H.
    fold run in H. destruct (outcome run) as [[]|e|];
      [reflexivity| |contradiction].
    destruct H as [p Hp]. rewrite Hls in Hp. discriminate. }
  split; [exact Hok|]. apply ends_with_log_last.
  revert Hok. unfold run. generalize d. fold (closes "Cleanup completed successfully!"
    (clean_files_and_folders P script_directory project_name)).
  unfold clean_files_and_folders.
  do 6 (apply closes_bind; intros ?). apply closes_log.
Qed.

Lemma cleanup_survives_failed_removals_witness :
  (forall p, listdir_error demo p = None)
  /\ rm_error demo ["C:"; "Proj"; "Game.sln"] = Some "PermissionError"
  /\ (let run := clean_files_and_folders demo (getcwd demo) "Game" demo_disk in
      outcome run = Ok tt
      /\ last (logged (events run)) "" = "Cleanup completed successfully!").
Proof.
  split; [reflexivity|split; [reflexivity|]].
  apply (cleanup_survives_failed_removals demo (getcwd demo) "Game"
           demo_disk). reflexivity.
Defined.

(** *** No run ends in an exception *)

(** A computation that never stops at the recursion bound. *)
Definition settles {A : Type} (m : M A) : Prop :=
  forall d, outcome (m d) <> OutOfFuel.

Lemma settles_bind {A B : Type} (m : M A) (f : A -> M B) :
  settles m -> (forall a, settles (f a)) -> settles (bind m f).
Proof.
  intros Hm Hf d. rewrite outcome_bind. specialize (Hm d).
  destruct (outcome (m d)) as [a|e|]; [apply Hf|discriminate|congruence].
Qed.

Lemma settles_log (message : string) : settles (log message).
Proof. intros d. discriminate. Qed.

Lemma settles_pure {A : Type} (f : node -> A) :
  settles (fun d => (Ok (f d), d, [])).
Proof. intros d. discriminate. Qed.

Lemma settles_when (b : bool) (m : M unit) : settles m -> settles (when b m).
Proof. intros H. destruct b; [exact H|intros d; discriminate]. Qed.

Lemma settles_run_command_stream (P : platform)
    (command start_message finish_message : string) :
  settles (run_command_stream P command start_message finish_message).
Proof. intros d. rewrite run_command_stream_run. discriminate. Qed.

Lemma settles_load (P : platform) (p : path) :
  settles (load_EngineAssociation P p).
Proof.
  intros d. unfold load_EngineAssociation.
  destruct (lookup p d) as [[content|es]|]; try discriminate.
  destruct (json_EngineAssociation P content); discriminate.
Qed.

Lemma settles_resolve (P : platform) (version : string) :
  settles (resolve_engine_path P version).
Proof.
  intros d. destruct (resolve_engine_path_run P version d) as (evs & -> & _).
  discriminate.
Qed.

Lemma settles_clean (P : platform) (script_directory : path)
    (project_name : string) :
  settles (clean_files_and_folders P script_directory project_name).
Proof.
  intros d H.
  pose proof (clean_files_and_folders_walked P script_directory project_name
                d) as Hw.
  rewrite H in Hw. exact Hw.
Qed.

Lemma settles_open_afterwards (P : platform) (open_sln open_uproject : bool)
    (script_directory uproject_path : path) (project_name : string) :
  settles (open_afterwards P open_sln open_uproject script_directory
             uproject_path project_name).
Proof.
  assert (Hstart : forall p, settles (os_startfile P p)).
  { intros p d. unfold os_startfile.
    destruct (startfile_error P p); discriminate. }
  unfold open_afterwards, isfile.
  apply settles_bind; [|intros _]; apply settles_when;
    (apply settles_bind; [apply settles_pure|]);
    intros [|]; try apply settles_log;
    (apply settles_bind; [apply settles_log|intros _; apply Hstart]).
Qed.

Lemma settles_build_with_engine (P : platform)
    (open_sln open_uproject : bool)
    (script_directory uproject_path unreal_engine_path : path)
    (project_name target_name : string) :
  settles (build_with_engine P open_sln open_uproject script_directory
             uproject_path unreal_engine_path project_name target_name).
Proof.
  unfold build_with_engine, exists_.
  apply settles_bind; [apply settles_pure|intros tool_found].
  destruct (negb tool_found); [apply settles_log|].
  apply settles_bind; [apply settles_log|intros _].
  apply settles_bind; [apply settles_clean|intros _].
  apply settles_bind; [apply settles_pure|intros script_found].
  destruct (negb script_found); [apply settles_log|].
  apply settles_bind; [apply settles_log|intros _].
  apply settles_bind; [apply settles_log|intros _].
  apply settles_bind; [apply settles_run_command_stream|intros _].
  apply settles_bind; [apply settles_log|intros _].
  apply settles_bind; [apply settles_log|intros _].
  apply settles_bind; [apply settles_run_command_stream|intros _].
  apply settles_bind; [apply settles_log|intros _].
  apply settles_open_afterwards.
Qed.

Lemma try_except_log_returns (body : M unit) (prefix : string) (d : node) :
  outcome (body d) <> OutOfFuel ->
  outcome (try_except body (fun e => log (prefix +++ e)) d) = Ok tt.
Proof.
  intros H. unfold try_except.
  destruct (body d) as [[[[]|e|] d1] ev1]; cbn [outcome fst] in *;
    try reflexivity.
  congruence.
Qed.

(** X11: the compile pipeline never ends in an exception: whatever the
    disk holds and whatever the project file, the registry, the removals,
    the listings, the two commands and [os.startfile] do, [run_build_process]
    returns, and so does the thread that [start_compile_thread] starts. *)
Theorem run_build_process_returns (P : platform)
    (open_sln open_uproject : bool) (d : node) :
  outcome (run_build_process P open_sln open_uproject d) = Ok tt
  /\ outcome (start_compile_thread P open_sln open_uproject d) = Ok tt.
Proof.
  assert (H : outcome (run_build_process P open_sln open_uproject d) = Ok tt).
  { unfold run_build_process. apply try_except_log_returns.
    revert d. fold (@settles unit).
    apply settles_bind; [apply settles_pure|intros uproject_files].
    destruct uproject_files as [|first others]; [apply settles_log|].
    apply settles_bind; [apply settles_when, settles_log|intros _].
    apply settles_bind; [apply settles_log|intros _].
    apply settles_bind; [apply settles_load|intros engine_version].
    destruct engine_version as [[|c version]|]; try apply settles_log.
    apply settles_bind; [apply settles_log|intros _].
    apply settles_bind; [apply settles_log|intros _].
    apply settles_bind; [apply settles_resolve|intros unreal_engine_path].
    apply settles_build_with_engine. }
  split; [exact H|].
  unfold start_compile_thread, run_compile. rewrite outcome_bind.
  cbn [status_var_set tell outcome disk_after fst snd]. exact H.
Qed.

(** *** The status values of a run *)

(** A call that neither sets the status nor starts a process. *)
Definition calm_event (e : event) : bool :=
  match e with
  | StatusSet _ | Popen _ => false
  | _ => true
  end.

Definition calm (evs : list event) : Prop := forallb calm_event evs = true.

(** The values [status_var] is set to, in order. *)
Fixpoint statuses (evs : list event) : list string :=
  match evs with
  | [] => []
  | StatusSet value :: rest => value :: statuses rest
  | _ :: rest => statuses rest
  end.

Lemma statuses_app (e1 e2 : list event) :
  statuses (e1 ++ e2) = statuses e1 ++ statuses e2.
Proof.
  induction e1 as [|e e1 IH]; [reflexivity|].
  destruct e; cbn [app statuses]; rewrite IH; reflexivity.
Qed.

Lemma calm_app (e1 e2 : list event) : calm e1 -> calm e2 -> calm (e1 ++ e2).
Proof. unfold calm. intros H1 H2. now rewrite forallb_app, H1, H2. Qed.

Lemma calm_statuses (evs : list event) : calm evs -> statuses evs = [].
Proof.
  unfold calm. induction evs as [|e evs IH]; [reflexivity|].
  cbn [forallb]. intros H. apply andb_true_iff in H as [He H].
  destruct e; try discriminate; cbn [statuses]; now apply IH.
Qed.

Lemma calm_spawned (evs : list event) : calm evs -> spawned evs = [].
Proof.
  unfold calm. induction evs as [|e evs IH]; [reflexivity|].
  cbn [forallb]. intros H. apply andb_true_iff in H as [He H].
  destruct e; try discriminate; cbn [spawned]; now apply IH.
Qed.

Lemma last_cons_default {A : Type} (x a b : A) (l : list A) :
  last (x :: l) a = last (x :: l) b.
Proof.
  revert x. induction l as [|y l IH]; intros x; [reflexivity|].
  change (last (y :: l) a = last (y :: l) b). apply IH.
Qed.

Lemma status_after_statuses (s : string) (evs : list event) :
  status_after s evs = last (statuses evs) s.
Proof.
  revert s. induction evs as [|e evs IH]; intros s; [reflexivity|].
  destruct e; cbn [statuses]; try apply IH.
  change (status_after s (StatusSet value :: evs))
    with (status_after value evs).
  rewrite IH. destruct (statuses evs) as [|x l] eqn:E; [reflexivity|].
  change (last (value :: x :: l) s) with (last (x :: l) s).
  apply last_cons_default.
Qed.

(** What a finished command leaves in the status. *)
Definition verdict (o : proc_outcome) : string :=
  match o with
  | Exited _ retcode => if (retcode =? 0)%Z then "Done" else "Error"
  | Failed _ _ => "Error"
  end.

Lemma statuses_output_lines (stdout : list string) :
  statuses (output_lines stdout) = [].
Proof. unfold output_lines. induction (iter_readline stdout); auto. Qed.

Lemma statuses_run_command_stream (P : platform)
    (command start_message finish_message : string) (d : node) :
  statuses (events (run_command_stream P command start_message
                      finish_message d))
  = [start_message; verdict (fst (run_process P command d))].
Proof.
  rewrite run_command_stream_run. cbn [events snd app statuses]. f_equal.
  destruct (fst (run_process P command d)) as [stdout retcode|stdout e];
    rewrite statuses_app, statuses_output_lines; cbn [app verdict];
    [|reflexivity].
  now destruct (retcode =? 0)%Z.
Qed.

Definition calmly : node -> node -> list event -> Prop := only calm_event.

Lemma calmly_refl (d : node) : calmly d d [].
Proof. reflexivity. Qed.

Lemma calmly_trans (d d1 d2 : node) (e1 e2 : list event) :
  calmly d d1 e1 -> calmly d1 d2 e2 -> calmly d d2 (e1 ++ e2).
Proof. apply only_trans. Qed.

Lemma calmly_log (message : string) : holds calmly (log message).
Proof. intros d. reflexivity. Qed.

Section Lookup.

Variable P : platform.
Variable I : node -> node -> list event -> Prop.
Hypothesis I_refl : forall d, I d d [].
Hypothesis I_trans : forall d d1 d2 e1 e2,
  I d d1 e1 -> I d1 d2 e2 -> I d d2 (e1 ++ e2).
Hypothesis I_log : forall message, holds I (log message).

(** What log lines keep, reading the project file and looking for the
    engine keep. *)
Lemma load_kept (p : path) : holds I (load_EngineAssociation P p).
Proof. intros d. rewrite load_EngineAssociation_run. apply I_refl. Qed.

Lemma resolve_kept (version : string) :
  holds I (resolve_engine_path P version).
Proof.
  assert (Hfind : holds I (find_unreal_engine_path_from_registry P version)).
  { unfold find_unreal_engine_path_from_registry, exists_.
    destruct (winreg_InstalledDirectory P _) as [dir|].
    - apply (holds_bind _ I_trans);
        [apply (holds_pure _ I_refl)|intros on_disk].
      destruct (nonempty dir && on_disk); [apply (holds_ret _ I_refl)|].
      apply (holds_bind _ I_trans); [apply I_log|intros _].
      apply (holds_ret _ I_refl).
    - apply (holds_bind _ I_trans); [apply I_log|intros _].
      apply (holds_ret _ I_refl). }
  assert (Hthen : forall (message : string) (p : path),
            holds I (log message ;; ret p)).
  { intros message p. apply (holds_bind _ I_trans);
      [apply I_log|intros _; apply (holds_ret _ I_refl)]. }
  unfold resolve_engine_path.
  destruct (environ_UNREAL_ENGINE_PATH P) as [[|x p]|]; try apply Hthen;
    (apply (holds_bind _ I_trans); [exact Hfind|intros found];
     destruct found as [[|y q]|]; apply Hthen).
Qed.

End Lookup.

Section Phases.

Variable P : platform.

Lemma calmly_clean (script_directory : path) (project_name : string) :
  holds calmly (clean_files_and_folders P script_directory project_name).
Proof.
  apply (clean_files_and_folders_kept P calmly); try (intros; reflexivity).
  apply calmly_trans.
Qed.

Lemma calmly_load (p : path) : holds calmly (load_EngineAssociation P p).
Proof. apply (load_kept P calmly calmly_refl). Qed.

Lemma calmly_resolve (version : string) :
  holds calmly (resolve_engine_path P version).
Proof. apply (resolve_kept P calmly calmly_refl calmly_trans calmly_log). Qed.

Lemma calmly_open_afterwards (open_sln open_uproject : bool)
    (script_directory uproject_path : path) (project_name : string) :
  holds calmly (open_afterwards P open_sln open_uproject script_directory
                  uproject_path project_name).
Proof.
  assert (Hstart : forall p, holds calmly (os_startfile P p)).
  { intros p d. unfold os_startfile. now destruct (startfile_error P p). }
  unfold open_afterwards, isfile.
  apply (holds_bind _ calmly_trans); [|intros _];
    apply (holds_when _ calmly_refl);
    (apply (holds_bind _ calmly_trans); [apply (holds_pure _ calmly_refl)|]);
    intros [|]; try apply calmly_log;
    (apply (holds_bind _ calmly_trans);
     [apply calmly_log|intros _; apply Hstart]).
Qed.

(** The calls of a run that stops before the streamed steps, or of one
    that goes through both. *)
Definition phased (evs : list event) : Prop :=
  calm evs
  \/ exists pre post d1 engine uproject target,
       evs = pre
             ++ events (regeneration P engine uproject d1)
             ++ [Log (NL +++ "=== Compiling the project ===");
                 Log ("Executing: "
                      +++ compile_command_of (build_tool_dll_of engine)
                            uproject target)]
             ++ events (compilation P engine uproject target d1)
             ++ Log (NL +++ "Project files compiled successfully.") :: post
       /\ calm pre /\ calm post.

Lemma phased_prepend (pre0 evs : list event) :
  calm pre0 -> phased evs -> phased (pre0 ++ evs).
Proof.
  intros H0 [Hq|(pre & post & d1 & engine & uproject & target & -> & Hpre & Hpost)].
  - left. now apply calm_app.
  - right. exists (pre0 ++ pre), post, d1, engine, uproject, target.
    rewrite <- app_assoc. repeat split; [|assumption]. now apply calm_app.
Qed.

Lemma phased_append (evs post0 : list event) :
  calm post0 -> phased evs -> phased (evs ++ post0).
Proof.
  intros H0 [Hq|(pre & post & d1 & engine & uproject & target & -> & Hpre & Hpost)].
  - left. now apply calm_app.
  - right. exists pre, (post ++ post0), d1, engine, uproject, target.
    repeat split; [|assumption|now apply calm_app].
    rewrite <- !app_assoc. reflexivity.
Qed.

Definition phases {A : Type} (m : M A) : Prop :=
  forall d, phased (events (m d)).

Lemma phases_calm {A : Type} (m : M A) : holds calmly m -> phases m.
Proof. intros H d. left. apply H. Qed.

Lemma phases_bind {A B : Type} (m : M A) (f : A -> M B) :
  holds calmly m -> (forall a, phases (f a)) -> phases (bind m f).
Proof.
  intros Hm Hf d. specialize (Hm d). unfold bind.
  destruct (m d) as [[[a|e|] d1] ev1]; cbn [events snd] in *;
    try (left; assumption).
  specialize (Hf a d1). destruct (f a d1) as [[r d2] ev2].
  cbn [events snd] in *. now apply phased_prepend.
Qed.

Lemma phases_try_except {A : Type} (body : M A) (handler : string -> M A) :
  phases body -> (forall e, holds calmly (handler e)) ->
  phases (try_except body handler).
Proof.
  intros Hb Hh d. specialize (Hb d). unfold try_except.
  destruct (body d) as [[[a|e|] d1] ev1]; cbn [events snd] in *;
    try assumption.
  specialize (Hh e d1).
  destruct (handler e d1) as [[r d2] ev2]. cbn [events snd] in *.
  now apply phased_append.
Qed.

Lemma phases_streamed_steps (open_sln open_uproject : bool)
    (script_directory uproject_path unreal_engine_path : path)
    (project_name target_name : string) :
  phases
    (run_command_stream P
       (build_command_of (build_script_path_of unreal_engine_path)
          uproject_path)
       "Recreating SLN" "SLN file recreated successfully" ;;
     log (NL +++ "=== Compiling the project ===") ;;
     log ("Executing: "
          +++ compile_command_of (build_tool_dll_of unreal_engine_path)
                uproject_path target_name) ;;
     run_command_stream P
       (compile_command_of (build_tool_dll_of unreal_engine_path)
          uproject_path target_name)
       "Compiling project" "Project compiled successfully" ;;
     log (NL +++ "Project files compiled successfully.") ;;
     open_afterwards P open_sln open_uproject script_directory uproject_path
       project_name).
Proof.
  intros d1. right.
  exists [],
    (events (open_afterwards P open_sln open_uproject script_directory
               uproject_path project_name
               (disk_after
                  (compilation P unreal_engine_path uproject_path target_name
                     d1)))),
    d1, unreal_engine_path, uproject_path, target_name.
  split; [|split; [reflexivity|apply calmly_open_afterwards]].
  unfold compilation, regeneration.
  set (bc := build_command_of (build_script_path_of unreal_engine_path)
               uproject_path).
  set (cc := compile_command_of (build_tool_dll_of unreal_engine_path)
               uproject_path target_name).
  assert (Ho : forall c s f d,
            outcome (run_command_stream P c s f d) = Ok tt)
    by (intros; now rewrite run_command_stream_run).
  erewrite bind_ok; [|rewrite (triple_eta (run_command_stream P bc _ _ d1));
                      rewrite Ho; reflexivity].
  set (d2 := disk_after (run_command_stream P bc "Recreating SLN"
                           "SLN file recreated successfully" d1)).
  rewrite (bind_ok _ _ d2 d2 tt [Log (NL +++ "=== Compiling the project ===")])
    by reflexivity.
  rewrite (bind_ok _ _ d2 d2 tt [Log ("Executing: " +++ cc)]) by reflexivity.
  erewrite bind_ok; [|rewrite (triple_eta (run_command_stream P cc _ _ d2));
                      rewrite Ho; reflexivity].
  set (d3 := disk_after (run_command_stream P cc "Compiling project"
                           "Project compiled successfully" d2)).
  rewrite (bind_ok _ _ d3 d3 tt
             [Log (NL +++ "Project files compiled successfully.")])
    by reflexivity.
  rewrite !events_after. cbn [app]. reflexivity.
Qed.

Lemma phases_run_build_process (open_sln open_uproject : bool) :
  phases (run_build_process P open_sln open_uproject).
Proof.
  unfold run_build_process.
  apply phases_try_except; [|intros e; apply calmly_log].
  apply phases_bind; [apply (holds_pure _ calmly_refl)|intros uproject_files].
  destruct uproject_files as [|first others]; [apply phases_calm, calmly_log|].
  apply phases_bind; [apply (holds_when _ calmly_refl), calmly_log|intros _].
  apply phases_bind; [apply calmly_log|intros _].
  apply phases_bind; [apply calmly_load|intros engine_version].
  destruct engine_version as [[|c version]|];
    try (apply phases_calm, calmly_log).
  apply phases_bind; [apply calmly_log|intros _].
  apply phases_bind; [apply calmly_log|intros _].
  apply phases_bind; [apply calmly_resolve|intros unreal_engine_path].
  unfold build_with_engine, exists_.
  apply phases_bind; [apply (holds_pure _ calmly_refl)|intros tool_found].
  destruct (negb tool_found); [apply phases_calm, calmly_log|].
  apply phases_bind; [apply calmly_log|intros _].
  apply phases_bind; [apply calmly_clean|intros _].
  apply phases_bind; [apply (holds_pure _ calmly_refl)|intros script_found].
  destruct (negb script_found); [apply phases_calm, calmly_log|].
  apply phases_bind; [apply calmly_log|intros _].
  apply phases_bind; [apply calmly_log|intros _].
  apply phases_streamed_steps.
Qed.

End Phases.

(** The status values of a run of the compile pipeline. *)
Lemma statuses_run_build_process (P : platform)
    (open_sln open_uproject : bool) (d : node) :
  let evs := events (run_build_process P open_sln open_uproject d) in
  statuses evs = []
  \/ exists d1 engine uproject target,
       statuses evs
       = ["Recreating SLN";
          verdict (fst (run_process P
            (build_command_of (build_script_path_of engine) uproject) d1));
          "Compiling project";
          verdict (fst (run_process P
            (compile_command_of (build_tool_dll_of engine) uproject target)
            (snd (run_process P
               (build_command_of (build_script_path_of engine) uproject)
               d1))))].
Proof.
  intros evs.
  destruct (phases_run_build_process P open_sln open_uproject d)
    as [Hq|(pre & post & d1 & engine & uproject & target & Hevs & Hpre & Hpost)].
  - left. exact (calm_statuses _ Hq).
  - right. fold evs in Hevs. exists d1, engine, uproject, target.
    rewrite Hevs. rewrite !statuses_app, (calm_statuses _ Hpre).
    unfold compilation, regeneration.
    rewrite !statuses_run_command_stream.
    rewrite run_command_stream_run. cbn [disk_after fst snd statuses app].
    now rewrite (calm_statuses _ Hpost).
Qed.

(** X12: in a run of the compile pipeline the status is either never set,
    or set four times: "Recreating SLN", the verdict on the regeneration
    command (Done for exit code 0, else Error), "Compiling project", and
    the verdict on the compile command.  So the status at the end of a run
    that reached the streamed steps tells how the compile command ended and
    nothing about the regeneration: a failed regeneration followed by a
    compile that exits with 0 ends in Done. *)
Theorem status_reports_the_compile_step (P : platform)
    (open_sln open_uproject : bool) (d : node) (status : string) :
  let evs := events (run_build_process P open_sln open_uproject d) in
  (statuses evs = [] /\ status_after status evs = status)
  \/ exists d1 engine uproject target,
       let build_command :=
         build_command_of (build_script_path_of engine) uproject in
       let compile_command :=
         compile_command_of (build_tool_dll_of engine) uproject target in
       let regenerated := run_process P build_command d1 in
       let compiled := run_process P compile_command (snd regenerated) in
       statuses evs
       = ["Recreating SLN"; verdict (fst regenerated);
          "Compiling project"; verdict (fst compiled)]
       /\ status_after status evs = verdict (fst compiled).
Proof.
  intros evs.
  destruct (statuses_run_build_process P open_sln open_uproject d)
    as [Hq|(d1 & engine & uproject & target & Hst)]; fold evs in Hq || fold evs in Hst.
  - left. rewrite status_after_statuses, Hq. split; reflexivity.
  - right. exists d1, engine, uproject, target. cbv zeta.
    split; [exact Hst|]. rewrite status_after_statuses, Hst. reflexivity.
Qed.

(** *** Runs that stop early *)

(** The calls made once a project file is found. *)
Definition found_events (P : platform) (first : string)
    (others : list string) : list event :=
  (if (1 <? length (first :: others))%nat
   then [Log "More than one .uproject file found. Selecting the first one."]
   else [])
  ++ [Log (".uproject file found: "
           +++ show_path (os_path_join (getcwd P) first))].

Lemma found_run {A : Type} (P : platform) (first : string)
    (others : list string) (k : M A) (d : node) :
  (when (1 <? length (first :: others))%nat
     (log "More than one .uproject file found. Selecting the first one.") ;;
   log (".uproject file found: "
        +++ show_path (os_path_join (getcwd P) first)) ;;
   k) d
  = after (found_events P first others) (k d).
Proof.
  rewrite (bind_ok _ _ d d tt _ (when_log _ _ d)).
  rewrite (bind_ok _ _ d d tt
             [Log (".uproject file found: "
                   +++ show_path (os_path_join (getcwd P) first))])
    by reflexivity.
  now rewrite after_after.
Qed.

(** X13: the compile pipeline stops before it looks for the engine when
    the working directory holds no project file, when the first project file
    cannot be read as JSON, and when its EngineAssociation is missing or
    empty.  In each case the run returns with the disk as it was, and its
    calls are the log lines about the project file followed by one line that
    tells the reason; the status is not set. *)
Theorem run_build_process_stops_without_a_version (P : platform)
    (open_sln open_uproject : bool) (d : node) :
  let run := run_build_process P open_sln open_uproject d in
  match uproject_files P d with
  | [] =>
      run = (Ok tt, d,
             [Log "No .uproject file found in the current directory."])
  | first :: others =>
      match outcome (load_EngineAssociation P
                       (os_path_join (getcwd P) first) d) with
      | Raise e =>
          run = (Ok tt, d,
                 found_events P first others ++ [Log ("Error: " +++ e)])
      | Ok None | Ok (Some "") =>
          run = (Ok tt, d,
                 found_events P first others
                 ++ [Log "'EngineAssociation' key not found in the .uproject file."])
      | _ => True
      end
  end.
Proof.
  intros run. unfold run, run_build_process, try_except.
  rewrite (bind_ok _ _ d d (uproject_files P d) []) by reflexivity.
  rewrite after_nil.
  destruct (uproject_files P d) as [|first others] eqn:Hglob.
  - reflexivity.
  - rewrite found_run.
    pose proof (load_EngineAssociation_run P (os_path_join (getcwd P) first) d)
      as Hload.
    destruct (outcome (load_EngineAssociation P
                         (os_path_join (getcwd P) first) d))
      as [[[|c version]|]|e|].
    + rewrite (bind_ok _ _ _ _ _ _ Hload). reflexivity.
    + exact I.
    + rewrite (bind_ok _ _ _ _ _ _ Hload). reflexivity.
    + rewrite (bind_raise _ _ _ _ _ _ Hload). cbn [after log tell].
      now rewrite app_nil_r.
    + exact I.
Qed.

(** The run on a project file that cannot be read. *)
Lemma run_build_process_unreadable (P : platform)
    (open_sln open_uproject : bool) (d : node) (first : string)
    (others : list string) (e : string) :
  uproject_files P d = first :: others ->
  outcome (load_EngineAssociation P (os_path_join (getcwd P) first) d)
    = Raise e ->
  run_build_process P open_sln open_uproject d
  = (Ok tt, d, found_events P first others ++ [Log ("Error: " +++ e)]).
Proof.
  intros Hglob Hload. unfold run_build_process, try_except.
  rewrite (bind_ok _ _ d d (uproject_files P d) []) by reflexivity.
  rewrite after_nil, Hglob, found_run.
  pose proof (load_EngineAssociation_run P (os_path_join (getcwd P) first) d)
    as Hrun.
  rewrite Hload in Hrun. rewrite (bind_raise _ _ _ _ _ _ Hrun).
  cbn [after log tell]. now rewrite app_nil_r.
Qed.

(** A pipeline that finds the build tool, cleans, and then misses
    Build.bat. *)
Lemma build_with_engine_script_missing (P : platform)
    (open_sln open_uproject : bool)
    (script_directory uproject_path unreal_engine_path : path)
    (project_name target_name : string) (d : node) :
  os_path_exists (build_tool_dll_of unreal_engine_path) d = true ->
  let cleaned := clean_files_and_folders P script_directory project_name d in
  outcome cleaned = Ok tt ->
  os_path_exists (build_script_path_of unreal_engine_path)
    (disk_after cleaned) = false ->
  build_with_engine P open_sln open_uproject script_directory uproject_path
    unreal_engine_path project_name target_name d
  = (Ok tt, disk_after cleaned,
     [Log (NL +++ "=== Cleaning project files for rebuild ===")]
     ++ events cleaned
     ++ [Log ("Build.bat file not found at: "
              +++ show_path (build_script_path_of unreal_engine_path))]).
Proof.
  intros Htool cleaned Hok Hscript. unfold build_with_engine.
  rewrite (bind_ok _ _ d d true []); [|unfold exists_; now rewrite Htool].
  rewrite after_nil. cbn [negb].
  rewrite (bind_ok _ _ d d tt
             [Log (NL +++ "=== Cleaning project files for rebuild ===")])
    by reflexivity.
  rewrite (bind_ok _ _ d (disk_after cleaned) tt (events cleaned));
    [|rewrite (triple_eta (clean_files_and_folders P _ _ d));
      fold cleaned; now rewrite Hok].
  rewrite (bind_ok _ _ (disk_after cleaned) (disk_after cleaned) false []);
    [|unfold exists_; now rewrite Hscript].
  reflexivity.
Qed.

(** A disk as [demo_disk] whose engine has no Build.bat. *)
Definition demo_disk_without_script : node :=
  Dir [("C:", Dir
    [("Proj", Dir
       [("Game.uproject", File "5.3");
        ("Binaries", Dir [("Win64", Dir [("Game.exe", File "")])]);
        ("Source", Dir [("Game.cpp", File "")])]);
     ("UE", Dir
       [("Engine", Dir
          [("Binaries", Dir
             [("DotNET", Dir
                [("UnrealBuildTool", Dir
                   [("UnrealBuildTool.dll", File "")])])])])])])].

(** X14: Build.bat is looked for only after the cleanup.  When the
    project, its engine version and UnrealBuildTool.dll are found, the
    cleanup returns, and Build.bat does not exist afterwards under the
    engine path, the run ends with a log line that names the missing file
    and starts no process, but the disk is the one the cleanup left: the
    build artifacts are already deleted. *)
Theorem missing_build_script_is_found_after_cleanup (P : platform)
    (open_sln open_uproject : bool) (d : node) (first : string)
    (others : list string) (version : string) :
  uproject_files P d = first :: others ->
  outcome (load_EngineAssociation P (os_path_join (getcwd P) first) d)
    = Ok (Some version) ->
  version <> "" ->
  let engine := engine_root P version d in
  os_path_exists (build_tool_dll_of engine) d = true ->
  let cleaned :=
    clean_files_and_folders P (getcwd P) (splitext_root first) d in
  outcome cleaned = Ok tt ->
  os_path_exists (build_script_path_of engine) (disk_after cleaned) = false ->
  let run := run_build_process P open_sln open_uproject d in
  outcome run = Ok tt
  /\ disk_after run = disk_after cleaned
  /\ deletions (events run) = deletions (events cleaned)
  /\ spawned (events run) = []
  /\ last (logged (events run)) ""
     = "Build.bat file not found at: "
       +++ show_path (build_script_path_of engine).
Proof.
  intros Hglob Hload Hver engine Htool cleaned Hok Hscript run.
  destruct (run_build_process_located P open_sln open_uproject d first others
              version Hglob Hload Hver) as (evs & Hs & Hd & Hst & Hrun).
  assert (Hloc : spawned (located_events P first others version) = []
                 /\ deletions (located_events P first others version) = []).
  { unfold located_events.
    destruct (1 <? length (first :: others))%nat; split; reflexivity. }
  destruct Hloc as (Hs' & Hd').
  assert (Hcs : spawned (events cleaned) = []).
  { apply calm_spawned. apply (calmly_clean P (getcwd P) (splitext_root first) d). }
  unfold run. rewrite Hrun.
  unfold try_except.
  rewrite (build_with_engine_script_missing P open_sln open_uproject
             (getcwd P) (os_path_join (getcwd P) first)
             (engine_root P version d)
             (splitext_root first) (splitext_root first +++ "Editor") d
             Htool Hok Hscript).
  fold cleaned. cbn [after outcome disk_after events fst snd].
  split; [reflexivity|]. split; [reflexivity|].
  rewrite !deletions_app, !spawned_app, Hs, Hd, Hs', Hd', Hcs.
  split; [cbn [deletions app]; now rewrite app_nil_r|].
  split; [reflexivity|].
  rewrite !app_assoc. apply logged_last.
Qed.

Lemma missing_build_script_is_found_after_cleanup_witness :
  let cleaned :=
    clean_files_and_folders demo (getcwd demo) "Game"
      demo_disk_without_script in
  let run := run_build_process demo false false demo_disk_without_script in
  deletions (events run) = [["C:"; "Proj"; "Binaries"]]
  /\ os_path_exists ["C:"; "Proj"; "Binaries"] (disk_after run) = false
  /\ outcome run = Ok tt
  /\ disk_after run = disk_after cleaned
  /\ deletions (events run) = deletions (events cleaned)
  /\ spawned (events run) = []
  /\ last (logged (events run)) ""
     = "Build.bat file not found at: "
       +++ show_path (build_script_path_of ["C:"; "UE"]).
Proof.
  intros cleaned run.
  split; [vm_compute; reflexivity|]. split; [vm_compute; reflexivity|].
  apply (missing_build_script_is_found_after_cleanup demo false false
           demo_disk_without_script "Game.uproject" [] "5.3").
  - vm_compute; reflexivity.
  - vm_compute; reflexivity.
  - discriminate.
  - vm_compute; reflexivity.
  - vm_compute; reflexivity.
  - vm_compute; reflexivity.
Defined.

(** *** Runs that reach the streamed steps *)

(** The disk is left as it was. *)
Definition unmoved (d d' : node) (evs : list event) : Prop := d' = d.

Lemma unmoved_trans (d d1 d2 : node) (e1 e2 : list event) :
  unmoved d d1 e1 -> unmoved d1 d2 e2 -> unmoved d d2 (e1 ++ e2).
Proof. unfold unmoved. congruence. Qed.

Lemma unmoved_open_afterwards (P : platform) (open_sln open_uproject : bool)
    (script_directory uproject_path : path) (project_name : string) :
  holds unmoved (open_afterwards P open_sln open_uproject script_directory
                   uproject_path project_name).
Proof.
  assert (Hrefl : forall d, unmoved d d []) by reflexivity.
  assert (Hlog : forall message, holds unmoved (log message))
    by (intros message d; reflexivity).
  assert (Hstart : forall p, holds unmoved (os_startfile P p)).
  { intros p d. unfold os_startfile. now destruct (startfile_error P p). }
  unfold open_afterwards, isfile.
  apply (holds_bind _ unmoved_trans); [|intros _];
    apply (holds_when _ Hrefl);
    (apply (holds_bind _ unmoved_trans); [apply (holds_pure _ Hrefl)|]);
    intros [|]; try apply Hlog;
    (apply (holds_bind _ unmoved_trans); [apply Hlog|intros _; apply Hstart]).
Qed.

Lemma calm_of_lists (evs : list event) :
  spawned evs = [] -> statuses evs = [] -> calm evs.
Proof.
  unfold calm. induction evs as [|e evs IH]; [reflexivity|].
  destruct e; cbn [spawned statuses forallb calm_event andb];
    try discriminate; exact IH.
Qed.

Lemma statuses_of_kept_status (evs : list event) :
  (forall s, status_after s evs = s) -> statuses evs = [].
Proof.
  intros H. destruct (statuses evs) as [|x l] eqn:E; [reflexivity|].
  pose proof (H "a") as Ha. pose proof (H "b") as Hb.
  rewrite status_after_statuses, E in Ha, Hb.
  rewrite (last_cons_default x "a" "b") in Ha. congruence.
Qed.

Lemma disk_after_regeneration (P : platform) (engine uproject : path)
    (d1 : node) :
  disk_after (regeneration P engine uproject d1)
  = snd (run_process P
           (build_command_of (build_script_path_of engine) uproject) d1).
Proof. unfold regeneration. now rewrite run_command_stream_run. Qed.

Lemma disk_after_compilation (P : platform) (engine uproject : path)
    (target : string) (d1 : node) :
  disk_after (compilation P engine uproject target d1)
  = snd (run_process P
           (compile_command_of (build_tool_dll_of engine) uproject target)
           (snd (run_process P
                   (build_command_of (build_script_path_of engine) uproject)
                   d1))).
Proof.
  unfold compilation. rewrite disk_after_regeneration.
  now rewrite run_command_stream_run.
Qed.

(** A pipeline that finds the build tool, cleans, and finds Build.bat goes
    through both streamed steps. *)
Lemma build_with_engine_steps (P : platform)
    (open_sln open_uproject : bool)
    (script_directory uproject_path unreal_engine_path : path)
    (project_name target_name : string) (d : node) :
  os_path_exists (build_tool_dll_of unreal_engine_path) d = true ->
  let cleaned := clean_files_and_folders P script_directory project_name d in
  outcome cleaned = Ok tt ->
  os_path_exists (build_script_path_of unreal_engine_path)
    (disk_after cleaned) = true ->
  let build_command :=
    build_command_of (build_script_path_of unreal_engine_path) uproject_path in
  let compile_command :=
    compile_command_of (build_tool_dll_of unreal_engine_path) uproject_path
      target_name in
  build_with_engine P open_sln open_uproject script_directory uproject_path
    unreal_engine_path project_name target_name d
  = after
      (([Log (NL +++ "=== Cleaning project files for rebuild ===")]
        ++ events cleaned
        ++ [Log (NL +++ "=== Recreating SLN file (calling Build.bat) ===");
            Log ("Executing: " +++ build_command)])
       ++ events (regeneration P unreal_engine_path uproject_path
                    (disk_after cleaned))
       ++ [Log (NL +++ "=== Compiling the project ===");
           Log ("Executing: " +++ compile_command)]
       ++ events (compilation P unreal_engine_path uproject_path target_name
                    (disk_after cleaned))
       ++ [Log (NL +++ "Project files compiled successfully.")])
      (open_afterwards P open_sln open_uproject script_directory
         uproject_path project_name
         (disk_after (compilation P unreal_engine_path uproject_path
                        target_name (disk_after cleaned)))).
Proof.
  intros Htool cleaned Hok Hscript bc cc. unfold build_with_engine.
  rewrite (bind_ok _ _ d d true []); [|unfold exists_; now rewrite Htool].
  rewrite after_nil. cbn [negb].
  rewrite (bind_ok _ _ d d tt
             [Log (NL +++ "=== Cleaning project files for rebuild ===")])
    by reflexivity.
  rewrite (bind_ok _ _ d (disk_after cleaned) tt (events cleaned));
    [|rewrite (triple_eta (clean_files_and_folders P _ _ d));
      fold cleaned; now rewrite Hok].
  set (d1 := disk_after cleaned) in *.
  rewrite (bind_ok _ _ d1 d1 true []);
    [|unfold exists_; now rewrite Hscript].
  rewrite after_nil. cbn [negb]. fold bc. fold cc.
  rewrite (bind_ok _ _ d1 d1 tt
             [Log (NL +++ "=== Recreating SLN file (calling Build.bat) ===")])
    by reflexivity.
  rewrite (bind_ok _ _ d1 d1 tt [Log ("Executing: " +++ bc)]) by reflexivity.
  unfold compilation, regeneration. fold bc. fold cc.
  assert (Ho : forall c s f d,
            outcome (run_command_stream P c s f d) = Ok tt)
    by (intros; now rewrite run_command_stream_run).
  erewrite bind_ok; [|rewrite (triple_eta (run_command_stream P bc _ _ d1));
                      rewrite Ho; reflexivity].
  set (d2 := disk_after (run_command_stream P bc "Recreating SLN"
                           "SLN file recreated successfully" d1)).
  rewrite (bind_ok _ _ d2 d2 tt [Log (NL +++ "=== Compiling the project ===")])
    by reflexivity.
  rewrite (bind_ok _ _ d2 d2 tt [Log ("Executing: " +++ cc)]) by reflexivity.
  erewrite bind_ok; [|rewrite (triple_eta (run_command_stream P cc _ _ d2));
                      rewrite Ho; reflexivity].
  set (d3 := disk_after (run_command_stream P cc "Compiling project"
                           "Project compiled successfully" d2)).
  rewrite (bind_ok _ _ d3 d3 tt
             [Log (NL +++ "Project files compiled successfully.")])
    by reflexivity.
  rewrite !after_after. f_equal. rewrite <- !app_assoc. reflexivity.
Qed.

(** With a project file, its engine version, the build tool, a cleanup that
    returns and Build.bat, a run goes through both streamed steps and
    returns. *)
Lemma run_build_process_steps (P : platform) (open_sln open_uproject : bool)
    (d : node) (first : string) (others : list string) (version : string) :
  uproject_files P d = first :: others ->
  outcome (load_EngineAssociation P (os_path_join (getcwd P) first) d)
    = Ok (Some version) ->
  version <> "" ->
  let engine := engine_root P version d in
  os_path_exists (build_tool_dll_of engine) d = true ->
  let cleaned :=
    clean_files_and_folders P (getcwd P) (splitext_root first) d in
  outcome cleaned = Ok tt ->
  os_path_exists (build_script_path_of engine) (disk_after cleaned) = true ->
  let uproject := os_path_join (getcwd P) first in
  let target := splitext_root first +++ "Editor" in
  exists pre post,
    calm pre /\ calm post
    /\ run_build_process P open_sln open_uproject d
       = (Ok tt,
          disk_after (compilation P engine uproject target (disk_after cleaned)),
          pre
          ++ events (regeneration P engine uproject (disk_after cleaned))
          ++ [Log (NL +++ "=== Compiling the project ===");
              Log ("Executing: "
                   +++ compile_command_of (build_tool_dll_of engine) uproject
                         target)]
          ++ events (compilation P engine uproject target (disk_after cleaned))
          ++ Log (NL +++ "Project files compiled successfully.") :: post).
Proof.
  intros Hglob Hload Hver engine Htool cleaned Hok Hscript uproject target.
  destruct (run_build_process_located P open_sln open_uproject d first others
              version Hglob Hload Hver) as (evs & Hs & Hd & Hst & Hrun).
  pose proof (build_with_engine_steps P open_sln open_uproject (getcwd P)
                uproject engine (splitext_root first) target d Htool Hok
                Hscript) as Hsteps.
  cbv zeta in Hsteps. fold cleaned in Hsteps.
  set (d3 := disk_after (compilation P engine uproject target
                           (disk_after cleaned))) in *.
  pose proof (unmoved_open_afterwards P open_sln open_uproject (getcwd P)
                uproject (splitext_root first) d3) as Hdisk.
  pose proof (calmly_open_afterwards P open_sln open_uproject (getcwd P)
                uproject (splitext_root first) d3) as Hcalm.
  pose proof (settles_open_afterwards P open_sln open_uproject (getcwd P)
                uproject (splitext_root first) d3) as Hfuel.
  unfold unmoved in Hdisk. unfold calmly, only in Hcalm.
  assert (Hpre : calm ((located_events P first others version ++ evs)
                       ++ [Log (NL +++ "=== Cleaning project files for rebuild ===")]
                       ++ events cleaned
                       ++ [Log (NL +++ "=== Recreating SLN file (calling Build.bat) ===");
                           Log ("Executing: "
                                +++ build_command_of
                                      (build_script_path_of engine) uproject)])).
  { repeat apply calm_app; try reflexivity.
    - unfold located_events.
      now destruct (1 <? length (first :: others))%nat.
    - apply calm_of_lists; [exact Hs|now apply statuses_of_kept_status].
    - apply (calmly_clean P (getcwd P) (splitext_root first) d). }
  rewrite Hrun. unfold try_except. fold engine. fold uproject. fold target.
  rewrite Hsteps, after_after.
  destruct (open_afterwards P open_sln open_uproject (getcwd P) uproject
              (splitext_root first) d3) as [[[[]|e|] d4] ev4];
    cbn [outcome disk_after events fst snd] in Hdisk, Hcalm, Hfuel;
    [| |congruence]; subst d4.
  - eexists. exists ev4. split; [exact Hpre|]. split; [exact Hcalm|].
    cbn [after]. f_equal. rewrite <- !app_assoc. reflexivity.
  - eexists. exists (ev4 ++ [Log ("Error: " +++ e)]).
    split; [exact Hpre|]. split; [apply calm_app; [exact Hcalm|reflexivity]|].
    cbn [after log tell]. f_equal. rewrite <- !app_assoc. reflexivity.
Qed.

(** C4: when the compile pipeline reaches the regeneration step (the
    working directory holds a project file whose EngineAssociation is read
    and not empty, UnrealBuildTool.dll exists under the engine path, the
    cleanup returns, and Build.bat exists after it), the run starts the
    regeneration command for that project and engine and then, whatever the
    regeneration command printed, returned or raised, the compile command
    for the Editor target, on the disk the regeneration left.  Each of the
    two steps sets the status to its label and then to its verdict (Done
    for exit code 0, else Error), so the status ends as the verdict on the
    compile step; between the calls of the two steps there are only the two
    log lines that announce the compile step; the line "Project files
    compiled successfully." follows; and the run returns. *)
Theorem compile_follows_regeneration (P : platform)
    (open_sln open_uproject : bool) (d : node) (first : string)
    (others : list string) (version status : string) :
  uproject_files P d = first :: others ->
  outcome (load_EngineAssociation P (os_path_join (getcwd P) first) d)
    = Ok (Some version) ->
  version <> "" ->
  let engine := engine_root P version d in
  os_path_exists (build_tool_dll_of engine) d = true ->
  let cleaned :=
    clean_files_and_folders P (getcwd P) (splitext_root first) d in
  outcome cleaned = Ok tt ->
  os_path_exists (build_script_path_of engine) (disk_after cleaned) = true ->
  let uproject := os_path_join (getcwd P) first in
  let target := splitext_root first +++ "Editor" in
  let build_command :=
    build_command_of (build_script_path_of engine) uproject in
  let compile_command :=
    compile_command_of (build_tool_dll_of engine) uproject target in
  let regenerated := run_process P build_command (disk_after cleaned) in
  let compiled := run_process P compile_command (snd regenerated) in
  let run := run_build_process P open_sln open_uproject d in
  outcome run = Ok tt
  /\ spawned (events run) = [build_command; compile_command]
  /\ statuses (events run)
     = ["Recreating SLN"; verdict (fst regenerated);
        "Compiling project"; verdict (fst compiled)]
  /\ status_after status (events run) = verdict (fst compiled)
  /\ disk_after run = snd compiled
  /\ exists pre post,
       events run
       = pre
         ++ events (regeneration P engine uproject (disk_after cleaned))
         ++ [Log (NL +++ "=== Compiling the project ===");
             Log ("Executing: " +++ compile_command)]
         ++ events (compilation P engine uproject target (disk_after cleaned))
         ++ Log (NL +++ "Project files compiled successfully.") :: post
       /\ calm pre /\ calm post.
Proof.
  intros Hglob Hload Hver engine Htool cleaned Hok Hscript uproject target
    build_command compile_command regenerated compiled run.
  destruct (run_build_process_steps P open_sln open_uproject d first others
              version Hglob Hload Hver Htool Hok Hscript)
    as (pre & post & Hpre & Hpost & Hrun).
  fold engine cleaned uproject target in Hrun. fold compile_command in Hrun.
  fold run in Hrun.
  assert (Hst : statuses (events run)
                = ["Recreating SLN"; verdict (fst regenerated);
                   "Compiling project"; verdict (fst compiled)]).
  { rewrite Hrun. cbn [events snd].
    rewrite !statuses_app, (calm_statuses _ Hpre).
    unfold compilation. rewrite disk_after_regeneration.
    unfold regeneration. rewrite !statuses_run_command_stream.
    cbn [statuses app]. now rewrite (calm_statuses _ Hpost). }
  split; [now rewrite Hrun|]. split; [|split; [exact Hst|split; [|split]]].
  - rewrite Hrun. cbn [events snd].
    rewrite !spawned_app, (calm_spawned _ Hpre).
    unfold compilation, regeneration. rewrite !spawned_run_command_stream.
    cbn [spawned app]. now rewrite (calm_spawned _ Hpost).
  - rewrite status_after_statuses, Hst. reflexivity.
  - rewrite Hrun. cbn [disk_after fst snd]. apply disk_after_compilation.
  - exists pre, post. rewrite Hrun. now repeat split.
Qed.

Lemma compile_follows_regeneration_witness :
  let build_command :=
    build_command_of (build_script_path_of ["C:"; "UE"])
      ["C:"; "Proj"; "Game.uproject"] in
  let compile_command :=
    compile_command_of (build_tool_dll_of ["C:"; "UE"])
      ["C:"; "Proj"; "Game.uproject"] "GameEditor" in
  let run := run_build_process demo false false demo_disk in
  fst (run_process demo build_command demo_disk)
  = Exited ["line1" +++ NL; "line2"] 3
  /\ outcome run = Ok tt
  /\ spawned (events run) = [build_command; compile_command]
  /\ statuses (events run)
     = ["Recreating SLN"; "Error"; "Compiling project"; "Error"]
  /\ status_after "Compiling Editor..." (events run) = "Error".
Proof.
  intros build_command compile_command run.
  split; [reflexivity|].
  destruct (compile_follows_regeneration demo false false demo_disk
              "Game.uproject" [] "5.3" "Compiling Editor...")
    as (Hout & Hsp & Hst & Hend & _).
  - vm_compute; reflexivity.
  - vm_compute; reflexivity.
  - discriminate.
  - vm_compute; reflexivity.
  - vm_compute; reflexivity.
  - vm_compute; reflexivity.
  - split; [exact Hout|]. split; [exact Hsp|]. split; [exact Hst|exact Hend].
Defined.

(** C4, where the code departs from it: with no prerequisite missing (the
    project file is on the disk, and so are UnrealBuildTool.dll and
    Build.bat under the engine path), a project file that cannot be read
    ends the run before the regeneration step, in the handler of the
    pipeline, and so does a plugin folder that cannot be listed. *)
Lemma pipeline_aborts_with_every_prerequisite :
  os_path_isfile ["C:"; "Proj"; "Game.uproject"] demo_disk = true
  /\ os_path_exists (build_tool_dll_of ["C:"; "UE"]) demo_disk = true
  /\ os_path_exists (build_script_path_of ["C:"; "UE"]) demo_disk = true
  /\ (let run := run_build_process demo_unreadable false false demo_disk in
      uproject_files demo_unreadable demo_disk = ["Game.uproject"]
      /\ spawned (events run) = []
      /\ statuses (events run) = []
      /\ last (logged (events run)) "" = "Error: Expecting value")
  /\ (let run := run_build_process demo_locked false false demo_disk in
      uproject_files demo_locked demo_disk = ["Game.uproject"]
      /\ engine_root demo_locked "5.3" demo_disk = ["C:"; "UE"]
      /\ spawned (events run) = []
      /\ statuses (events run) = []
      /\ last (logged (events run)) "" = "Error: PermissionError").
Proof. cbv zeta. repeat split. Qed.

End PipelineFacts.

(** ** The packaging pipeline *)

Module PackagerFacts.

Import Disk NT DiskFacts Helper HelperFacts CleanupFacts PipelineFacts Packager.

Definition is_log (e : event) : bool :=
  match e with
  | Log _ => true
  | _ => false
  end.

(** A computation that only logs and leaves the disk. *)
Definition plain (d d' : node) (evs : list event) : Prop :=
  d' = d /\ forallb is_log evs = true.

Lemma plain_refl (d : node) : plain d d [].
Proof. split; reflexivity. Qed.

Lemma plain_trans (d d1 d2 : node) (e1 e2 : list event) :
  plain d d1 e1 -> plain d1 d2 e2 -> plain d d2 (e1 ++ e2).
Proof.
  intros [-> H1] [-> H2]. split; [reflexivity|].
  now rewrite forallb_app, H1, H2.
Qed.

Lemma plain_log (message : string) : holds plain (log message).
Proof. intros d. split; reflexivity. Qed.

Lemma logs_calm (evs : list event) : forallb is_log evs = true -> calm evs.
Proof.
  unfold calm. induction evs as [|e evs IH]; [reflexivity|].
  cbn [forallb]. intros H. apply andb_true_iff in H as [He H].
  destruct e; try discriminate. now apply IH.
Qed.

Lemma logs_deletions (evs : list event) :
  forallb is_log evs = true -> deletions evs = [].
Proof.
  induction evs as [|e evs IH]; [reflexivity|].
  cbn [forallb]. intros H. apply andb_true_iff in H as [He H].
  destruct e; try discriminate. now apply IH.
Qed.

Section Packaging.

Variable P : platform.
Variables build_path build_config : string.

(** The command of a packaging run. *)
Definition uat_command (engine uproject : path) (target : string) : string :=
  uat_command_of (runUAT_path_of engine) uproject engine target build_path
    build_config.

(** A run that only logs, or one that logs and then streams the UAT
    command on the disk it started from. *)
Definition packaged (d : node) (r : result unit * node * list event) : Prop :=
  (disk_after r = d /\ forallb is_log (events r) = true)
  \/ exists logs engine uproject target,
       forallb is_log logs = true
       /\ r = after logs
                (run_command_stream P (uat_command engine uproject target)
                   "Starting Build UAT..."
                   "UAT Build completed successfully!" d).

Definition packs (m : M unit) : Prop := forall d, packaged d (m d).

Lemma packs_plain (m : M unit) : holds plain m -> packs m.
Proof. intros H d. left. apply H. Qed.

Lemma packs_bind {A : Type} (m : M A) (f : A -> M unit) :
  holds plain m -> (forall a, packs (f a)) -> packs (bind m f).
Proof.
  intros Hm Hf d. destruct (Hm d) as [Hd Hl]. unfold bind.
  destruct (m d) as [[[a|e|] d1] ev1]; cbn [disk_after events fst snd] in *;
    subst d1; try (left; split; [reflexivity|assumption]).
  destruct (Hf a d) as [[Hd' Hl']|(logs & engine & uproject & target & Hlogs & Hr)].
  - left. destruct (f a d) as [[r d2] ev2].
    cbn [disk_after events fst snd] in *. split; [assumption|].
    now rewrite forallb_app, Hl, Hl'.
  - right. exists (ev1 ++ logs), engine, uproject, target.
    split; [now rewrite forallb_app, Hl, Hlogs|].
    fold (after ev1 (f a d)). rewrite Hr. apply after_after.
Qed.

Lemma packs_package_with_engine (uproject_path unreal_engine_path : path)
    (target : string) :
  packs (package_with_engine P uproject_path unreal_engine_path target
           build_path build_config).
Proof.
  unfold package_with_engine, exists_.
  apply packs_bind; [apply (holds_pure _ plain_refl)|intros script_found].
  destruct (negb script_found); [apply packs_plain, plain_log|].
  intros d. right.
  exists [Log "Executing UAT command:";
          Log (uat_command unreal_engine_path uproject_path target)],
    unreal_engine_path, uproject_path, target.
  split; [reflexivity|].
  rewrite (bind_ok _ _ d d tt [Log "Executing UAT command:"]) by reflexivity.
  rewrite (bind_ok _ _ d d tt
             [Log (uat_command unreal_engine_path uproject_path target)])
    by reflexivity.
  now rewrite after_after.
Qed.

(** The body of the [try] of [run_UAT_build_process]. *)
Definition package_body : M unit :=
  uproject_files <- glob_uproject P ;;
  match uproject_files with
  | [] => log "No .uproject file found in the current directory."
  | first :: others =>
      when (1 <? length uproject_files)%nat
        (log "More than one .uproject file found. Selecting the first one.") ;;
      let uproject_path := os_path_join (getcwd P) first in
      log (".uproject file found: " +++ show_path uproject_path) ;;
      engine_version <- load_EngineAssociation P uproject_path ;;
      match engine_version with
      | None | Some "" =>
          log "'EngineAssociation' key not found in the .uproject file."
      | Some engine_version =>
          log ("Unreal Engine version set in project: " +++ engine_version) ;;
          let project_name := splitext_root (basename uproject_path) in
          let target := project_name in
          log ("Target to be built: " +++ target) ;;
          unreal_engine_path <- resolve_engine_path P engine_version ;;
          package_with_engine P uproject_path unreal_engine_path target
            build_path build_config
      end
  end.

Lemma run_UAT_build_process_body :
  run_UAT_build_process P build_path build_config
  = try_except package_body
      (fun e =>
         log ("Error in Build UAT: " +++ e) ;;
         status_var_set "Error in Build UAT").
Proof. reflexivity. Qed.

Lemma packs_body : packs package_body.
Proof.
  unfold package_body.
  apply packs_bind; [apply (holds_pure _ plain_refl)|intros uproject_files].
  destruct uproject_files as [|first others]; [apply packs_plain, plain_log|].
  apply packs_bind; [apply (holds_when _ plain_refl), plain_log|intros _].
  apply packs_bind; [apply plain_log|intros _].
  apply packs_bind; [apply (load_kept P plain plain_refl)|intros engine_version].
  destruct engine_version as [[|c version]|];
    try (apply packs_plain, plain_log).
  apply packs_bind; [apply plain_log|intros _].
  apply packs_bind; [apply plain_log|intros _].
  apply packs_bind;
    [apply (resolve_kept P plain plain_refl plain_trans plain_log)
    |intros unreal_engine_path].
  apply packs_package_with_engine.
Qed.

Lemma settles_body : settles package_body.
Proof.
  unfold package_body.
  apply settles_bind; [apply settles_pure|intros uproject_files].
  destruct uproject_files as [|first others]; [apply settles_log|].
  apply settles_bind; [apply settles_when, settles_log|intros _].
  apply settles_bind; [apply settles_log|intros _].
  apply settles_bind; [apply settles_load|intros engine_version].
  destruct engine_version as [[|c version]|]; try apply settles_log.
  apply settles_bind; [apply settles_log|intros _].
  apply settles_bind; [apply settles_log|intros _].
  apply settles_bind; [apply settles_resolve|intros unreal_engine_path].
  unfold package_with_engine, exists_.
  apply settles_bind; [apply settles_pure|intros script_found].
  destruct (negb script_found); [apply settles_log|].
  apply settles_bind; [apply settles_log|intros _].
  apply settles_bind; [apply settles_log|intros _].
  apply settles_run_command_stream.
Qed.

(** A packaging run, written out: it ends without an exception, and its
    calls are log lines, then either nothing, or the two calls of the
    handler, or the streamed UAT command. *)
Lemma run_UAT_build_process_run (d : node) :
  (exists logs,
     forallb is_log logs = true
     /\ (run_UAT_build_process P build_path build_config d = (Ok tt, d, logs)
         \/ exists e,
              run_UAT_build_process P build_path build_config d
              = (Ok tt, d,
                 logs ++ [Log ("Error in Build UAT: " +++ e);
                          StatusSet "Error in Build UAT"])))
  \/ exists logs engine uproject target,
       forallb is_log logs = true
       /\ run_UAT_build_process P build_path build_config d
          = after logs
              (run_command_stream P (uat_command engine uproject target)
                 "Starting Build UAT..."
                 "UAT Build completed successfully!" d).
Proof.
  rewrite run_UAT_build_process_body. unfold try_except.
  pose proof (settles_body d) as Hsettles.
  destruct (packs_body d)
    as [[Hd Hl]|(logs & engine & uproject & target & Hlogs & Hr)].
  - left. destruct (package_body d) as [[[[]|e|] d1] ev1];
      cbn [outcome disk_after events fst snd] in *; subst d1.
    + exists ev1. split; [assumption|]. now left.
    + exists ev1. split; [assumption|]. right. exists e. reflexivity.
    + congruence.
  - right. exists logs, engine, uproject, target. split; [assumption|].
    rewrite Hr, run_command_stream_run. reflexivity.
Qed.

End Packaging.

(** The command a packaging run starts, if any: the BuildCookRun command
    for the first project file of the working directory, the engine path of
    the fallback chain and the stem of the project file as target, when the
    project file gives a version that is not empty and RunUAT.bat exists
    under the engine path. *)
Definition packaging_command (P : platform)
    (build_path build_config : string) (d : node) : option string :=
  match uproject_files P d with
  | [] => None
  | first :: _ =>
      let uproject := os_path_join (getcwd P) first in
      match outcome (load_EngineAssociation P uproject d) with
      | Ok (Some version) =>
          let engine := engine_root P version d in
          if (version =? "")%string then None
          else if os_path_exists (runUAT_path_of engine) d then
            Some (uat_command_of (runUAT_path_of engine) uproject engine
                    (splitext_root first) build_path build_config)
          else None
      | _ => None
      end
  end.

Lemma deletions_run_command_stream (P : platform)
    (command start_message finish_message : string) (d : node) :
  deletions (events (run_command_stream P command start_message
                       finish_message d)) = [].
Proof.
  assert (Hout : forall stdout, deletions (output_lines stdout) = []).
  { intros stdout. unfold output_lines.
    induction (iter_readline stdout); auto. }
  rewrite run_command_stream_run. cbn [events snd app deletions].
  destruct (fst (run_process P command d)) as [stdout retcode|stdout e];
    rewrite deletions_app, Hout; [|reflexivity].
  now destruct (retcode =? 0)%Z.
Qed.

Lemma package_with_engine_run (P : platform)
    (uproject_path unreal_engine_path : path)
    (target build_path build_config : string) (d : node) :
  let command :=
    uat_command_of (runUAT_path_of unreal_engine_path) uproject_path
      unreal_engine_path target build_path build_config in
  package_with_engine P uproject_path unreal_engine_path target build_path
    build_config d
  = if os_path_exists (runUAT_path_of unreal_engine_path) d
    then after [Log "Executing UAT command:"; Log command]
           (run_command_stream P command "Starting Build UAT..."
              "UAT Build completed successfully!" d)
    else (Ok tt, d,
          [Log ("RunUAT.bat file not found at: "
                +++ show_path (runUAT_path_of unreal_engine_path))]).
Proof.
  intros command. unfold package_with_engine.
  rewrite (bind_ok _ _ d d
             (os_path_exists (runUAT_path_of unreal_engine_path) d) [])
    by reflexivity.
  rewrite after_nil.
  destruct (os_path_exists (runUAT_path_of unreal_engine_path) d);
    cbn [negb]; [|reflexivity].
  rewrite (bind_ok _ _ d d tt [Log "Executing UAT command:"]) by reflexivity.
  fold command.
  rewrite (bind_ok _ _ d d tt [Log command]) by reflexivity.
  now rewrite after_after.
Qed.

(** A packaging run, case by case: log lines only, or log lines and the
    two calls of the handler, or log lines and the streamed command of
    [packaging_command]. *)
Lemma run_UAT_build_process_cases (P : platform)
    (build_path build_config : string) (d : node) :
  exists logs,
    forallb is_log logs = true
    /\ match packaging_command P build_path build_config d with
       | Some command =>
           run_UAT_build_process P build_path build_config d
           = after logs
               (run_command_stream P command "Starting Build UAT..."
                  "UAT Build completed successfully!" d)
       | None =>
           run_UAT_build_process P build_path build_config d = (Ok tt, d, logs)
           \/ exists e,
                run_UAT_build_process P build_path build_config d
                = (Ok tt, d,
                   logs ++ [Log ("Error in Build UAT: " +++ e);
                            StatusSet "Error in Build UAT"])
       end.
Proof.
  unfold packaging_command, run_UAT_build_process, try_except.
  rewrite (bind_ok _ _ d d (uproject_files P d) []) by reflexivity.
  rewrite after_nil.
  destruct (uproject_files P d) as [|first others] eqn:Hglob.
  { eexists. split; [|left; reflexivity]. reflexivity. }
  rewrite found_run. cbv zeta.
  assert (Hfound : forallb is_log (found_events P first others) = true).
  { unfold found_events. now destruct (1 <? length (first :: others))%nat. }
  pose proof (load_EngineAssociation_run P (os_path_join (getcwd P) first) d)
    as Hload.
  pose proof (settles_load P (os_path_join (getcwd P) first) d) as Hfuel.
  destruct (outcome (load_EngineAssociation P
                       (os_path_join (getcwd P) first) d))
    as [[[|c version]|]|e|]; [| | | |congruence].
  - rewrite (bind_ok _ _ _ _ _ _ Hload). cbn [String.eqb].
    eexists. split; [|left; reflexivity].
    rewrite forallb_app, Hfound. reflexivity.
  - rewrite (bind_ok _ _ _ _ _ _ Hload). cbn [String.eqb].
    rewrite (bind_ok _ _ d d tt
               [Log ("Unreal Engine version set in project: "
                     +++ String c version)]) by reflexivity.
    rewrite basename_join.
    rewrite (bind_ok _ _ d d tt
               [Log ("Target to be built: " +++ splitext_root first)])
      by reflexivity.
    destruct (resolve_engine_path_run P (String c version) d)
      as (evs & Hres & Hs & Hd & Hst).
    rewrite (bind_ok _ _ _ _ _ _ Hres).
    assert (Hevs : forallb is_log evs = true).
    { pose proof (resolve_kept P plain plain_refl plain_trans plain_log
                    (String c version) d) as Hplain.
      rewrite Hres in Hplain. apply Hplain. }
    rewrite package_with_engine_run.
    destruct (os_path_exists
                (runUAT_path_of (engine_root P (String c version) d)) d).
    + rewrite !after_after, run_command_stream_run. cbn [after].
      eexists. split; [|reflexivity].
      rewrite !forallb_app, Hfound, Hevs. reflexivity.
    + eexists. split; [|left; cbn [after]; reflexivity].
      rewrite !forallb_app, Hfound, Hevs. reflexivity.
  - rewrite (bind_ok _ _ _ _ _ _ Hload).
    eexists. split; [|left; reflexivity].
    rewrite forallb_app, Hfound. reflexivity.
  - rewrite (bind_raise _ _ _ _ _ _ Hload).
    exists (found_events P first others). split; [exact Hfound|].
    right. exists e. cbn [after log status_var_set tell bind].
    now rewrite app_nil_r.
Qed.

(** X15: packaging never cleans the project and runs at most one command.
    Whatever the disk and the platform, [run_UAT_build_process] returns
    without an exception and deletes nothing.  It starts a process exactly
    when the working directory holds a project file whose EngineAssociation
    is read and not empty and RunUAT.bat exists under the engine path of the
    fallback chain; the one process is then the BuildCookRun command made
    from that engine path, the path of the first project file, its stem as
    target, and the archive directory and configuration given, run on the
    disk the pipeline started from, and the status goes to
    "Starting Build UAT..." and then to the verdict on that command.
    Otherwise no process is started and the disk is left as it was. *)
Theorem packaging_runs_one_command (P : platform)
    (build_path build_config : string) (d : node) :
  let run := run_UAT_build_process P build_path build_config d in
  outcome run = Ok tt
  /\ deletions (events run) = []
  /\ match uproject_files P d with
     | [] => spawned (events run) = [] /\ disk_after run = d
     | first :: _ =>
         let uproject := os_path_join (getcwd P) first in
         match outcome (load_EngineAssociation P uproject d) with
         | Ok (Some version) =>
             let engine := engine_root P version d in
             let command :=
               uat_command_of (runUAT_path_of engine) uproject engine
                 (splitext_root first) build_path build_config in
             if negb (version =? "")%string
                && os_path_exists (runUAT_path_of engine) d
             then
               spawned (events run) = [command]
               /\ disk_after run = snd (run_process P command d)
               /\ statuses (events run)
                  = ["Starting Build UAT...";
                     verdict (fst (run_process P command d))]
             else spawned (events run) = [] /\ disk_after run = d
         | _ => spawned (events run) = [] /\ disk_after run = d
         end
     end.
Proof.
  intros run.
  destruct (run_UAT_build_process_cases P build_path build_config d)
    as (logs & Hlogs & Hrun).
  fold run in Hrun.
  assert (Hnone :
    (run = (Ok tt, d, logs)
     \/ exists e, run = (Ok tt, d,
                         logs ++ [Log ("Error in Build UAT: " +++ e);
                                  StatusSet "Error in Build UAT"])) ->
    outcome run = Ok tt /\ deletions (events run) = []
    /\ spawned (events run) = [] /\ disk_after run = d).
  { intros [->|(e & ->)]; cbn [outcome disk_after events fst snd];
      rewrite ?deletions_app, ?spawned_app, (logs_deletions _ Hlogs),
        (calm_spawned _ (logs_calm _ Hlogs)); repeat split. }
  assert (Hsome : forall command,
    run = after logs
            (run_command_stream P command "Starting Build UAT..."
               "UAT Build completed successfully!" d) ->
    outcome run = Ok tt /\ deletions (events run) = []
    /\ spawned (events run) = [command]
    /\ disk_after run = snd (run_process P command d)
    /\ statuses (events run)
       = ["Starting Build UAT..."; verdict (fst (run_process P command d))]).
  { intros command ->.
    rewrite outcome_after, disk_after_after, events_after.
    rewrite deletions_app, spawned_app, statuses_app,
      (logs_deletions _ Hlogs), (calm_spawned _ (logs_calm _ Hlogs)),
      (calm_statuses _ (logs_calm _ Hlogs)),
      deletions_run_command_stream, spawned_run_command_stream,
      statuses_run_command_stream.
    rewrite run_command_stream_run. repeat split. }
  unfold packaging_command in Hrun.
  destruct (uproject_files P d) as [|first others].
  { destruct (Hnone Hrun) as (H1 & H2 & H3 & H4). now repeat split. }
  cbv zeta in Hrun |- *.
  destruct (outcome (load_EngineAssociation P
                       (os_path_join (getcwd P) first) d))
    as [[version|]|e|];
    try (destruct (Hnone Hrun) as (H1 & H2 & H3 & H4); now repeat split).
  destruct (version =? "")%string; cbn [negb andb];
    [destruct (Hnone Hrun) as (H1 & H2 & H3 & H4); now repeat split|].
  destruct (os_path_exists (runUAT_path_of (engine_root P version d)) d);
    [|destruct (Hnone Hrun) as (H1 & H2 & H3 & H4); now repeat split].
  destruct (Hsome _ Hrun) as (H1 & H2 & H3 & H4 & H5). now repeat split.
Qed.

(** A disk as [demo_disk] whose engine has RunUAT.bat. *)
Definition demo_disk_with_uat : node :=
  Dir [("C:", Dir
    [("Proj", Dir
       [("Game.uproject", File "5.3");
        ("Binaries", Dir [("Win64", Dir [("Game.exe", File "")])])]);
     ("UE", Dir
       [("Engine", Dir
          [("Build", Dir
              [("BatchFiles", Dir [("RunUAT.bat", File "")])])])])])].

(** The packaging of [demo] on that disk: one command, for
    [C:\Proj\Game.uproject], the engine in [C:\UE] and the target [Game],
    archived in [C:\Proj\BuildOutput]; nothing is deleted; the command exits
    with code 3 and the status ends as Error. *)
Example demo_packaging :
  let run := start_package_thread demo "  " "Shipping" demo_disk_with_uat in
  spawned (events run)
  = [uat_command_of (runUAT_path_of ["C:"; "UE"])
       ["C:"; "Proj"; "Game.uproject"] ["C:"; "UE"] "Game"
       "C:\Proj\BuildOutput" "Shipping"]
  /\ deletions (events run) = []
  /\ disk_after run = demo_disk_with_uat
  /\ statuses (events run)
     = ["Starting Build UAT..."; "Starting Build UAT..."; "Error"].
Proof. cbv zeta. repeat split; vm_compute; reflexivity. Qed.

(** *** The status at the end of a thread *)

Lemma status_after_cons_set (status value : string) (evs : list event) :
  status_after status (StatusSet value :: evs) = status_after value evs.
Proof. reflexivity. Qed.

(** X16: a project file that cannot be read ends both threads before
    anything is deleted or started, but only the packaging thread shows it
    in the status: its handler logs "Error in Build UAT: ..." and sets the
    status to "Error in Build UAT", where the handler of the compile
    pipeline only logs "Error: ..." and the status stays at
    "Compiling Editor...". *)
Theorem unreadable_project_file_sets_the_status (P : platform)
    (entry build_cfg : string) (open_sln open_uproject : bool) (d : node)
    (first : string) (others : list string) (e status : string) :
  uproject_files P d = first :: others ->
  outcome (load_EngineAssociation P (os_path_join (getcwd P) first) d)
    = Raise e ->
  start_package_thread P entry build_cfg d
  = (Ok tt, d,
     StatusSet "Starting Build UAT..."
     :: found_events P first others
     ++ [Log ("Error in Build UAT: " +++ e); StatusSet "Error in Build UAT"])
  /\ status_after status (events (start_package_thread P entry build_cfg d))
     = "Error in Build UAT"
  /\ start_compile_thread P open_sln open_uproject d
     = (Ok tt, d,
        StatusSet "Compiling Editor..."
        :: found_events P first others ++ [Log ("Error: " +++ e)])
  /\ status_after status
       (events (start_compile_thread P open_sln open_uproject d))
     = "Compiling Editor...".
Proof.
  intros Hglob Hload.
  assert (Hfound : statuses (found_events P first others) = []).
  { unfold found_events.
    now destruct (1 <? length (first :: others))%nat. }
  assert (Hpack : start_package_thread P entry build_cfg d
                  = (Ok tt, d,
                     StatusSet "Starting Build UAT..."
                     :: found_events P first others
                     ++ [Log ("Error in Build UAT: " +++ e);
                         StatusSet "Error in Build UAT"])).
  { unfold start_package_thread, run_package, run_UAT_build_process,
      try_except.
    rewrite (bind_ok _ _ d d tt [StatusSet "Starting Build UAT..."])
      by reflexivity.
    rewrite (bind_ok _ _ d d (uproject_files P d) []) by reflexivity.
    rewrite after_nil, Hglob, found_run.
    pose proof (load_EngineAssociation_run P (os_path_join (getcwd P) first) d)
      as Hrun.
    rewrite Hload in Hrun. rewrite (bind_raise _ _ _ _ _ _ Hrun).
    cbn [after log status_var_set tell bind]. now rewrite app_nil_r. }
  assert (Hcomp : start_compile_thread P open_sln open_uproject d
                  = (Ok tt, d,
                     StatusSet "Compiling Editor..."
                     :: found_events P first others
                     ++ [Log ("Error: " +++ e)])).
  { unfold start_compile_thread, run_compile.
    rewrite (bind_ok _ _ d d tt [StatusSet "Compiling Editor..."])
      by reflexivity.
    now rewrite (run_build_process_unreadable P open_sln open_uproject d first
                   others e Hglob Hload). }
  split; [exact Hpack|]. split; [|split; [exact Hcomp|]].
  - rewrite Hpack. cbn [events snd].
    rewrite status_after_cons_set, status_after_statuses, statuses_app, Hfound.
    reflexivity.
  - rewrite Hcomp. cbn [events snd].
    rewrite status_after_cons_set, status_after_statuses, statuses_app, Hfound.
    reflexivity.
Qed.

Lemma unreadable_project_file_sets_the_status_witness :
  uproject_files demo_unreadable demo_disk = ["Game.uproject"]
  /\ outcome (load_EngineAssociation demo_unreadable
                (os_path_join (getcwd demo_unreadable) "Game.uproject")
                demo_disk) = Raise "Expecting value"
  /\ start_package_thread demo_unreadable "" "Shipping" demo_disk
     = (Ok tt, demo_disk,
        StatusSet "Starting Build UAT..."
        :: found_events demo_unreadable "Game.uproject" []
        ++ [Log ("Error in Build UAT: " +++ "Expecting value");
            StatusSet "Error in Build UAT"])
  /\ status_after "Ready"
       (events (start_package_thread demo_unreadable "" "Shipping" demo_disk))
     = "Error in Build UAT"
  /\ start_compile_thread demo_unreadable false false demo_disk
     = (Ok tt, demo_disk,
        StatusSet "Compiling Editor..."
        :: found_events demo_unreadable "Game.uproject" []
        ++ [Log ("Error: " +++ "Expecting value")])
  /\ status_after "Ready"
       (events (start_compile_thread demo_unreadable false false demo_disk))
     = "Compiling Editor...".
Proof.
  split; [reflexivity|]. split; [reflexivity|].
  apply (unreadable_project_file_sets_the_status demo_unreadable "" "Shipping"
           false false demo_disk "Game.uproject" [] "Expecting value" "Ready");
    reflexivity.
Defined.

Lemma verdict_cases (o : proc_outcome) :
  verdict o = "Done" \/ verdict o = "Error".
Proof.
  destruct o as [stdout retcode|stdout e]; cbn [verdict]; [|now right].
  destruct (retcode =? 0)%Z; [now left|now right].
Qed.

(** X17: the values a pipeline writes to the status.  The first value
    that [start_compile_thread] and the thread it starts write is
    "Compiling Editor..." and the last is "Compiling Editor...", "Done" or
    "Error"; the first value that [start_package_thread] and its thread
    write is "Starting Build UAT..." and the last is
    "Starting Build UAT...", "Done", "Error" or "Error in Build UAT".  So
    the last value written is never the name of a step, "Recreating SLN" or
    "Compiling project".  (The status is one variable for both pipelines:
    this is about the writes of one of them, not about what the variable
    holds when its thread ends.) *)
Theorem last_status_written_by_a_thread (P : platform)
    (open_sln open_uproject : bool) (entry build_cfg : string) (d : node) :
  let compile :=
    statuses (events (start_compile_thread P open_sln open_uproject d)) in
  let package :=
    statuses (events (start_package_thread P entry build_cfg d)) in
  (exists rest, compile = "Compiling Editor..." :: rest)
  /\ In (last compile "") ["Compiling Editor..."; "Done"; "Error"]
  /\ (exists rest, package = "Starting Build UAT..." :: rest)
  /\ In (last package "")
        ["Starting Build UAT..."; "Done"; "Error"; "Error in Build UAT"].
Proof.
  intros compile package.
  assert (Hc : compile
               = "Compiling Editor..."
                 :: statuses (events (run_build_process P open_sln
                                        open_uproject d))).
  { unfold compile, start_compile_thread, run_compile.
    rewrite (bind_ok _ _ d d tt [StatusSet "Compiling Editor..."])
      by reflexivity.
    now rewrite events_after. }
  assert (Hp : package
               = "Starting Build UAT..."
                 :: statuses (events (run_UAT_build_process P
                                        (build_path_of_entry P entry)
                                        build_cfg d))).
  { unfold package, start_package_thread, run_package.
    rewrite (bind_ok _ _ d d tt [StatusSet "Starting Build UAT..."])
      by reflexivity.
    now rewrite events_after. }
  split; [rewrite Hc; eauto|]. split; [|split; [rewrite Hp; eauto|]].
  - rewrite Hc.
    destruct (statuses_run_build_process P open_sln open_uproject d)
      as [->|(d1 & engine & uproject & target & ->)]; [now left|].
    cbn [last].
    destruct (verdict_cases (fst (run_process P
               (compile_command_of (build_tool_dll_of engine) uproject target)
               (snd (run_process P
                  (build_command_of (build_script_path_of engine) uproject)
                  d1))))) as [->| ->]; cbn [In]; auto.
  - rewrite Hp.
    destruct (run_UAT_build_process_run P (build_path_of_entry P entry)
                build_cfg d)
      as [(logs & Hlogs & [Hr|(e & Hr)])
         |(logs & engine & uproject & target & Hlogs & Hr)];
      rewrite Hr.
    + cbn [events snd]. rewrite (calm_statuses _ (logs_calm _ Hlogs)).
      now left.
    + cbn [events snd].
      rewrite statuses_app, (calm_statuses _ (logs_calm _ Hlogs)).
      cbn [app statuses last In]. auto.
    + rewrite events_after, statuses_app,
        (calm_statuses _ (logs_calm _ Hlogs)),
        statuses_run_command_stream.
      cbn [app last].
      destruct (verdict_cases (fst (run_process P
                 (uat_command (build_path_of_entry P entry) build_cfg engine
                    uproject target) d))) as [->| ->]; cbn [In]; auto.
Qed.

(** *** The archive directory *)

(** The strings [str.strip] reduces to nothing. *)
Definition blank (s : string) : bool :=
  forallb is_space (list_ascii_of_string s).

(** The strings of ASCII characters, on which [is_space] is the white space
    of Python. *)
Definition ascii_only (s : string) : bool :=
  forallb (fun c => (nat_of_ascii c <? 128)%nat) (list_ascii_of_string s).

Lemma lstrip_chars_split (l : list ascii) :
  exists ws, l = ws ++ lstrip_chars l /\ forallb is_space ws = true.
Proof.
  induction l as [|c l (ws & IH & Hws)]; [now exists []|].
  cbn [lstrip_chars]. destruct (is_space c) eqn:Hc.
  - exists (c :: ws). cbn [app forallb]. rewrite Hc, Hws. split; [|reflexivity].
    now f_equal.
  - now exists [].
Qed.

Lemma lstrip_chars_spaces (l : list ascii) :
  forallb is_space l = true -> lstrip_chars l = [].
Proof.
  induction l as [|c l IH]; [reflexivity|].
  cbn [forallb lstrip_chars]. intros H. apply andb_true_iff in H as [-> H].
  now apply IH.
Qed.

Lemma lstrip_chars_fixed (l : list ascii) :
  lstrip_chars (lstrip_chars l) = lstrip_chars l.
Proof.
  induction l as [|c l IH]; [reflexivity|].
  cbn [lstrip_chars]. destruct (is_space c) eqn:Hc; [exact IH|].
  cbn [lstrip_chars]. now rewrite Hc.
Qed.

Lemma lstrip_chars_prefix (a b : list ascii) :
  a <> [] -> lstrip_chars (a ++ b) = a ++ b -> lstrip_chars a = a.
Proof.
  destruct a as [|c a]; [congruence|]. intros _. cbn [app lstrip_chars].
  destruct (is_space c); [|reflexivity].
  intros H. exfalso.
  destruct (lstrip_chars_split (a ++ b)) as (ws & Hsplit & _).
  rewrite H in Hsplit. apply (f_equal (@length ascii)) in Hsplit.
  rewrite (length_app ws) in Hsplit. cbn [length] in Hsplit. lia.
Qed.

(** The characters [strip] keeps. *)
Definition kept_chars (s : string) : list ascii :=
  rev (lstrip_chars (rev (lstrip_chars (list_ascii_of_string s)))).

Lemma strip_split (s : string) :
  exists pre post,
    list_ascii_of_string s = pre ++ kept_chars s ++ post
    /\ forallb is_space pre = true /\ forallb is_space post = true.
Proof.
  unfold kept_chars.
  destruct (lstrip_chars_split (list_ascii_of_string s)) as (ws1 & H1 & Hws1).
  destruct (lstrip_chars_split (rev (lstrip_chars (list_ascii_of_string s))))
    as (ws2 & H2 & Hws2).
  exists ws1, (rev ws2). split; [|split; [assumption|]].
  - rewrite <- rev_app_distr, <- H2, rev_involutive. exact H1.
  - rewrite forallb_forall in *. intros c Hc. apply Hws2.
    now apply in_rev.
Qed.

Lemma kept_chars_fixed (s : string) :
  rev (lstrip_chars (rev (lstrip_chars (kept_chars s)))) = kept_chars s.
Proof.
  unfold kept_chars.
  set (l1 := lstrip_chars (list_ascii_of_string s)).
  set (l2 := lstrip_chars (rev l1)).
  destruct (lstrip_chars_split (rev l1)) as (ws2 & H2 & _). fold l2 in H2.
  assert (Hl1 : l1 = rev l2 ++ rev ws2)
    by (rewrite <- rev_app_distr, <- H2; now rewrite rev_involutive).
  assert (Hfront : lstrip_chars (rev l2) = rev l2).
  { destruct (rev l2) as [|c tl] eqn:E; [reflexivity|].
    apply (lstrip_chars_prefix _ (rev ws2)); [discriminate|].
    rewrite <- Hl1. apply lstrip_chars_fixed. }
  rewrite Hfront, rev_involutive. unfold l2. now rewrite lstrip_chars_fixed.
Qed.

Lemma blank_strip (s : string) : blank s = true -> strip s = "".
Proof.
  unfold blank, strip. intros H. now rewrite (lstrip_chars_spaces _ H).
Qed.

Lemma strip_blank (s : string) : strip s = "" -> blank s = true.
Proof.
  unfold blank. intros H.
  destruct (strip_split s) as (pre & post & Hs & Hpre & Hpost).
  assert (Hk : kept_chars s = []).
  { apply (f_equal list_ascii_of_string) in H. unfold strip in H.
    now rewrite list_ascii_of_string_of_list_ascii in H. }
  rewrite Hs, Hk, !forallb_app, Hpre, Hpost. reflexivity.
Qed.

Lemma concat_last_nonempty (sep x : string) (l : list string) :
  x <> "" -> String.concat sep (l ++ [x]) <> "".
Proof.
  intros Hx. induction l as [|a l IH]; [exact Hx|].
  cbn [app]. destruct (l ++ [x]) as [|b rest] eqn:E; [now destruct l|].
  change (String.concat sep (a :: b :: rest))
    with (a +++ sep +++ String.concat sep (b :: rest)).
  destruct a as [|c a]; [|discriminate].
  destruct sep as [|c sep]; [exact IH|discriminate].
Qed.

(** X18: the archive directory handed to the packaging run, for an entry
    of ASCII characters.  It is never empty; an entry of white space only
    gives the folder BuildOutput of the working directory; any other entry
    gives the entry with the white space at both ends cut off, and the
    result has none left to cut. *)
Theorem archive_directory_of_the_entry (P : platform) (entry : string) :
  ascii_only entry = true ->
  let build_path := build_path_of_entry P entry in
  build_path <> ""
  /\ (blank entry = true ->
      build_path = show_path (os_path_join (getcwd P) "BuildOutput"))
  /\ (blank entry = false ->
      exists pre post,
        entry = pre +++ build_path +++ post
        /\ blank pre = true /\ blank post = true
        /\ strip build_path = build_path).
Proof.
  intros _ build_path. unfold build_path, build_path_of_entry.
  destruct (String.eqb_spec (strip entry) "") as [Hempty|Hfull].
  - split; [|split].
    + apply concat_last_nonempty. discriminate.
    + reflexivity.
    + intros Hblank. rewrite (strip_blank _ Hempty) in Hblank. discriminate.
  - split; [exact Hfull|]. split.
    + intros Hblank. now rewrite (blank_strip _ Hblank) in Hfull.
    + intros _.
      destruct (strip_split entry) as (pre & post & Hs & Hpre & Hpost).
      exists (string_of_list_ascii pre), (string_of_list_ascii post).
      unfold blank. rewrite !list_ascii_of_string_of_list_ascii.
      split; [|split; [assumption|split; [assumption|]]].
      * apply (f_equal string_of_list_ascii) in Hs.
        rewrite string_of_list_ascii_of_string in Hs.
        unfold strip. fold (kept_chars entry).
        now rewrite <- !AnsiFacts.string_of_list_ascii_app.
      * unfold strip at 1. fold (kept_chars entry).
        unfold strip at 1. fold (kept_chars entry).
        rewrite list_ascii_of_string_of_list_ascii.
        now rewrite kept_chars_fixed.
Qed.

Lemma archive_directory_of_the_entry_witness :
  ascii_only "  D:\Out " = true
  /\ build_path_of_entry demo "  D:\Out " = "D:\Out"
  /\ build_path_of_entry demo "   " = "C:\Proj\BuildOutput"
  /\ (let build_path := build_path_of_entry demo "  D:\Out " in
      build_path <> ""
      /\ (blank "  D:\Out " = true ->
          build_path = show_path (os_path_join (getcwd demo) "BuildOutput"))
      /\ (blank "  D:\Out " = false ->
          exists pre post,
            "  D:\Out " = pre +++ build_path +++ post
            /\ blank pre = true /\ blank post = true
            /\ strip build_path = build_path)).
Proof.
  split; [reflexivity|]. split; [reflexivity|]. split; [reflexivity|].
  apply (archive_directory_of_the_entry demo "  D:\Out "). reflexivity.
Defined.

End PackagerFacts.

(** ** The folder scaffolding script *)

Module ScaffoldFacts.

Import Disk DiskFacts Scaffold.

(** What [os.stat] tells about an entry, with the names compared as they
    are written. *)
Definition stat (p : path) (d : node) : option shape :=
  option_map shape_of (lookup p d).

Lemma exists_stat (p : path) (d : node) :
  os_path_exists p d = true <-> p <> [] /\ stat p d <> None.
Proof.
  unfold os_path_exists, stat. destruct p as [|x p].
  - split; [discriminate|]. intros [H _]. congruence.
  - destruct (lookup (x :: p) d); cbn [option_map]; split;
      try discriminate; try (intros [_ H]; congruence).
    intros _. split; discriminate.
Qed.

Lemma lookup_through (p q : path) (d : node) :
  lookup (p ++ q) d
  = match lookup p d with
    | Some n => lookup q n
    | None => None
    end.
Proof.
  revert d. induction p as [|x p IH]; intros d; [reflexivity|].
  cbn [app lookup]. destruct d as [c|es]; [reflexivity|].
  destruct (assoc x es); [apply IH|reflexivity].
Qed.

Lemma below_begins (p rest : path) : below p (p ++ rest) = true.
Proof. induction p; simpl; [reflexivity|]. now rewrite String.eqb_refl. Qed.

(** *** Entries of a folder *)

Lemma assoc_update (x y : string) (c' : node) (es : list (string * node)) :
  assoc y (update x c' es)
  = if (x =? y)%string
    then match assoc x es with
         | Some _ => Some c'
         | None => None
         end
    else assoc y es.
Proof.
  induction es as [|[n c] es IH]; cbn [update assoc].
  - now destruct (x =? y)%string.
  - destruct (String.eqb_spec n x) as [->|Hnx]; cbn [assoc].
    + now destruct (x =? y)%string.
    + rewrite IH. destruct (String.eqb_spec x y) as [->|Hxy].
      * now rewrite (proj2 (String.eqb_neq n y) Hnx).
      * reflexivity.
Qed.

Lemma assoc_app_new (x y : string) (n : node) (es : list (string * node)) :
  assoc y (es ++ [(x, n)])
  = match assoc y es with
    | Some c => Some c
    | None => if (x =? y)%string then Some n else None
    end.
Proof.
  induction es as [|[m c] es IH]; cbn [app assoc]; [reflexivity|].
  now destruct (m =? y)%string.
Qed.

Lemma update_same (x : string) (c : node) (es : list (string * node)) :
  assoc x es = Some c -> update x c es = es.
Proof.
  induction es as [|[n c0] es IH]; cbn [assoc update]; [reflexivity|].
  destruct (n =? x)%string; [now intros [= ->]|].
  intros H. now rewrite (IH H).
Qed.

Lemma stat_cons (x : string) (q : path) (es : list (string * node)) :
  stat (x :: q) (Dir es)
  = match assoc x es with
    | Some c => stat q c
    | None => None
    end.
Proof. unfold stat. cbn [lookup]. now destruct (assoc x es). Qed.

Lemma stat_file (q : path) (c : string) :
  stat q (File c) = match q with [] => Some (IsFile c) | _ => None end.
Proof. now destruct q. Qed.

(** *** Making folders and writing files *)

Lemma stat_fresh_dirs (p : path) : stat p (fresh_dirs p) = Some IsDir.
Proof.
  induction p as [|x p IH]; [reflexivity|].
  cbn [fresh_dirs]. rewrite stat_cons. cbn [assoc]. now rewrite String.eqb_refl.
Qed.

(** [os.makedirs] leaves what exists as it is. *)
Lemma makedirs_node_keeps (p : path) (n n' : node) :
  makedirs_node p n = Some n' ->
  forall q s, stat q n = Some s -> stat q n' = Some s.
Proof.
  revert n n'. induction p as [|x p IH]; intros n n' H q s Hq;
    [discriminate|].
  destruct n as [c|es]; [discriminate|]. cbn [makedirs_node] in H.
  destruct (assoc x es) as [c|] eqn:Hx.
  - destruct (makedirs_node p c) as [c'|] eqn:Hm; [|discriminate].
    injection H as <-. destruct q as [|y q]; [exact Hq|].
    rewrite stat_cons in Hq. rewrite stat_cons, assoc_update, Hx.
    destruct (String.eqb_spec x y) as [->|Hxy]; [|exact Hq].
    rewrite Hx in Hq. exact (IH _ _ Hm _ _ Hq).
  - injection H as <-. destruct q as [|y q]; [exact Hq|].
    rewrite stat_cons in Hq. rewrite stat_cons, assoc_app_new.
    now destruct (assoc y es).
Qed.

(** ... and makes the folder. *)
Lemma makedirs_node_makes (p : path) (n n' : node) :
  makedirs_node p n = Some n' -> stat p n' = Some IsDir.
Proof.
  revert n n'. induction p as [|x p IH]; intros n n' H; [discriminate|].
  destruct n as [c|es]; [discriminate|]. cbn [makedirs_node] in H.
  destruct (assoc x es) as [c|] eqn:Hx.
  - destruct (makedirs_node p c) as [c'|] eqn:Hm; [|discriminate].
    injection H as <-. rewrite stat_cons, assoc_update, Hx, String.eqb_refl.
    exact (IH _ _ Hm).
  - injection H as <-. rewrite stat_cons, assoc_app_new, Hx, String.eqb_refl.
    apply stat_fresh_dirs.
Qed.

(** Writing a file leaves every other path as it is, and no folder is
    ever written over. *)
Lemma write_node_keeps (p : path) (text : string) (n n' : node) :
  write_node p text n = Some n' ->
  forall q s, stat q n = Some s ->
    (q <> p -> stat q n' = Some s)
    /\ (q = p -> exists c, s = IsFile c).
Proof.
  revert n n'. induction p as [|x p IH]; intros n n' H q s Hq.
  - destruct n as [c|es]; [|discriminate]. injection H as <-.
    rewrite stat_file in Hq. destruct q; [|discriminate].
    injection Hq as <-. split; [congruence|]. intros _. now exists c.
  - destruct n as [c|es]; [discriminate|]. cbn [write_node] in H.
    destruct q as [|y q].
    + split; [|discriminate]. intros _.
      destruct (assoc x es) as [c|];
        [destruct (write_node p text c); [|discriminate]
        |destruct p; [|discriminate]];
        injection H as <-; exact Hq.
    + rewrite stat_cons in Hq.
      destruct (assoc x es) as [c|] eqn:Hx.
      * destruct (write_node p text c) as [c'|] eqn:Hw; [|discriminate].
        injection H as <-. rewrite stat_cons, assoc_update, Hx.
        destruct (String.eqb_spec x y) as [->|Hxy].
        -- rewrite Hx in Hq. destruct (IH _ _ Hw _ _ Hq) as [Hne Heq].
           split; [intros Hd; apply Hne; congruence|].
           intros [= ->]. now apply Heq.
        -- split; [intros _; exact Hq|]. intros [= -> ->]. congruence.
      * destruct p as [|z p]; [|discriminate]. injection H as <-.
        rewrite stat_cons, assoc_app_new.
        destruct (assoc y es) as [c|] eqn:Hy; [|discriminate].
        split; [intros _; exact Hq|]. intros [= -> ->]. congruence.
Qed.

(** ... and the file holds the text. *)
Lemma write_node_writes (p : path) (text : string) (n n' : node) :
  write_node p text n = Some n' -> stat p n' = Some (IsFile text).
Proof.
  revert n n'. induction p as [|x p IH]; intros n n' H.
  - destruct n as [c|es]; [|discriminate]. now injection H as <-.
  - destruct n as [c|es]; [discriminate|]. cbn [write_node] in H.
    destruct (assoc x es) as [c|] eqn:Hx.
    + destruct (write_node p text c) as [c'|] eqn:Hw; [|discriminate].
      injection H as <-. rewrite stat_cons, assoc_update, Hx, String.eqb_refl.
      exact (IH _ _ Hw).
    + destruct p as [|z p]; [|discriminate]. injection H as <-.
      now rewrite stat_cons, assoc_app_new, Hx, String.eqb_refl.
Qed.

(** Writing the text a file holds already changes nothing. *)
Lemma write_node_same (p : path) (text : string) (n : node) :
  stat p n = Some (IsFile text) -> write_node p text n = Some n.
Proof.
  revert n. induction p as [|x p IH]; intros n H.
  - destruct n as [c|es]; [|discriminate]. now injection H as ->.
  - destruct n as [c|es]; [discriminate|]. rewrite stat_cons in H.
    cbn [write_node]. destruct (assoc x es) as [c|] eqn:Hx; [|discriminate].
    now rewrite (IH _ H), (update_same _ _ _ Hx).
Qed.

(** With a file on the way no folder is made. *)
Lemma makedirs_node_blocked (a r : path) (x c : string) (n : node) :
  stat a n = Some (IsFile c) -> makedirs_node (a ++ x :: r) n = None.
Proof.
  revert n. induction a as [|y a IH]; intros n H.
  - destruct n as [c0|es]; [reflexivity|discriminate].
  - destruct n as [c0|es]; [reflexivity|]. rewrite stat_cons in H.
    cbn [app makedirs_node]. destruct (assoc y es) as [c1|]; [|discriminate].
    now rewrite (IH _ H).
Qed.

Lemma stat_blocked (a r : path) (x c : string) (n : node) :
  stat a n = Some (IsFile c) -> stat (a ++ x :: r) n = None.
Proof.
  unfold stat. rewrite lookup_through.
  destruct (lookup a n) as [[c0|es]|]; try discriminate. reflexivity.
Qed.

(** What is below a folder is in a folder. *)
Lemma stat_parent_dir (a r : path) (x : string) (n : node) :
  stat (a ++ x :: r) n <> None -> stat a n = Some IsDir.
Proof.
  unfold stat. rewrite lookup_through.
  destruct (lookup a n) as [[c|es]|]; cbn [lookup option_map shape_of];
    congruence.
Qed.

Lemma stat_fresh_dirs_inv (p q : path) (s : shape) :
  stat q (fresh_dirs p) = Some s -> s = IsDir /\ exists r, p = q ++ r.
Proof.
  revert q. induction p as [|x p IH]; intros q H.
  - destruct q as [|y q]; [|discriminate]. injection H as <-.
    split; [reflexivity|now exists []].
  - destruct q as [|y q].
    + injection H as <-. split; [reflexivity|now exists (x :: p)].
    + cbn [fresh_dirs] in H. rewrite stat_cons in H. cbn [assoc] in H.
      destruct (String.eqb_spec x y) as [->|Hxy]; [|discriminate].
      destruct (IH _ H) as [-> [r ->]]. split; [reflexivity|now exists r].
Qed.

(** Why [os.makedirs] fails: the folder exists, or a file is on the
    way. *)
Lemma makedirs_node_fails (p : path) (n : node) :
  makedirs_node p n = None ->
  p = [] \/ stat p n <> None
  \/ exists a x r c, p = a ++ x :: r /\ stat a n = Some (IsFile c).
Proof.
  revert n. induction p as [|x p IH]; intros n H; [now left|].
  right. destruct n as [c|es].
  - right. now exists [], x, p, c.
  - cbn [makedirs_node] in H. rewrite stat_cons.
    destruct (assoc x es) as [c|] eqn:Hx; [|discriminate].
    destruct (makedirs_node p c) as [c'|] eqn:Hm; [discriminate|].
    destruct (IH _ Hm) as [->|[Hs|(a & y & r & c0 & -> & Ha)]].
    + left. destruct c; discriminate.
    + now left.
    + right. exists (x :: a), y, r, c0. split; [reflexivity|].
      now rewrite stat_cons, Hx.
Qed.

(** What [os.makedirs] adds: folders on the way to the one asked for. *)
Lemma makedirs_node_adds (p : path) (n n' : node) :
  makedirs_node p n = Some n' ->
  forall q s, stat q n' = Some s ->
    stat q n = Some s \/ (s = IsDir /\ exists r, p = q ++ r).
Proof.
  revert n n'. induction p as [|x p IH]; intros n n' H q s Hq;
    [discriminate|].
  destruct n as [c|es]; [discriminate|]. cbn [makedirs_node] in H.
  destruct (assoc x es) as [c|] eqn:Hx.
  - destruct (makedirs_node p c) as [c'|] eqn:Hm; [|discriminate].
    injection H as <-. destruct q as [|y q]; [now left|].
    rewrite stat_cons, assoc_update, Hx in Hq. rewrite stat_cons.
    destruct (String.eqb_spec x y) as [->|Hxy]; [|now left].
    rewrite Hx. destruct (IH _ _ Hm _ _ Hq) as [Hs|[-> [r ->]]];
      [now left|right]. split; [reflexivity|now exists r].
  - injection H as <-. destruct q as [|y q]; [now left|].
    rewrite stat_cons, assoc_app_new in Hq. rewrite stat_cons.
    destruct (assoc y es) as [c|]; [now left|].
    destruct (String.eqb_spec x y) as [->|Hxy]; [|discriminate].
    right. destruct (stat_fresh_dirs_inv _ _ _ Hq) as [-> [r ->]].
    split; [reflexivity|now exists r].
Qed.

(** What a write adds: the file written. *)
Lemma write_node_adds (p : path) (text : string) (n n' : node) :
  write_node p text n = Some n' ->
  forall q s, stat q n' = Some s ->
    (q = p /\ s = IsFile text) \/ stat q n = Some s.
Proof.
  revert n n'. induction p as [|x p IH]; intros n n' H q s Hq.
  - destruct n as [c|es]; [|discriminate]. injection H as <-.
    rewrite stat_file in Hq. destruct q; [|discriminate].
    injection Hq as <-. now left.
  - destruct n as [c|es]; [discriminate|]. cbn [write_node] in H.
    destruct (assoc x es) as [c|] eqn:Hx.
    + destruct (write_node p text c) as [c'|] eqn:Hw; [|discriminate].
      injection H as <-. destruct q as [|y q]; [now right|].
      rewrite stat_cons, assoc_update, Hx in Hq. rewrite stat_cons.
      destruct (String.eqb_spec x y) as [->|Hxy]; [|now right].
      rewrite Hx. destruct (IH _ _ Hw _ _ Hq) as [[-> ->]|Hs];
        [now left|now right].
    + destruct p as [|z p]; [|discriminate]. injection H as <-.
      destruct q as [|y q]; [now right|].
      rewrite stat_cons, assoc_app_new in Hq. rewrite stat_cons.
      destruct (assoc y es) as [c|]; [now right|].
      destruct (String.eqb_spec x y) as [->|Hxy]; [|discriminate].
      rewrite stat_file in Hq. destruct q; [|discriminate].
      injection Hq as <-. now left.
Qed.

(** Why a write fails: the folder is missing, or the file is a folder. *)
Lemma write_node_fails (p : path) (x text : string) (n : node) :
  write_node (p ++ [x]) text n = None ->
  stat p n <> Some IsDir \/ stat (p ++ [x]) n = Some IsDir.
Proof.
  revert n. induction p as [|y p IH]; intros n H.
  - destruct n as [c|es]; [left; discriminate|].
    cbn [app write_node] in H. cbn [app]. rewrite stat_cons.
    destruct (assoc x es) as [[c|es']|]; try discriminate. now right.
  - destruct n as [c|es]; [left; discriminate|].
    cbn [app write_node] in H. cbn [app]. rewrite !stat_cons.
    destruct (assoc y es) as [c|]; [|left; discriminate].
    destruct (write_node (p ++ [x]) text c) eqn:Hw; [discriminate|].
    exact (IH _ Hw).
Qed.

(** *** Running one call after another *)

Definition after {A : Type} (out1 : list line)
    (x : result A * node * list line) : result A * node * list line :=
  let '(r, d2, out2) := x in (r, d2, out1 ++ out2).

Lemma run_ok {A B : Type} (m : M A) (f : A -> M B) (d d1 : node) (a : A)
    (out1 : list line) :
  m d = (Ok a, d1, out1) -> bind m f d = after out1 (f a d1).
Proof. intros H. unfold bind. now rewrite H. Qed.

Lemma run_well {A B : Type} (m : M A) (f : A -> M B) (d : node) (a : A) :
  outcome (m d) = Ok a ->
  bind m f d = after (printed (m d)) (f a (disk_after (m d))).
Proof.
  intros H. apply run_ok. destruct (m d) as [[r d1] out1].
  cbn [outcome disk_after printed fst snd] in *. now subst.
Qed.

Lemma run_raise {A B : Type} (m : M A) (f : A -> M B) (d d1 : node)
    (e : string) (out1 : list line) :
  m d = (Raise e, d1, out1) -> bind m f d = (Raise e, d1, out1).
Proof. intros H. unfold bind. now rewrite H. Qed.

Lemma run_assoc {A B C : Type} (m : M A) (f : A -> M B) (g : B -> M C)
    (d : node) :
  bind (bind m f) g d = bind m (fun a => bind (f a) g) d.
Proof.
  unfold bind. destruct (m d) as [[[a|e] d1] out1]; [|reflexivity].
  destruct (f a d1) as [[[b|e] d2] out2]; [|reflexivity].
  destruct (g b d2) as [[r d3] out3]. now rewrite app_assoc.
Qed.

(** A sequence that ends well: its first part did, and the rest ran on
    the disk it left. *)
Lemma run_ends_well {A B : Type} (m : M A) (f : A -> M B) (d : node) (b : B) :
  outcome (bind m f d) = Ok b ->
  exists a,
    outcome (m d) = Ok a
    /\ outcome (f a (disk_after (m d))) = Ok b
    /\ disk_after (bind m f d) = disk_after (f a (disk_after (m d))).
Proof.
  unfold bind. destruct (m d) as [[[a|e] d1] out1]; [|discriminate].
  cbn [outcome disk_after fst snd]. exists a. revert H.
  destruct (f a d1) as [[r d2] out2]. cbn [outcome disk_after fst snd].
  intros H. now repeat split.
Qed.

Lemma disk_after_run {A B : Type} (m : M A) (f : A -> M B) (d : node) :
  disk_after (bind m f d)
  = match outcome (m d) with
    | Ok a => disk_after (f a (disk_after (m d)))
    | Raise _ => disk_after (m d)
    end.
Proof.
  unfold bind. destruct (m d) as [[[a|e] d1] out1]; [|reflexivity].
  cbn [outcome disk_after fst snd]. now destruct (f a d1) as [[r d2] out2].
Qed.

(** *** One folder and its guide *)

(** [if not os.path.exists(full_path): ... else: ...]. *)
Definition ensure (full_path : path) : M unit :=
  found <- exists_ full_path ;;
  if negb found then
    os_makedirs full_path ;;
    print (Created full_path)
  else print (AlreadyExists full_path).

(** The folder made if it is missing, and the guide written into it. *)
Definition place (full_path : path) (text : string) : M unit :=
  ensure full_path ;;
  write_text (join full_path "Guide.txt") text ;;
  print (GuideCreated (join full_path "Guide.txt")).

Lemma join_name (a : path) : join a "Guide.txt" = a ++ ["Guide.txt"].
Proof. reflexivity. Qed.

Lemma ensure_run (full_path : path) (d : node) :
  ensure full_path d
  = if os_path_exists full_path d
    then (Ok tt, d, [AlreadyExists full_path])
    else match makedirs_node full_path d with
         | Some d1 => (Ok tt, d1, [Created full_path])
         | None => (Raise "OSError", d, [])
         end.
Proof.
  unfold ensure, bind, exists_, os_makedirs, print.
  destruct (os_path_exists full_path d); [reflexivity|]. cbn [negb].
  now destruct (makedirs_node full_path d).
Qed.

Lemma write_then_print (p : path) (text : string) (l : line) (d : node) :
  (write_text p text ;; print l) d
  = match write_node p text d with
    | Some d' => (Ok tt, d', [l])
    | None => (Raise "OSError", d, [])
    end.
Proof.
  unfold bind, write_text, print. now destruct (write_node p text d).
Qed.

(** What is on the disk stays, except that the text of one file may
    change. *)
Definition preserved (written : path -> Prop) (d d' : node) : Prop :=
  forall q s,
    stat q d = Some s ->
    stat q d' = Some s
    \/ (written q
        /\ exists c c', s = IsFile c /\ stat q d' = Some (IsFile c')).

Lemma preserved_refl (written : path -> Prop) (d : node) :
  preserved written d d.
Proof. intros q s H. now left. Qed.

Lemma preserved_trans (written : path -> Prop) (d d1 d2 : node) :
  preserved written d d1 -> preserved written d1 d2 ->
  preserved written d d2.
Proof.
  intros H1 H2 q s Hq.
  destruct (H1 q s Hq) as [Hs|(Hw & c & c' & -> & Hs)].
  - exact (H2 q s Hs).
  - destruct (H2 q _ Hs) as [Hs'|(_ & c1 & c2 & _ & Hs')];
      right; (split; [exact Hw|]); eauto.
Qed.

Lemma preserved_weaken (written written' : path -> Prop) (d d' : node) :
  (forall q, written q -> written' q) ->
  preserved written d d' -> preserved written' d d'.
Proof.
  intros Hsub H q s Hq.
  destruct (H q s Hq) as [Hs|(Hw & Hrest)]; [now left|right].
  split; [now apply Hsub|exact Hrest].
Qed.

Lemma preserved_dir (written : path -> Prop) (d d' : node) (q : path) :
  preserved written d d' -> stat q d = Some IsDir -> stat q d' = Some IsDir.
Proof.
  intros H Hq. destruct (H q _ Hq) as [Hs|(_ & c & c' & Hc & _)];
    [exact Hs|discriminate].
Qed.

Lemma preserved_file (written : path -> Prop) (d d' : node) (q : path)
    (s : shape) :
  preserved written d d' -> ~ written q -> stat q d = Some s ->
  stat q d' = Some s.
Proof.
  intros H Hn Hq. destruct (H q _ Hq) as [Hs|(Hw & _)]; [exact Hs|].
  contradiction.
Qed.

Lemma ensure_preserved (written : path -> Prop) (full_path : path)
    (d : node) :
  preserved written d (disk_after (ensure full_path d)).
Proof.
  rewrite ensure_run. destruct (os_path_exists full_path d);
    [apply preserved_refl|].
  destruct (makedirs_node full_path d) as [d1|] eqn:Hm;
    [|apply preserved_refl].
  intros q s Hq. left. exact (makedirs_node_keeps _ _ _ Hm q s Hq).
Qed.

Lemma write_text_preserved (p : path) (text : string) (d : node) :
  preserved (eq p) d (disk_after (write_text p text d)).
Proof.
  unfold write_text.
  destruct (write_node p text d) as [d1|] eqn:Hw; [|apply preserved_refl].
  intros q s Hq. cbn [disk_after fst snd].
  destruct (write_node_keeps _ _ _ _ Hw q s Hq) as [Hne Heq].
  destruct (list_eq_dec string_dec q p) as [->|Hd]; [|left; now apply Hne].
  right. split; [reflexivity|]. destruct (Heq eq_refl) as [c ->].
  exists c, text. split; [reflexivity|]. exact (write_node_writes _ _ _ _ Hw).
Qed.

Lemma place_preserved (full_path : path) (text : string) (d : node) :
  preserved (eq (join full_path "Guide.txt")) d
    (disk_after (place full_path text d)).
Proof.
  unfold place. rewrite disk_after_run.
  pose proof (ensure_preserved (eq (join full_path "Guide.txt")) full_path d)
    as He.
  destruct (outcome (ensure full_path d)) as [[]|e]; [|exact He].
  apply (preserved_trans _ _ _ _ He). rewrite disk_after_run.
  set (d1 := disk_after (ensure full_path d)).
  pose proof (write_text_preserved (join full_path "Guide.txt") text d1) as Hw.
  destruct (outcome (write_text _ text d1)) as [[]|e]; exact Hw.
Qed.

(** When the guide is written the folder is there and holds it. *)
Lemma place_built (full_path : path) (text : string) (d : node) :
  outcome (place full_path text d) = Ok tt ->
  stat full_path (disk_after (place full_path text d)) = Some IsDir
  /\ stat (join full_path "Guide.txt") (disk_after (place full_path text d))
     = Some (IsFile text).
Proof.
  intros Hok. unfold place in *.
  destruct (run_ends_well _ _ _ _ Hok) as ([] & _ & Hok1 & ->).
  set (d1 := disk_after (ensure full_path d)) in *.
  destruct (run_ends_well _ _ _ _ Hok1) as ([] & Hw & _ & ->).
  unfold write_text in *.
  destruct (write_node (join full_path "Guide.txt") text d1) as [d2|] eqn:Hwn;
    [|discriminate].
  cbn [print disk_after fst snd].
  pose proof (write_node_writes _ _ _ _ Hwn) as Hg. split; [|exact Hg].
  rewrite join_name in Hg. unfold stat in *.
  rewrite lookup_through in Hg.
  destruct (lookup full_path d2) as [[c|es]|]; try discriminate.
  reflexivity.
Qed.

(** A folder that is there with its guide is left as it is, and said to
    exist. *)
Lemma place_again (full_path : path) (text : string) (d : node) :
  full_path <> [] ->
  stat full_path d = Some IsDir ->
  stat (join full_path "Guide.txt") d = Some (IsFile text) ->
  place full_path text d
  = (Ok tt, d,
     [AlreadyExists full_path; GuideCreated (join full_path "Guide.txt")]).
Proof.
  intros Hne Hdir Hguide. unfold place.
  rewrite (run_ok _ _ d d tt [AlreadyExists full_path]).
  - rewrite (run_ok _ _ d d tt []); [reflexivity|].
    unfold write_text. now rewrite (write_node_same _ _ _ Hguide).
  - rewrite ensure_run.
    assert (Hex : os_path_exists full_path d = true)
      by (apply exists_stat; split; [exact Hne|congruence]).
    now rewrite Hex.
Qed.

(** *** The loop over the table *)

Lemma run_ext {A B : Type} (m : M A) (f g : A -> M B) (d : node) :
  (forall a d1, f a d1 = g a d1) -> bind m f d = bind m g d.
Proof.
  intros H. unfold bind. destruct (m d) as [[[a|e] d1] out1]; [|reflexivity].
  now rewrite H.
Qed.

(** The relative paths of a list are all different. *)
Fixpoint distinct (l : list path) : bool :=
  match l with
  | [] => true
  | x :: l' =>
      negb (existsb (fun y => if list_eq_dec string_dec x y then true
                              else false) l')
      && distinct l'
  end.

Lemma distinct_NoDup (l : list path) : distinct l = true -> NoDup l.
Proof.
  induction l as [|x l IH]; [constructor|].
  cbn [distinct]. intros H. apply andb_true_iff in H as [Hx Hl].
  constructor; [|now apply IH].
  intros Hin. apply negb_true_iff in Hx.
  assert (Hex : existsb (fun y => if list_eq_dec string_dec x y then true
                                  else false) l = true).
  { apply existsb_exists. exists x. split; [exact Hin|].
    now destruct (list_eq_dec string_dec x x). }
  congruence.
Qed.

Section Script.

Variable cwd : path.

Definition folder_of (item : string * (string * string)) : path :=
  join (core_base_path cwd) (fst item).

Definition guide_of (item : string * (string * string)) : path :=
  join (folder_of item) "Guide.txt".

Definition text_of (item : string * (string * string)) : string :=
  fst (snd item) +++ NL +++ snd (snd item).

Definition splash_guide_path : path := join (splash_path cwd) "Guide.txt".

(** Every file the script writes. *)
Definition guide_paths : list path :=
  map guide_of descriptions ++ [splash_guide_path].

Lemma guide_for_place (item : string * (string * string)) (d : node) :
  guide_for cwd item d = place (folder_of item) (text_of item) d.
Proof. destruct item as [folder description]. reflexivity. Qed.

Lemma folder_of_nonempty (item : string * (string * string)) :
  folder_of item <> [].
Proof.
  unfold folder_of, core_base_path, join. intros H.
  apply app_eq_nil in H as [H _]. apply app_eq_nil in H as [_ H].
  discriminate.
Qed.

Lemma guide_of_inj (x y : string * (string * string)) :
  guide_of x = guide_of y -> components (fst x) = components (fst y).
Proof.
  unfold guide_of, folder_of, join. intros H.
  apply app_inv_tail in H. now apply app_inv_head in H.
Qed.

Lemma guides_distinct (l : list (string * (string * string))) :
  NoDup (map (fun item => components (fst item)) l) -> NoDup (map guide_of l).
Proof.
  induction l as [|x l IH]; [constructor|].
  cbn [map]. intros H. inversion H as [|? ? Hx Hl]; subst.
  constructor; [|now apply IH].
  intros Hin. apply Hx. apply in_map_iff in Hin as (y & Hy & Hin).
  apply in_map_iff. exists y. split; [|exact Hin].
  now apply guide_of_inj.
Qed.

Lemma descriptions_distinct : NoDup (map guide_of descriptions).
Proof.
  apply guides_distinct, distinct_NoDup. vm_compute. reflexivity.
Qed.

Lemma splash_guide_apart (l : list (string * (string * string))) :
  ~ In splash_guide_path (map guide_of l).
Proof.
  intros Hin. apply in_map_iff in Hin as (y & Hy & _).
  unfold guide_of, folder_of, splash_guide_path, core_base_path, splash_path,
    join in Hy.
  rewrite <- !app_assoc in Hy. apply app_inv_head in Hy.
  vm_compute in Hy. discriminate.
Qed.

Lemma loop_preserved (l : list (string * (string * string))) (d : node) :
  preserved (fun q => In q (map guide_of l)) d
    (disk_after (for_each l (guide_for cwd) d)).
Proof.
  revert d. induction l as [|x l IH]; intros d; [apply preserved_refl|].
  cbn [for_each map]. rewrite disk_after_run.
  assert (Hx : preserved (fun q => In q (guide_of x :: map guide_of l)) d
                 (disk_after (guide_for cwd x d))).
  { rewrite guide_for_place.
    apply (preserved_weaken (eq (guide_of x))); [|apply place_preserved].
    intros q <-. now left. }
  destruct (outcome (guide_for cwd x d)) as [[]|e]; [|exact Hx].
  apply (preserved_trans _ _ _ _ Hx).
  apply (preserved_weaken (fun q => In q (map guide_of l))); [|apply IH].
  intros q Hq. now right.
Qed.

Lemma loop_built (l : list (string * (string * string))) (d : node) :
  outcome (for_each l (guide_for cwd) d) = Ok tt ->
  NoDup (map guide_of l) ->
  forall item,
    In item l ->
    stat (folder_of item) (disk_after (for_each l (guide_for cwd) d))
    = Some IsDir
    /\ stat (guide_of item) (disk_after (for_each l (guide_for cwd) d))
       = Some (IsFile (text_of item)).
Proof.
  revert d. induction l as [|x l IH]; intros d Hok Hnd item Hin;
    [destruct Hin|].
  cbn [for_each map] in *. inversion Hnd as [|? ? Hx Hl]; subst.
  destruct (run_ends_well _ _ _ _ Hok) as ([] & Hfirst & Hrest & ->).
  set (d1 := disk_after (guide_for cwd x d)) in *.
  destruct Hin as [<-|Hin]; [|now apply IH].
  unfold d1 in *. rewrite guide_for_place in *.
  destruct (place_built _ _ _ Hfirst) as [Hdir Hguide].
  pose proof (loop_preserved l (disk_after (place (folder_of x) (text_of x) d)))
    as Hp.
  split.
  - exact (preserved_dir _ _ _ _ Hp Hdir).
  - exact (preserved_file _ _ _ _ _ Hp Hx Hguide).
Qed.

(** The lines of a run that finds every folder. *)
Definition lines_again (l : list (string * (string * string))) : list line :=
  flat_map (fun item => [AlreadyExists (folder_of item);
                         GuideCreated (guide_of item)]) l.

Lemma loop_again (l : list (string * (string * string))) (d : node) :
  (forall item,
     In item l ->
     stat (folder_of item) d = Some IsDir
     /\ stat (guide_of item) d = Some (IsFile (text_of item))) ->
  for_each l (guide_for cwd) d = (Ok tt, d, lines_again l).
Proof.
  induction l as [|x l IH]; intros H; [reflexivity|].
  cbn [for_each].
  destruct (H x (or_introl eq_refl)) as [Hdir Hguide].
  rewrite (run_ok _ _ d d tt
             [AlreadyExists (folder_of x); GuideCreated (guide_of x)]).
  - rewrite IH; [reflexivity|]. intros item Hin. apply H. now right.
  - rewrite guide_for_place.
    exact (place_again _ _ _ (folder_of_nonempty x) Hdir Hguide).
Qed.

(** The script: the loop, then the Splash folder, then the closing line. *)
Lemma script_split (d : node) :
  script cwd d
  = bind (for_each descriptions (guide_for cwd))
      (fun _ => bind (place (splash_path cwd) splash_text)
                  (fun _ => print Finished)) d.
Proof.
  unfold script. apply run_ext. intros [] d1.
  unfold place. fold (ensure (splash_path cwd)).
  rewrite run_assoc. apply run_ext. intros [] d2.
  now rewrite run_assoc.
Qed.

Lemma splash_path_nonempty : splash_path cwd <> [].
Proof.
  unfold splash_path, join. intros H. apply app_eq_nil in H as [_ H].
  discriminate.
Qed.

(** What a run that ends well leaves. *)
Definition built (d : node) : Prop :=
  (forall item,
     In item descriptions ->
     stat (folder_of item) d = Some IsDir
     /\ stat (guide_of item) d = Some (IsFile (text_of item)))
  /\ stat (splash_path cwd) d = Some IsDir
  /\ stat splash_guide_path d = Some (IsFile splash_text).

Lemma script_built (d : node) :
  outcome (script cwd d) = Ok tt -> built (disk_after (script cwd d)).
Proof.
  rewrite script_split. intros Hok.
  destruct (run_ends_well _ _ _ _ Hok) as ([] & Hloop & Hrest & ->).
  set (d1 := disk_after (for_each descriptions (guide_for cwd) d)) in *.
  destruct (run_ends_well _ _ _ _ Hrest) as ([] & Hsplash & _ & ->).
  cbn [print disk_after fst snd].
  destruct (place_built _ _ _ Hsplash) as [Hdir Hguide].
  pose proof (place_preserved (splash_path cwd) splash_text d1) as Hp.
  split; [|split; assumption].
  intros item Hin.
  destruct (loop_built _ _ Hloop descriptions_distinct item Hin)
    as [Hd Hg].
  split.
  - exact (preserved_dir _ _ _ _ Hp Hd).
  - apply (preserved_file _ _ _ _ _ Hp); [|exact Hg].
    intros Heq. apply (splash_guide_apart descriptions).
    unfold splash_guide_path. rewrite Heq. now apply in_map.
Qed.

Lemma script_again (d : node) :
  built d ->
  script cwd d
  = (Ok tt, d,
     lines_again descriptions
     ++ [AlreadyExists (splash_path cwd); GuideCreated splash_guide_path;
         Finished]).
Proof.
  intros (Hitems & Hdir & Hguide). rewrite script_split.
  rewrite (run_ok _ _ d d tt _ (loop_again _ _ Hitems)).
  rewrite (run_ok _ _ d d tt _
             (place_again _ _ _ splash_path_nonempty Hdir Hguide)).
  reflexivity.
Qed.

Lemma script_preserved (d : node) :
  preserved (fun q => In q guide_paths) d (disk_after (script cwd d)).
Proof.
  rewrite script_split, disk_after_run.
  assert (Hloop : preserved (fun q => In q guide_paths) d
                    (disk_after (for_each descriptions (guide_for cwd) d))).
  { apply (preserved_weaken (fun q => In q (map guide_of descriptions)));
      [|apply loop_preserved].
    intros q Hq. unfold guide_paths. apply in_or_app. now left. }
  destruct (outcome (for_each descriptions (guide_for cwd) d)) as [[]|e];
    [|exact Hloop].
  apply (preserved_trans _ _ _ _ Hloop). rewrite disk_after_run.
  set (d1 := disk_after (for_each descriptions (guide_for cwd) d)).
  assert (Hsplash : preserved (fun q => In q guide_paths) d1
                      (disk_after (place (splash_path cwd) splash_text d1))).
  { apply (preserved_weaken (eq splash_guide_path)); [|apply place_preserved].
    intros q <-. unfold guide_paths. apply in_or_app. right. now left. }
  destruct (outcome (place (splash_path cwd) splash_text d1)) as [[]|e];
    exact Hsplash.
Qed.

(** *** A project the script can always finish *)

(** The folders of the script, from the working directory. *)
Definition rel_folders : list path :=
  map (fun item => components "Content/_Core" ++ components (fst item))
      descriptions
  ++ [components "Content/Splash"].

Lemma folder_of_rel (item : string * (string * string)) :
  folder_of item
  = cwd ++ components "Content/_Core" ++ components (fst item).
Proof. unfold folder_of, core_base_path, join. now rewrite app_assoc. Qed.

Lemma folder_of_In (item : string * (string * string)) :
  In item descriptions ->
  In (components "Content/_Core" ++ components (fst item)) rel_folders.
Proof.
  intros H. unfold rel_folders. apply in_or_app. left.
  apply in_map_iff. now exists item.
Qed.

Lemma splash_In : In (components "Content/Splash") rel_folders.
Proof. unfold rel_folders. apply in_or_app. right. now left. Qed.

(** A path on the way to a folder of the script, or one of them. *)
Definition on_the_way (q : path) : Prop :=
  exists rf r, In rf rel_folders /\ cwd ++ rf = q ++ r.

(** A guide of the script. *)
Definition is_guide (q : path) : Prop :=
  exists rf, In rf rel_folders /\ q = cwd ++ rf ++ ["Guide.txt"].

(** No guide lies on the way to a folder: no folder of the table is named
    Guide.txt or lies in one. *)
Lemma guides_apart (q : path) : is_guide q -> on_the_way q -> False.
Proof.
  intros (rg & Hrg & ->) (rf & r & Hrf & Heq).
  rewrite <- !app_assoc in Heq. apply app_inv_head in Heq.
  assert (Hcheck :
    forallb (fun g => forallb (fun f => negb (below (g ++ ["Guide.txt"]) f))
                        rel_folders) rel_folders = true)
    by (vm_compute; reflexivity).
  rewrite forallb_forall in Hcheck. specialize (Hcheck rg Hrg).
  rewrite forallb_forall in Hcheck. specialize (Hcheck rf Hrf).
  rewrite Heq, app_assoc, below_begins in Hcheck. discriminate.
Qed.

Lemma rel_folders_in_Content (rf : path) :
  In rf rel_folders -> exists tl, rf = "Content" :: tl.
Proof.
  intros Hrf.
  assert (Hcheck :
    forallb (fun f => match f with
                      | x :: _ => (x =? "Content")%string
                      | [] => false
                      end) rel_folders = true)
    by (vm_compute; reflexivity).
  rewrite forallb_forall in Hcheck. specialize (Hcheck rf Hrf).
  destruct rf as [|x tl]; [discriminate|].
  apply String.eqb_eq in Hcheck as ->. now exists tl.
Qed.

(** The working directory is a folder, and what [Content] holds are
    folders on the way to those of the script and guides of the script. *)
Definition tidy (d : node) : Prop :=
  stat cwd d = Some IsDir
  /\ forall q s,
       stat (cwd ++ "Content" :: q) d = Some s ->
       match s with
       | IsDir => on_the_way (cwd ++ "Content" :: q)
       | IsFile _ => is_guide (cwd ++ "Content" :: q)
       end.

Lemma place_tidy (rf : path) (text : string) (d : node) :
  In rf rel_folders -> tidy d ->
  outcome (place (cwd ++ rf) text d) = Ok tt
  /\ tidy (disk_after (place (cwd ++ rf) text d)).
Proof.
  intros Hrf [Hcwd Htidy].
  destruct (rel_folders_in_Content _ Hrf) as [tl ->].
  set (f := cwd ++ "Content" :: tl).
  assert (Hway : on_the_way f) by (exists ("Content" :: tl), []; split;
                                   [exact Hrf|now rewrite app_nil_r]).
  assert (Hne : f <> [])
    by (unfold f; intros H; apply app_eq_nil in H as [_ H]; discriminate).
  (* the folder *)
  assert (Hensure : exists d1 out1,
            ensure f d = (Ok tt, d1, out1)
            /\ stat f d1 = Some IsDir /\ tidy d1).
  { rewrite ensure_run. destruct (os_path_exists f d) eqn:Hex.
    - exists d, [AlreadyExists f]. split; [reflexivity|].
      split; [|now split].
      apply exists_stat in Hex as [_ Hex].
      destruct (stat f d) as [[c|]|] eqn:Hs; [|reflexivity|congruence].
      exfalso. apply (guides_apart f); [|exact Hway].
      exact (Htidy tl _ Hs).
    - destruct (makedirs_node f d) as [d1|] eqn:Hm.
      + exists d1, [Created f]. split; [reflexivity|].
        split; [exact (makedirs_node_makes _ _ _ Hm)|].
        split; [exact (makedirs_node_keeps _ _ _ Hm _ _ Hcwd)|].
        intros q s Hq.
        destruct (makedirs_node_adds _ _ _ Hm _ _ Hq) as [Hs|[-> [r Hr]]];
          [exact (Htidy q s Hs)|].
        exists ("Content" :: tl), r. split; [exact Hrf|exact Hr].
      + exfalso.
        destruct (makedirs_node_fails _ _ Hm)
          as [H|[H|(a & x & r & c & Heq & Ha)]].
        * contradiction.
        * assert (os_path_exists f d = true)
            by (apply exists_stat; now split).
          congruence.
        * unfold f in Heq. symmetry in Heq.
          apply app_eq_app in Heq as (l & [[Ha_eq Hl]|[Hc_eq Hl]]).
          -- destruct l as [|y l];
               [rewrite Ha_eq, app_nil_r in Ha; congruence|].
             cbn [app] in Hl. injection Hl as Hy Hl. subst y a.
             apply (guides_apart (cwd ++ "Content" :: l)).
             ++ exact (Htidy l _ Ha).
             ++ exists ("Content" :: tl), (x :: r). split; [exact Hrf|].
                rewrite Hl, <- app_assoc. reflexivity.
          -- destruct l as [|y l].
             ++ rewrite Hc_eq, app_nil_r in Hcwd. congruence.
             ++ assert (stat a d = Some IsDir)
                  by (apply (stat_parent_dir a l y); rewrite <- Hc_eq;
                      congruence).
                congruence. }
  destruct Hensure as (d1 & out1 & Hrun & Hdir & Hcwd1 & Htidy1).
  (* the guide *)
  unfold place. rewrite (run_ok _ _ _ _ _ _ Hrun).
  rewrite join_name, write_then_print.
  destruct (write_node (f ++ ["Guide.txt"]) text d1) as [d2|] eqn:Hw.
  - cbn [print after outcome disk_after fst snd]. split; [reflexivity|].
    split.
    + destruct (write_node_keeps _ _ _ _ Hw _ _ Hcwd1) as [Hkeep _].
      apply Hkeep. intros Heq. apply (f_equal (@length string)) in Heq.
      unfold f in Heq. rewrite !length_app in Heq. cbn [length] in Heq. lia.
    + intros q s Hq.
      destruct (write_node_adds _ _ _ _ Hw _ _ Hq) as [[Heq ->]|Hs];
        [|exact (Htidy1 q s Hs)].
      exists ("Content" :: tl). split; [exact Hrf|].
      rewrite Heq. unfold f. now rewrite <- app_assoc.
  - exfalso. destruct (write_node_fails _ _ _ _ Hw) as [H|H];
      [congruence|].
    apply (guides_apart (f ++ ["Guide.txt"])).
    + exists ("Content" :: tl). split; [exact Hrf|].
      unfold f. now rewrite <- app_assoc.
    + unfold f in H. rewrite <- app_assoc in H. cbn [app] in H.
      specialize (Htidy1 _ _ H). cbn beta iota in Htidy1.
      unfold f. rewrite <- app_assoc. exact Htidy1.
Qed.

Lemma loop_tidy (l : list (string * (string * string))) (d : node) :
  incl l descriptions -> tidy d ->
  outcome (for_each l (guide_for cwd) d) = Ok tt
  /\ tidy (disk_after (for_each l (guide_for cwd) d)).
Proof.
  revert d. induction l as [|x l IH]; intros d Hincl Ht; [now split|].
  cbn [for_each].
  assert (Hx : In x descriptions) by (apply Hincl; now left).
  destruct (place_tidy _ (text_of x) d (folder_of_In x Hx) Ht) as [Hok Ht1].
  rewrite <- folder_of_rel, <- guide_for_place in Hok, Ht1.
  rewrite (run_well _ _ d tt Hok).
  destruct (IH (disk_after (guide_for cwd x d))
              (fun y Hy => Hincl y (or_intror Hy)) Ht1) as [Hok' Ht'].
  destruct (for_each l (guide_for cwd) (disk_after (guide_for cwd x d)))
    as [[r d2] out2].
  cbn [after outcome disk_after fst snd] in *. now split.
Qed.

Lemma script_tidy (d : node) : tidy d -> outcome (script cwd d) = Ok tt.
Proof.
  intros Ht. rewrite script_split.
  destruct (loop_tidy descriptions d (incl_refl _) Ht) as [Hok Ht1].
  set (d1 := disk_after (for_each descriptions (guide_for cwd) d)) in *.
  rewrite (run_well _ _ d tt Hok). fold d1.
  destruct (place_tidy _ splash_text d1 splash_In Ht1) as [Hok2 _].
  fold (join cwd "Content/Splash") in Hok2. fold (splash_path cwd) in Hok2.
  rewrite (run_well _ _ d1 tt Hok2). reflexivity.
Qed.

(** A project without a [Content] folder is tidy. *)
Lemma fresh_tidy (d : node) (entries : list (string * node)) :
  lookup cwd d = Some (Dir entries) -> assoc "Content" entries = None ->
  tidy d.
Proof.
  intros Hcwd Hnone. split; [unfold stat; now rewrite Hcwd|].
  intros q s Hq. unfold stat in Hq.
  rewrite lookup_through, Hcwd in Hq. cbn [lookup] in Hq.
  rewrite Hnone in Hq. discriminate.
Qed.

End Script.

(** *** Inputs used to run the script *)

(** A project [C:\Proj] without a [Content] folder. *)
Definition new_project : node :=
  Dir [("C:", Dir [("Proj", Dir [("Game.uproject", File "5.3")])])].

(** A project with a [Config] folder of an earlier layout: an old guide and
    a file of its own. *)
Definition old_project : node :=
  Dir [("C:", Dir
    [("Proj", Dir
       [("Content", Dir
          [("_Core", Dir
             [("Config", Dir
                [("Guide.txt", File "old");
                 ("DefaultGame.ini", File "[Game]")])])])])])].

(** A project where [Content] is a file. *)
Definition blocked_project : node :=
  Dir [("C:", Dir [("Proj", Dir [("Content", File "")])])].

Lemma stat_isdir (p : path) (d : node) :
  p <> [] -> stat p d = Some IsDir -> os_path_isdir p d = true.
Proof.
  unfold stat, os_path_isdir. intros Hne H.
  destruct p as [|x p]; [congruence|].
  destruct (lookup (x :: p) d) as [[c|es]|]; try discriminate H.
  reflexivity.
Qed.

Lemma stat_lookup_file (p : path) (d : node) (text : string) :
  stat p d = Some (IsFile text) -> lookup p d = Some (File text).
Proof.
  unfold stat. destruct (lookup p d) as [[c|es]|]; try discriminate.
  now intros [= ->].
Qed.

(** X19: when the script runs to its end, every folder of the table is a
    folder under Content/_Core and its Guide.txt holds the English text, a
    newline and the Portuguese text of its entry, and so for the Splash
    folder: no guide is lost to a later step of the same run. *)
Theorem script_builds_every_folder (cwd : path) (d : node) :
  outcome (script cwd d) = Ok tt ->
  let d' := disk_after (script cwd d) in
  (forall folder english portuguese,
     In (folder, (english, portuguese)) descriptions ->
     let full_path := join (core_base_path cwd) folder in
     os_path_isdir full_path d' = true
     /\ lookup (join full_path "Guide.txt") d'
        = Some (File (english +++ NL +++ portuguese)))
  /\ os_path_isdir (splash_path cwd) d' = true
  /\ lookup (join (splash_path cwd) "Guide.txt") d' = Some (File splash_text).
Proof.
  intros Hok d'. destruct (script_built cwd d Hok) as (Hitems & Hdir & Hguide).
  fold d' in Hitems, Hdir, Hguide. split; [|split].
  - intros folder english portuguese Hin full_path.
    destruct (Hitems _ Hin) as [Hd Hg]. split.
    + apply stat_isdir; [|exact Hd].
      exact (folder_of_nonempty cwd (folder, (english, portuguese))).
    + exact (stat_lookup_file _ _ _ Hg).
  - apply stat_isdir; [apply splash_path_nonempty|exact Hdir].
  - exact (stat_lookup_file _ _ _ Hguide).
Qed.

Lemma script_builds_every_folder_witness :
  outcome (script ["C:"; "Proj"] new_project) = Ok tt
  /\ (let d' := disk_after (script ["C:"; "Proj"] new_project) in
      (forall folder english portuguese,
         In (folder, (english, portuguese)) descriptions ->
         let full_path := join (core_base_path ["C:"; "Proj"]) folder in
         os_path_isdir full_path d' = true
         /\ lookup (join full_path "Guide.txt") d'
            = Some (File (english +++ NL +++ portuguese)))
      /\ os_path_isdir (splash_path ["C:"; "Proj"]) d' = true
      /\ lookup (join (splash_path ["C:"; "Proj"]) "Guide.txt") d'
         = Some (File splash_text)).
Proof.
  split; [vm_compute; reflexivity|].
  apply (script_builds_every_folder ["C:"; "Proj"] new_project).
  vm_compute; reflexivity.
Defined.

(** X20: the script can be run again: on the disk a finished run left, a
    second run ends well, leaves the disk exactly as it found it, and
    reports every folder as existing; it makes no folder. *)
Theorem second_run_changes_nothing (cwd : path) (d : node) :
  outcome (script cwd d) = Ok tt ->
  let d' := disk_after (script cwd d) in
  script cwd d'
  = (Ok tt, d',
     flat_map (fun item =>
                 let full_path := join (core_base_path cwd) (fst item) in
                 [AlreadyExists full_path;
                  GuideCreated (join full_path "Guide.txt")]) descriptions
     ++ [AlreadyExists (splash_path cwd);
         GuideCreated (join (splash_path cwd) "Guide.txt");
         Finished]).
Proof.
  intros Hok d'. pose proof (script_built cwd d Hok) as Hbuilt.
  fold d' in Hbuilt. rewrite (script_again cwd d' Hbuilt).
  reflexivity.
Qed.

Lemma second_run_changes_nothing_witness :
  outcome (script ["C:"; "Proj"] new_project) = Ok tt
  /\ (let d' := disk_after (script ["C:"; "Proj"] new_project) in
      script ["C:"; "Proj"] d'
      = (Ok tt, d',
         flat_map (fun item =>
                     let full_path :=
                       join (core_base_path ["C:"; "Proj"]) (fst item) in
                     [AlreadyExists full_path;
                      GuideCreated (join full_path "Guide.txt")])
                  descriptions
         ++ [AlreadyExists (splash_path ["C:"; "Proj"]);
             GuideCreated (join (splash_path ["C:"; "Proj"]) "Guide.txt");
             Finished])).
Proof.
  split; [vm_compute; reflexivity|].
  apply (second_run_changes_nothing ["C:"; "Proj"] new_project).
  vm_compute; reflexivity.
Defined.

(** X21: the script removes nothing and changes no file but the guides it
    writes, however it ends: every folder stays a folder, and every file
    keeps its text unless it is the Guide.txt of a folder of the script, which
    stays a file. *)
Theorem script_changes_only_its_guides (cwd : path) (d : node) (q : path)
    (s : shape) :
  stat q d = Some s ->
  let d' := disk_after (script cwd d) in
  stat q d' = Some s
  \/ (In q (map (fun item =>
                   join (join (core_base_path cwd) (fst item)) "Guide.txt")
                descriptions
            ++ [join (splash_path cwd) "Guide.txt"])
      /\ exists old new, s = IsFile old /\ stat q d' = Some (IsFile new)).
Proof.
  intros Hq d'.
  destruct (script_preserved cwd d q s Hq) as [Hs|(Hin & c & c' & Hc & Hs)].
  - now left.
  - right. split; [exact Hin|]. now exists c, c'.
Qed.

Lemma script_changes_only_its_guides_witness :
  let cwd := ["C:"; "Proj"] in
  let ini := cwd ++ ["Content"; "_Core"; "Config"; "DefaultGame.ini"] in
  let guide := cwd ++ ["Content"; "_Core"; "Config"; "Guide.txt"] in
  stat ini old_project = Some (IsFile "[Game]")
  /\ stat ini (disk_after (script cwd old_project)) = Some (IsFile "[Game]")
  /\ stat guide old_project = Some (IsFile "old")
  /\ (stat guide (disk_after (script cwd old_project)) = Some (IsFile "old")
      \/ (In guide
            (map (fun item =>
                    join (join (core_base_path cwd) (fst item)) "Guide.txt")
                 descriptions
             ++ [join (splash_path cwd) "Guide.txt"])
          /\ exists old new,
               IsFile "old" = IsFile old
               /\ stat guide (disk_after (script cwd old_project))
                  = Some (IsFile new))).
Proof.
  cbv zeta. split; [reflexivity|]. split; [vm_compute; reflexivity|].
  split; [reflexivity|].
  apply (script_changes_only_its_guides ["C:"; "Proj"] old_project
           (["C:"; "Proj"] ++ ["Content"; "_Core"; "Config"; "Guide.txt"])
           (IsFile "old")).
  reflexivity.
Defined.

(** X22: the script has no handler: when Content, or Content/_Core, is a
    file, the first folder cannot be made, the exception leaves the script,
    and nothing is made or printed. *)
Theorem file_in_the_way_stops_the_script (cwd : path) (d : node)
    (blocked : path) (content : string) :
  In blocked [join cwd "Content"; core_base_path cwd] ->
  stat blocked d = Some (IsFile content) ->
  script cwd d = (Raise "OSError", d, []).
Proof.
  intros Hin Hfile.
  assert (Hfirst : exists x r,
            join (core_base_path cwd) "Art/Materials" = blocked ++ x :: r).
  { destruct Hin as [<-|[<-|[]]].
    - exists "_Core", ["Art"; "Materials"].
      unfold core_base_path, join. rewrite <- !app_assoc. f_equal.
    - exists "Art", ["Materials"]. unfold join. f_equal. }
  destruct Hfirst as (x & r & Hfirst).
  unfold script, descriptions. cbn [for_each].
  apply run_raise. apply run_raise. apply run_raise.
  fold (ensure (join (core_base_path cwd) "Art/Materials")).
  rewrite ensure_run, Hfirst.
  assert (Hex : os_path_exists (blocked ++ x :: r) d = false).
  { destruct (os_path_exists (blocked ++ x :: r) d) eqn:E; [|reflexivity].
    apply exists_stat in E as [_ E].
    now rewrite (stat_blocked _ _ _ _ _ Hfile) in E. }
  now rewrite Hex, (makedirs_node_blocked _ _ _ _ _ Hfile).
Qed.

Lemma file_in_the_way_stops_the_script_witness :
  In ["C:"; "Proj"; "Content"]
     [join ["C:"; "Proj"] "Content"; core_base_path ["C:"; "Proj"]]
  /\ stat ["C:"; "Proj"; "Content"] blocked_project = Some (IsFile "")
  /\ script ["C:"; "Proj"] blocked_project
     = (Raise "OSError", blocked_project, []).
Proof.
  split; [now left|]. split; [reflexivity|].
  apply (file_in_the_way_stops_the_script ["C:"; "Proj"] blocked_project
           ["C:"; "Proj"; "Content"] "");
    [now left|reflexivity].
Defined.

(** X23: in a project without a Content folder the script always runs to
    its end: when the working directory is a folder with no entry named
    Content, no step raises, whatever else the disk holds; the script prints
    its closing line, and that line is the last it prints; and Content is a
    folder afterwards. *)
Theorem fresh_project_is_scaffolded (cwd : path) (d : node)
    (entries : list (string * node)) :
  lookup cwd d = Some (Dir entries) ->
  assoc "Content" entries = None ->
  outcome (script cwd d) = Ok tt
  /\ (exists lines, printed (script cwd d) = lines ++ [Finished])
  /\ os_path_isdir (join cwd "Content") (disk_after (script cwd d)) = true.
Proof.
  intros Hcwd Hnone.
  pose proof (script_tidy cwd d (fresh_tidy cwd d entries Hcwd Hnone)) as Hok.
  split; [exact Hok|]. split.
  - revert Hok. rewrite script_split. intros Hok.
    destruct (run_ends_well _ _ _ _ Hok) as ([] & Hloop & Hrest & _).
    rewrite (run_well _ _ d tt Hloop).
    destruct (run_ends_well _ _ _ _ Hrest) as ([] & Hsplash & _ & _).
    rewrite (run_well _ _ _ tt Hsplash).
    set (out1 := printed (for_each descriptions (guide_for cwd) d)).
    set (out2 := printed (place (splash_path cwd) splash_text _)).
    cbn [print after printed snd]. rewrite !app_assoc.
    exists (out1 ++ out2). reflexivity.
  - destruct (script_built cwd d Hok) as (_ & Hdir & _).
    apply stat_isdir.
    + unfold join. intros H. apply app_eq_nil in H as [_ H]. discriminate.
    + assert (Hsplash : splash_path cwd = join cwd "Content" ++ ["Splash"])
        by (unfold splash_path, join; rewrite <- app_assoc; f_equal).
      apply (stat_parent_dir _ [] "Splash"). rewrite <- Hsplash. congruence.
Qed.

Lemma fresh_project_is_scaffolded_witness :
  lookup ["C:"; "Proj"] new_project
  = Some (Dir [("Game.uproject", File "5.3")])
  /\ assoc "Content" [("Game.uproject", File "5.3")] = None
  /\ outcome (script ["C:"; "Proj"] new_project) = Ok tt
  /\ (exists lines,
        printed (script ["C:"; "Proj"] new_project) = lines ++ [Finished])
  /\ os_path_isdir (join ["C:"; "Proj"] "Content")
       (disk_after (script ["C:"; "Proj"] new_project)) = true.
Proof.
  split; [reflexivity|]. split; [reflexivity|].
  apply (fresh_project_is_scaffolded ["C:"; "Proj"] new_project
           [("Game.uproject", File "5.3")]); reflexivity.
Defined.

End ScaffoldFacts.
